(** * swagger-enforcer: validator, discriminator resolver and template
      materializer, embedded in Rocq.

    The development follows the layout of the repository:
    - [Js]         values of the host language that the library handles;
    - [Validate]   bin-2/validate.js (validator and discriminator resolver);
    - [ApplyTemplate]  bin/apply-template.js (template/defaults materializer);
    - [Swagger]    the parser of request parameters of the version modules.
    The source of the mutation wrapper ([bin/enforcer]) is not part of the
    files at hand and is not embedded.
    The facts proved about each of them follow, in [ValidateFacts] and
    [ApplyTemplateFacts], then in [ValidateMore], [ApplyTemplateMore] and
    [SwaggerFacts]. *)

From Stdlib Require Import ZArith QArith Qround Lia Lqa DecimalString.
From stdpp Require Import gmap strings list.

Set Warnings "-register-all".
Local Open Scope string_scope.
Local Open Scope list_scope.
Local Open Scope nat_scope.

(* ===================================================================== *)
(** ** Host-language values *)
(* ===================================================================== *)

Module Js.

(** A JavaScript number: a finite rational or NaN (infinities and the
    rounding of doubles are left out). *)
Inductive number := NaN | Num (q : Q).

Inductive value :=
| VUndefined
| VNull
| VBool (b : bool)
| VNum (n : number)
| VStr (s : string)
| VDate (time : number)
| VArr (elems : list value)
| VObj (fields : list (string * value)).

(** Thrown errors. *)
Inductive exn :=
| TypeError (msg : string)
| SyntaxError (msg : string).

(** Outcome of a call: a normal return, a thrown error, or the call stack
    running out (the recursion budget of the embedding). *)
Inductive res (A : Type) :=
| Ret (a : A)
| Throw (e : exn)
| StackOverflow.
Arguments Ret {A} a.
Arguments Throw {A} e.
Arguments StackOverflow {A}.

Definition string_of_nat (n : nat) : string :=
  NilEmpty.string_of_uint (Nat.to_uint n).

(** [typeof v] *)
Definition typeof (v : value) : string :=
  match v with
  | VUndefined => "undefined"
  | VNull => "object"
  | VBool _ => "boolean"
  | VNum _ => "number"
  | VStr _ => "string"
  | VDate _ | VArr _ | VObj _ => "object"
  end.

Definition is_nan (n : number) : bool :=
  match n with NaN => true | Num _ => false end.

(** Truthiness, as tested by [if (v)], [!v] and [a && b]. *)
Definition truthy (v : value) : bool :=
  match v with
  | VUndefined | VNull => false
  | VBool b => b
  | VNum NaN => false
  | VNum (Num q) => negb (Qeq_bool q 0)
  | VStr s => negb (String.eqb s "")
  | VDate _ | VArr _ | VObj _ => true
  end.

Definition truthy_opt (o : option value) : bool :=
  match o with Some v => truthy v | None => false end.

(** Relational operators on numbers: every comparison with NaN is false. *)
Definition num_lt (a b : number) : bool :=
  match a, b with
  | Num x, Num y => Qle_bool x y && negb (Qeq_bool x y)
  | _, _ => false
  end.
Definition num_le (a b : number) : bool :=
  match a, b with
  | Num x, Num y => Qle_bool x y
  | _, _ => false
  end.
Definition num_gt (a b : number) : bool := num_lt b a.
Definition num_ge (a b : number) : bool := num_le b a.

(** Strict equality on numbers ([NaN === NaN] is false). *)
Definition num_eq (a b : number) : bool :=
  match a, b with
  | Num x, Num y => Qeq_bool x y
  | _, _ => false
  end.

(** [a % b]: the remainder of the truncated division, NaN for a zero
    divisor. *)
Definition num_rem (a b : number) : number :=
  match a, b with
  | Num x, Num y =>
      if Qeq_bool y 0 then NaN
      else let d := (x / y)%Q in
           Num (x - y * inject_Z (Z.quot (Qnum d) (Zpos (Qden d))))%Q
  | _, _ => NaN
  end.

(** [Math.round] *)
Definition Math_round (a : number) : number :=
  match a with
  | Num x => Num (inject_Z (Qfloor (x + (1 # 2))%Q))
  | NaN => NaN
  end.

Definition num_sub (a b : number) : number :=
  match a, b with
  | Num x, Num y => Num (x - y)%Q
  | _, _ => NaN
  end.

Definition num_of_nat (n : nat) : number := Num (inject_Z (Z.of_nat n)).

(** [a === b] where [a] is a number. *)
Definition strict_eq_num (a : number) (b : value) : bool :=
  match b with
  | VNum n => num_eq a n
  | _ => false
  end.

(** The line break inside messages. *)
Definition nl : string := String (Ascii.ascii_of_nat 10) EmptyString.

(** Number of leading blanks of a string. *)
Fixpoint leading_spaces (s : string) : nat :=
  match s with
  | String c s' => if Ascii.eqb c (Ascii.ascii_of_nat 32) then S (leading_spaces s') else 0
  | EmptyString => 0
  end.

Definition of_nat (n : nat) : value := VNum (num_of_nat n).

(** Own enumerable string keys, in enumeration order, and the own
    properties themselves. Arrays expose their indices. *)
Definition indexed (l : list value) : list (string * value) :=
  imap (fun i x => (string_of_nat i, x)) l.

Fixpoint chars (s : string) : list value :=
  match s with
  | EmptyString => []
  | String c s' => VStr (String c EmptyString) :: chars s'
  end.

Definition own_properties (v : value) : list (string * value) :=
  match v with
  | VObj fs => fs
  | VArr l => indexed l
  | VStr s => indexed (chars s)
  | _ => []
  end.

Definition Object_keys (v : value) : list string :=
  (own_properties v).*1.

Fixpoint assoc {A} (k : string) (l : list (string * A)) : option A :=
  match l with
  | [] => None
  | (k', x) :: l' => if String.eqb k k' then Some x else assoc k l'
  end.

(** [v[k]] for an own property; [undefined] when absent. *)
Definition get (v : value) (k : string) : value :=
  match assoc k (own_properties v) with
  | Some x => x
  | None =>
      if String.eqb k "length" then
        match v with
        | VArr l => of_nat (length l)
        | VStr s => of_nat (String.length s)
        | _ => VUndefined
        end
      else VUndefined
  end.

Definition has_key {A} (k : string) (l : list (string * A)) : bool :=
  match assoc k l with Some _ => true | None => false end.

(** [v.hasOwnProperty(k)]: a TypeError on [null] and [undefined]. *)
Definition hasOwnProperty (v : value) (k : string) : res bool :=
  match v with
  | VUndefined | VNull =>
      Throw (TypeError "Cannot read property 'hasOwnProperty' of null or undefined")
  | VArr _ | VStr _ => Ret (has_key k (own_properties v) || String.eqb k "length")
  | _ => Ret (has_key k (own_properties v))
  end.

(** [o[k] = x] on an object: an existing key keeps its place. *)
Fixpoint set_prop (k : string) (x : value) (fs : list (string * value))
    : list (string * value) :=
  match fs with
  | [] => [(k, x)]
  | (k', y) :: fs' =>
      if String.eqb k k' then (k, x) :: fs' else (k', y) :: set_prop k x fs'
  end.

(** [Object.assign(target, ...sources)] *)
Definition Object_assign (target : list (string * value)) (sources : list value)
    : list (string * value) :=
  fold_left
    (fun t src => fold_left (fun t kv => set_prop kv.1 kv.2 t) (own_properties src) t)
    sources target.

(** [Array.prototype.indexOf] on an array of strings. *)
Fixpoint indexOf (k : string) (l : list string) : option nat :=
  match l with
  | [] => None
  | x :: l' => if String.eqb k x then Some 0
               else match indexOf k l' with
                    | Some i => Some (S i)
                    | None => None
                    end
  end.

(** [l.splice(i, 1)] *)
Definition remove_at {A} (i : nat) (l : list A) : list A :=
  take i l ++ drop (S i) l.

(** [l.join(sep)] on an array of strings. *)
Fixpoint join (sep : string) (l : list string) : string :=
  match l with
  | [] => ""
  | [x] => x
  | x :: l' => x +:+ sep +:+ join sep l'
  end.

(** [' '.repeat(n)] *)
Fixpoint spaces (n : nat) : string :=
  match n with
  | 0 => ""
  | S n' => " " +:+ spaces n'
  end.

(** [s.substr(i)] and [s.substr(0, n)] *)
Definition substr_from (i : nat) (s : string) : string :=
  String.substring i (String.length s - i) s.
Definition substr_to (n : nat) (s : string) : string :=
  String.substring 0 n s.

End Js.

(* ===================================================================== *)
(** ** bin-2/validate.js *)
(* ===================================================================== *)

Module Validate.
Import Js.

(** *** Data *)

(** Schema nodes are objects of a (possibly cyclic) document graph. A node
    is referred to by its identity; [heap] below gives its content. *)
Definition sid := nat.

Inductive additional :=
| AddlAbsent
| AddlBool (b : bool)
| AddlSchema (s : sid).

Record schema := {
  type_ : option string;
  format : option string;
  anyOf : option (list sid);
  oneOf : option (list sid);
  allOf : option (list sid);
  not_ : option sid;
  items : option sid;
  properties : option (list (string * sid));
  additionalProperties : additional;
  required : option (list string);
  enum : option (list value);
  discriminator : option value;
  maxItems : option value;
  minItems : option value;
  uniqueItems : option value;
  maximum : option value;
  minimum : option value;
  exclusiveMaximum : option value;
  exclusiveMinimum : option value;
  multipleOf : option value;
  maxLength : option value;
  minLength : option value;
  pattern : option string;
  maxProperties : option value;
  minProperties : option value
}.

(** The schema [{}]. *)
Definition empty_schema : schema :=
  {| type_ := None; format := None; anyOf := None; oneOf := None;
     allOf := None; not_ := None; items := None; properties := None;
     additionalProperties := AddlAbsent; required := None; enum := None;
     discriminator := None; maxItems := None; minItems := None;
     uniqueItems := None; maximum := None; minimum := None;
     exclusiveMaximum := None; exclusiveMinimum := None; multipleOf := None;
     maxLength := None; minLength := None; pattern := None;
     maxProperties := None; minProperties := None |}.

(** The document: node [i] is the [i]-th entry. An identity outside the
    document stands for an object without any keyword. *)
Abbreviation heap := (list schema).

Definition node (hp : heap) (s : sid) : schema :=
  match hp !! s with
  | Some n => n
  | None => empty_schema
  end.

(** [v.options] *)
Record options := {
  o_anyOf : bool;  o_oneOf : bool;  o_allOf : bool;  o_not : bool;
  o_array : bool;  o_maxItems : bool;  o_minItems : bool;
  o_uniqueItems : bool;  o_items : bool;  o_depth : nat;
  o_binary : bool;  o_boolean : bool;  o_byte : bool;  o_date : bool;
  o_dateTime : bool;  o_integer : bool;  o_number : bool;  o_object : bool;
  o_required : bool;  o_properties : bool;  o_additionalProperties : bool;
  o_string : bool;  o_maxLength : bool;  o_minLength : bool;
  o_pattern : bool;  o_timeExists : bool;  o_dateExists : bool;
  o_enum : bool;  o_discriminator : bool;
  o_maximum : bool;  o_minimum : bool;
  o_maxProperties : bool;  o_minProperties : bool
}.

(** Modelled from the spec: an error record is a pair of the path of the
    offending location and a message (the constructor of [v], which builds
    the records, is not among the sources). *)
Record error := mkError { path : string; message : string }.

(** What validate.js requires from [./is], [./rx], [./util], from the
    version-specific functions in [v.version] and from the host language.
    The sources of these are not at hand; the validator is parametric in
    them. *)
Record host := {
  schemaType : schema -> option string;           (* util.schemaType *)
  smart : value -> string;                        (* util.smart *)
  same : value -> value -> bool;                  (* util.same *)
  is_binary : string -> bool;                     (* is.binary *)
  is_byte : string -> bool;                       (* is.byte *)
  is_date : string -> bool;                       (* is.date *)
  is_dateTime : string -> bool;                   (* is.dateTime *)
  rx_dateTime_exec : string -> option (list value); (* rx.dateTime.exec *)
  getDiscriminatorSchema : schema -> value -> option sid;
  getDiscriminatorKey : schema -> value -> value;
  to_string : value -> string;                    (* string conversion in [+] *)
  to_number : value -> number;                    (* numeric conversion *)
  error_text : error -> string;                   (* a record inside [join] *)
  RegExp_test : string -> string -> option bool;  (* None: pattern rejected *)
  Date_new : value -> number;                     (* time value of [new Date(x)] *)
  getUTCFullYear : number -> number;
  getUTCMonth : number -> number;
  getUTCDate : number -> number
}.

(** *** The validation context as a state and error monad

    The state is the array held in [v.errors]. *)
Definition M (A : Type) := list error -> res (A * list error).

Definition ret {A} (a : A) : M A := fun errs => Ret (a, errs).

Definition bind {A B} (m : M A) (k : A -> M B) : M B :=
  fun errs =>
    match m errs with
    | Ret (a, errs') => k a errs'
    | Throw e => Throw e
    | StackOverflow => StackOverflow
    end.

Definition throw {A} (e : exn) : M A := fun _ => Throw e.
Definition overflow {A} : M A := fun _ => StackOverflow.
Definition get_errors : M (list error) := fun errs => Ret (errs, errs).
Definition set_errors (e : list error) : M unit := fun _ => Ret (tt, e).

Notation "x <- m ;; k" := (bind m (fun x => k))
  (at level 100, m at next level, right associativity).
Notation "m ;;; k" := (bind m (fun _ => k))
  (at level 100, right associativity).

Definition when (b : bool) (m : M unit) : M unit :=
  if b then m else ret tt.

(** [l.forEach(f)] with the index. *)
Fixpoint forEach_from {A} (i : nat) (f : A -> nat -> M unit) (l : list A) : M unit :=
  match l with
  | [] => ret tt
  | x :: l' => f x i ;;; forEach_from (S i) f l'
  end.
Definition forEach {A} (f : A -> nat -> M unit) (l : list A) : M unit :=
  forEach_from 0 f l.

(** Modelled from the spec: [v.error(prefix, message)] appends the record
    to the array currently held in [v.errors]. *)
Definition v_error (prefix msg : string) : M unit :=
  fun errs => Ret (tt, errs ++ [mkError prefix msg]).

Section Checkers.

Variable h : host.
Variable opts : options.
Variable hp : heap.

Definition num_of (v : value) : number :=
  match v with
  | VNum n => n
  | VDate t => t
  | _ => to_number h v
  end.

Definition show_opt (o : option value) : string :=
  match o with
  | Some v => to_string h v
  | None => "undefined"
  end.

(** [function _enum(v, prefix, schema, value)] *)
Definition _enum (prefix : string) (schema : schema) (value : value) : M unit :=
  match enum schema with
  | Some en =>
      when (o_enum opts)
        (let found := existsb (fun e => same h value e) en in
         when (negb found)
           (v_error prefix ("Value did not meet enum requirements: " +:+ smart h value)))
  | None => ret tt
  end.

(** [function maxMin(v, prefix, schema, type, maxProperty, minProperty,
    exclusives, value, maximum, minimum)]. [omax]/[omin] are
    [v.options[maxProperty]]/[v.options[minProperty]], [smax]/[smin] are
    [schema[maxProperty]]/[schema[minProperty]] ([None] when the schema
    does not own the property). *)
Definition maxMin (prefix : string) (schema : schema) (type : string)
    (omax omin : bool) (smax smin : option value)
    (exclusives : bool) (value : value) (maximum minimum : number) : M unit :=
  when (omax && bool_decide (is_Some smax))
    (if exclusives && truthy_opt (exclusiveMaximum schema)
        && num_ge (num_of value) maximum
     then v_error prefix ("Expected " +:+ type +:+ " to be less than "
            +:+ show_opt smax +:+ ". Received: " +:+ smart h value)
     else when (num_gt (num_of value) maximum)
            (v_error prefix ("Expected " +:+ type +:+ " to be less than or equal to "
               +:+ show_opt smax +:+ ". Received: " +:+ smart h value))) ;;;
  when (omin && bool_decide (is_Some smin))
    (if exclusives && truthy_opt (exclusiveMinimum schema)
        && num_le (num_of value) minimum
     then v_error prefix ("Expected " +:+ type +:+ " to be greater than "
            +:+ show_opt smin +:+ ". Received: " +:+ smart h value)
     else when (num_lt (num_of value) minimum)
            (v_error prefix ("Expected " +:+ type +:+ " to be greater than or equal to "
               +:+ show_opt smin +:+ ". Received: " +:+ smart h value))).

Definition bound (o : option value) : number :=
  match o with
  | Some v => num_of v
  | None => NaN
  end.

(** [function numerical(descriptor, v, prefix, schema, value)] *)
Definition numerical (descriptor prefix : string) (schema : schema) (value : value) : M unit :=
  maxMin prefix schema descriptor (o_maximum opts) (o_minimum opts)
    (maximum schema) (minimum schema) true value
    (bound (maximum schema)) (bound (minimum schema)) ;;;
  when (truthy_opt (multipleOf schema)
        && negb (num_eq (num_rem (num_of value) (bound (multipleOf schema))) (Num 0)))
    (v_error prefix ("Expected a multiple of " +:+ show_opt (multipleOf schema)
       +:+ ". Received: " +:+ smart h value)) ;;;
  _enum prefix schema value.

(** [validate.string] *)
Definition member_length (value : value) : M Js.value :=
  match value with
  | VUndefined | VNull =>
      throw (TypeError "Cannot read property 'length' of null or undefined")
  | VStr s => ret (of_nat (String.length s))
  | VArr l => ret (of_nat (length l))
  | _ => ret VUndefined
  end.

Definition validate_string (prefix : string) (depth : nat) (schema : schema)
    (value : value) : M unit :=
  if negb (o_string opts) then ret tt else
  length <- member_length value ;;
  if negb (String.eqb (typeof value) "string") then
    v_error prefix ("Expected a string. Received: " +:+ smart h value)
  else
    when (o_maxLength opts && bool_decide (is_Some (maxLength schema))
          && num_gt (num_of length) (bound (maxLength schema)))
      (v_error prefix ("String length above maximum length of "
         +:+ show_opt (maxLength schema) +:+ " with length of "
         +:+ to_string h length +:+ ": " +:+ smart h value)) ;;;
    when (o_minLength opts && bool_decide (is_Some (minLength schema))
          && num_lt (num_of length) (bound (minLength schema)))
      (v_error prefix ("String length below minimum length of "
         +:+ show_opt (minLength schema) +:+ " with length of "
         +:+ to_string h length +:+ ": " +:+ smart h value)) ;;;
    match (if o_pattern opts then pattern schema else None) with
    | Some pat =>
        match RegExp_test h pat (match value with VStr s => s | _ => to_string h value end) with
        | None => throw (SyntaxError "Invalid regular expression")
        | Some true => ret tt
        | Some false =>
            v_error prefix ("String does not match required pattern " +:+ pat
              +:+ " with value: " +:+ smart h value)
        end
    | None => ret tt
    end ;;;
    _enum prefix schema value.

(** [validate.binary] *)
Definition validate_binary (prefix : string) (depth : nat) (schema : schema)
    (value : value) : M unit :=
  if negb (o_binary opts) then ret tt else
  match value with
  | VStr s =>
      when (negb (is_binary h s))
        (v_error prefix ("Expected a binary string. Received: " +:+ smart h value)) ;;;
      validate_string prefix depth schema value
  | _ => v_error prefix ("Expected a string. Received: " +:+ smart h value)
  end.

(** [validate.boolean] *)
Definition validate_boolean (prefix : string) (depth : nat) (schema : schema)
    (value : value) : M unit :=
  if negb (o_boolean opts) then ret tt else
  if negb (String.eqb (typeof value) "boolean") then
    v_error prefix ("Expected a boolean. Received: " +:+ smart h value)
  else _enum prefix schema value.

(** [validate.byte] *)
Definition validate_byte (prefix : string) (depth : nat) (schema : schema)
    (value : value) : M unit :=
  if negb (o_byte opts) then ret tt else
  match value with
  | VStr s =>
      when (negb (is_byte h s))
        (v_error prefix ("Expected a base64 string. Received: " +:+ smart h value)) ;;;
      validate_string prefix depth schema value
  | _ => v_error prefix ("Expected a string. Received: " +:+ smart h value)
  end.

(** [function date(descriptor, v, prefix, schema, value)] *)
Definition date (descriptor prefix : string) (schema : schema) (value : string) : M unit :=
  let suffix := if String.eqb descriptor "date-time" then "" else "T00:00:00.000Z" in
  match rx_dateTime_exec h (value +:+ suffix) with
  | None => throw (TypeError "Cannot read property '1' of null")
  | Some match_ =>
      let dt := Date_new h (VStr value) in
      let group i := num_of (nth i match_ VUndefined) in
      let year := group 1 in
      let month := num_sub (group 2) (Num 1) in
      let day := group 3 in
      let hour := group 4 in
      let minute := group 5 in
      let second := group 6 in
      when (o_timeExists opts
            && (num_ge hour (Num 24) || num_ge minute (Num 60) || num_ge second (Num 60)))
        (v_error prefix ("The specified time is invalid: " +:+ substr_from 11 value)) ;;;
      when (o_dateExists opts
            && (negb (num_eq year (getUTCFullYear h dt))
                || negb (num_eq month (getUTCMonth h dt))
                || negb (num_eq day (getUTCDate h dt))))
        (v_error prefix ("The specified date does not exist: " +:+ substr_to 10 value)) ;;;
      maxMin prefix schema descriptor (o_maximum opts) (o_minimum opts)
        (maximum schema) (minimum schema) false (VDate dt)
        (Date_new h (default VUndefined (maximum schema)))
        (Date_new h (default VUndefined (minimum schema)))
  end.

(** [validate.date] *)
Definition validate_date (prefix : string) (depth : nat) (schema : schema)
    (value : value) : M unit :=
  if negb (o_date opts) then ret tt else
  match value with
  | VStr s =>
      if is_date h s then
        date "date" prefix schema s ;;;
        validate_string prefix depth schema value
      else v_error prefix ("Expected a full-date string as described by RFC3339 at https://xml2rfc.tools.ietf.org/public/rfc/html/rfc3339.html#anchor14. Received: " +:+ smart h value)
  | _ => v_error prefix ("Expected a full-date string as described by RFC3339 at https://xml2rfc.tools.ietf.org/public/rfc/html/rfc3339.html#anchor14. Received: " +:+ smart h value)
  end.

(** [validate.dateTime], also reachable as [validate['date-time']] *)
Definition validate_dateTime (prefix : string) (depth : nat) (schema : schema)
    (value : value) : M unit :=
  if negb (o_dateTime opts) then ret tt else
  match value with
  | VStr s =>
      if is_dateTime h s then
        when (is_dateTime h s)
          (date "date-time" prefix schema s ;;;
           validate_string prefix depth schema value)
      else v_error prefix ("Expected a date-time as described by RFC3339 at https://xml2rfc.tools.ietf.org/public/rfc/html/rfc3339.html#anchor14. Received: " +:+ smart h value)
  | _ => v_error prefix ("Expected a date-time as described by RFC3339 at https://xml2rfc.tools.ietf.org/public/rfc/html/rfc3339.html#anchor14. Received: " +:+ smart h value)
  end.

(** [validate.integer] *)
Definition validate_integer (prefix : string) (depth : nat) (schema : schema)
    (value : value) : M unit :=
  if negb (o_integer opts) then ret tt else
  if is_nan (num_of value)
     || negb (strict_eq_num (Math_round (num_of value)) value)
     || negb (String.eqb (typeof value) "number")
  then v_error prefix ("Expected an integer. Received: " +:+ smart h value)
  else numerical "integer" prefix schema value.

(** [validate.number] *)
Definition validate_number (prefix : string) (depth : nat) (schema : schema)
    (value : value) : M unit :=
  if negb (o_number opts) then ret tt else
  if is_nan (num_of value) || negb (String.eqb (typeof value) "number")
  then v_error prefix ("Expected a number. Received: " +:+ smart h value)
  else numerical "number" prefix schema value.

(** *** Discriminator resolver

    [function discriminate(v, map, allOf, prefix, schema, value)]. The
    [Map] and the array [allOf] are shared by all the calls of one
    resolution; they are threaded as [dstate]. A call returns either the
    value found in the map ([exists]) or the shared array. The first
    argument bounds the depth of the call stack. *)
Record dstate := { d_map : gmap sid bool; d_allOf : list sid }.

Inductive dret :=
| DExists (e : bool)
| DAllOf.

(** Truthiness of the result of [map.get]: the map only ever holds [true],
    and a missing key gives [undefined]. *)
Definition truthy_entry (o : option bool) : bool :=
  match o with
  | Some b => b
  | None => false
  end.

(** The state of a resolution that starts: [new Map()] and [[]]. *)
Definition fresh_state : dstate := {| d_map := ∅; d_allOf := [] |}.

(** [map.set(schema, true)] and [allOf.push(schema)] *)
Definition enter (st : dstate) (s : sid) : dstate :=
  {| d_map := <[s := true]> (d_map st); d_allOf := d_allOf st |}.

Definition push (st : dstate) (s : sid) : dstate :=
  {| d_map := d_map st; d_allOf := d_allOf st ++ [s] |}.

(** [schema.allOf.forEach(schema => discriminate(...))]: the value that a
    call returns is dropped, its effect on the shared state is kept. *)
Fixpoint eachMember (call : dstate -> sid -> M (dret * dstate))
    (members : list sid) (st : dstate) : M dstate :=
  match members with
  | [] => ret st
  | x :: rest =>
      r <- call st x ;;
      eachMember call rest r.2
  end.

Fixpoint discriminate (stack : nat) (st : dstate) (prefix : string) (s : sid)
    (value : value) : M (dret * dstate) :=
  match stack with
  | 0 => overflow
  | S stack' =>
      let exists_ := d_map st !! s in
      if truthy_entry exists_ then ret (DExists true, st)
      else
        let st1 := enter st s in
        let schema := node hp s in
        match (if o_allOf opts then allOf schema else None) with
        | Some members =>
            st2 <- eachMember
                     (fun st x => discriminate stack' st prefix x value)
                     members st1 ;;
            ret (DAllOf, st2)
        | None =>
            let st2 := push st1 s in
            if o_discriminator opts && truthy_opt (discriminator schema) then
              match getDiscriminatorSchema h schema value with
              | Some d =>
                  r <- discriminate stack' st2 prefix d value ;;
                  ret (DAllOf, r.2)
              | None =>
                  let key := getDiscriminatorKey h schema value in
                  v_error prefix ("Undefined discriminator schema: " +:+ to_string h key) ;;;
                  ret (DAllOf, st2)
              end
            else ret (DAllOf, st2)
        end
  end.

(** *** Checkers that descend

    [validate] calls them and they call [validate]; they are written
    against the recursive occurrence, which [validate] below supplies. *)
Section Descent.

Variable validate : string -> nat -> sid -> value -> M unit.
Variable stack : nat.

(** The [uniqueItems] scan of [validate.array]. *)
Fixpoint uniqueScan (prefix : string) (singles : list value) (index : nat)
    (l : list value) : M unit :=
  match l with
  | [] => ret tt
  | item :: l' =>
      if existsb (fun single => same h item single) singles then
        v_error prefix ("Array values must be unique. Value is not unique at index "
          +:+ string_of_nat index +:+ ": " +:+ to_string h item) ;;;
        uniqueScan prefix singles (S index) l'
      else uniqueScan prefix (singles ++ [item]) (S index) l'
  end.

(** [validate.array] *)
Definition validate_array (prefix : string) (depth : nat) (schema : schema)
    (value : value) : M unit :=
  if negb (o_array opts) then ret tt else
  match value with
  | VArr l =>
      let length := length l in
      when (o_maxItems opts && bool_decide (is_Some (maxItems schema))
            && num_lt (bound (maxItems schema)) (num_of_nat length))
        (v_error prefix ("Array length above maximum length of "
           +:+ show_opt (maxItems schema) +:+ " with " +:+ string_of_nat length
           +:+ " items.")) ;;;
      when (o_minItems opts && bool_decide (is_Some (minItems schema))
            && num_gt (bound (minItems schema)) (num_of_nat length))
        (v_error prefix ("Array length below minimum length of "
           +:+ show_opt (minItems schema) +:+ " with " +:+ string_of_nat length
           +:+ " items.")) ;;;
      when (o_uniqueItems opts && truthy_opt (uniqueItems schema))
        (uniqueScan prefix [] 0 l) ;;;
      match (if o_items opts then items schema else None) with
      | Some it =>
          when (bool_decide (depth < o_depth opts))
            (let depth1 := depth + 1 in
             forEach (fun val index =>
                        validate (prefix +:+ "/" +:+ string_of_nat index) depth1 it val) l)
      | None => ret tt
      end ;;;
      _enum prefix schema value
  | _ => v_error prefix ("Expected an array. Received: " +:+ smart h value)
  end.

(** The loop over the keys of the value in [validate.object]; [required]
    is the local copy of [schema.required] from which the keys found are
    spliced. *)
Fixpoint eachKey (prefix : string) (depth : nat) (schema : schema)
    (properties : list (string * sid)) (value : value)
    (required : list string) (keys : list string) : M (list string) :=
  match keys with
  | [] => ret required
  | key :: keys' =>
      let required1 := match indexOf key required with
                       | Some index => remove_at index required
                       | None => required
                       end in
      let depth1 := depth + 1 in
      when (bool_decide (depth < o_depth opts))
        (match assoc key properties with
         | Some sub =>
             when (o_properties opts)
               (validate (prefix +:+ "/" +:+ key) depth1 sub (get value key))
         | None =>
             when (o_additionalProperties opts)
               (match additionalProperties schema with
                | AddlBool false => v_error (prefix +:+ "/" +:+ key) "Property not allowed"
                | AddlSchema a =>
                    validate (prefix +:+ "/" +:+ key) depth1 a (get value key)
                | _ => ret tt
                end)
         end) ;;;
      eachKey prefix depth schema properties value required1 keys'
  end.

(** The callback applied to each schema returned by [discriminate]. *)
Definition eachSchema (prefix : string) (depth : nat) (value : value)
    (s : sid) : M unit :=
  let schema := node hp s in
  let properties := default [] (properties schema) in
  let required := match (if o_required opts then required schema else None) with
                  | Some r => r
                  | None => []
                  end in
  let keys := Object_keys value in
  required' <- eachKey prefix depth schema properties value required keys ;;
  when (o_required opts && bool_decide (0 < length required'))
    (v_error prefix ("One or more required properties missing: "
       +:+ join ", " required')) ;;;
  maxMin prefix schema "object property count"
    (o_maxProperties opts) (o_minProperties opts)
    (maxProperties schema) (minProperties schema) false (of_nat (length keys))
    (bound (maxProperties schema)) (bound (minProperties schema)) ;;;
  _enum prefix schema value.

(** [validate.object] *)
Definition validate_object (prefix : string) (depth : nat) (s : sid)
    (value : value) : M unit :=
  if negb (o_object opts) then ret tt else
  if negb (truthy value) || negb (String.eqb (typeof value) "object") then
    v_error prefix ("Expected a non-null object. Received: " +:+ smart h value)
  else
    r <- discriminate stack fresh_state prefix s value ;;
    match r.1 with
    | DAllOf => forEach (fun schema _ => eachSchema prefix depth value schema) (d_allOf r.2)
    | DExists _ => throw (TypeError "discriminate(...).forEach is not a function")
    end.

(** [function anyOf(v, prefix, depth, schemas, value)] *)
Record anyOfResult := {
  r_errors : list string;
  r_messages : list string;
  r_valid : nat
}.

Fixpoint anyOfLoop (prefix : string) (depth : nat) (value : value) (i : nat)
    (schemas : list sid) (acc : anyOfResult) : M anyOfResult :=
  match schemas with
  | [] => ret acc
  | schema :: rest =>
      set_errors [] ;;;
      validate (prefix +:+ "  ") depth schema value ;;;
      errs <- get_errors ;;
      let acc' :=
        if bool_decide (length errs = 0) then
          {| r_errors := r_errors acc;
             r_messages := r_messages acc
               ++ [prefix +:+ "Schema #" +:+ string_of_nat (i + 1) +:+ ": Valid"];
             r_valid := r_valid acc + 1 |}
        else
          let logStr := prefix +:+ "Schema #" +:+ string_of_nat (i + 1)
                        +:+ ": Invalid" +:+ nl +:+ join nl (error_text h <$> errs) in
          {| r_errors := r_errors acc ++ [logStr];
             r_messages := r_messages acc ++ [logStr];
             r_valid := r_valid acc |} in
      anyOfLoop prefix depth value (S i) rest acc'
  end.

Definition anyOf_ (prefix : string) (depth : nat) (schemas : list sid)
    (value : value) : M anyOfResult :=
  errorsRef <- get_errors ;;
  result <- anyOfLoop prefix depth value 0 schemas
              {| r_errors := []; r_messages := []; r_valid := 0 |} ;;
  set_errors errorsRef ;;;
  ret result.

(** What [anyOf] reports, as a function of what each branch yields. *)

Definition is_nil {A} (l : list A) : bool :=
  match l with [] => true | _ => false end.

(** The text that [anyOf] records for a failing branch. *)
Definition logStr (prefix : string) (i : nat) (errs : list error) : string :=
  prefix +:+ "Schema #" +:+ string_of_nat (i + 1) +:+ ": Invalid" +:+ nl
  +:+ join nl (error_text h <$> errs).

(** What the loop of [anyOf] computes from the verdicts of the branches. *)
Fixpoint tally (prefix : string) (i : nat) (results : list (list error))
    (acc : anyOfResult) : anyOfResult :=
  match results with
  | [] => acc
  | errs :: rest =>
      tally prefix (S i) rest
        (if is_nil errs then
           {| r_errors := r_errors acc;
              r_messages := r_messages acc
                ++ [prefix +:+ "Schema #" +:+ string_of_nat (i + 1) +:+ ": Valid"];
              r_valid := r_valid acc + 1 |}
         else
           {| r_errors := r_errors acc ++ [logStr prefix i errs];
              r_messages := r_messages acc ++ [logStr prefix i errs];
              r_valid := r_valid acc |})
  end.

(** The texts of the failing branches, in order. *)
Fixpoint failing_texts (prefix : string) (i : nat) (results : list (list error))
    : list string :=
  match results with
  | [] => []
  | errs :: rest =>
      (if is_nil errs then [] else [logStr prefix i errs])
      ++ failing_texts prefix (S i) rest
  end.

(** [function nestedPrefix(prefix)] *)
Definition nestedPrefix (prefix : string) : string :=
  let indentLength := leading_spaces prefix in
  spaces (indentLength + 2).

(** [function not(v, prefix, depth, schema, value)] *)
Definition not (prefix : string) (depth : nat) (schema : sid) (value : value) : M unit :=
  errors <- get_errors ;;
  set_errors [] ;;;
  validate prefix depth schema value ;;;
  inner <- get_errors ;;
  let noErrors := bool_decide (length inner = 0) in
  set_errors errors ;;;
  when noErrors (v_error prefix "Should not pass schema.").

(** The body of [function validate(v, prefix, depth, schema, value)].
    [v.error] is a function; it has no [push], so the call
    [v.error.push(...)] of the [oneOf] branch is a call of [undefined]. *)
Definition validate_body (prefix : string) (depth : nat) (s : sid)
    (value : value) : M unit :=
  let schema := node hp s in
  match (if o_anyOf opts then anyOf schema else None) with
  | Some branches =>
      result <- anyOf_ (nestedPrefix prefix) depth branches value ;;
      when (bool_decide (r_valid result = 0))
        (v_error prefix ("Did not match any of the schemas:" +:+ nl
           +:+ join nl (r_errors result)))
  | None =>
  match (if o_oneOf opts then oneOf schema else None) with
  | Some branches =>
      result <- anyOf_ (nestedPrefix prefix) depth branches value ;;
      when (negb (bool_decide (r_valid result = 1)))
        (throw (TypeError "v.error.push is not a function"))
  | None =>
  match (if o_allOf opts then allOf schema else None) with
  | Some members =>
      forEach (fun schema _ => validate prefix depth schema value) members
  | None =>
  match (if o_not opts then not_ schema else None) with
  | Some n => not prefix depth n value
  | None =>
      let type := schemaType h schema in
      match type with
      | Some "array" => validate_array prefix depth schema value
      | Some "boolean" => validate_boolean prefix depth schema value
      | Some "integer" => validate_integer prefix depth schema value
      | Some "number" => validate_number prefix depth schema value
      | Some "object" => validate_object prefix depth s value
      | Some "string" =>
          match format schema with
          | Some "binary" => validate_binary prefix depth schema value
          | Some "byte" => validate_byte prefix depth schema value
          | Some "date" => validate_date prefix depth schema value
          | Some "date-time" => validate_dateTime prefix depth schema value
          | Some "" | None => validate_string prefix depth schema value
          | Some _ => ret tt
          end
      | _ => ret tt
      end
  end end end end.

End Descent.

(** [validate], with a bound on the depth of the call stack. *)
Fixpoint validate (stack : nat) (prefix : string) (depth : nat) (s : sid)
    (value : value) : M unit :=
  match stack with
  | 0 => overflow
  | S stack' => validate_body (validate stack') stack' prefix depth s value
  end.

End Checkers.

(** *** A concrete host

    Closed examples need the collaborators of validate.js to be functions.
    The ones below follow what the specification says about them; dates
    and patterns, which no example uses, are answered conservatively. *)
Module Host.

Definition show_number (n : number) : string :=
  match n with
  | NaN => "NaN"
  | Num q =>
      let r := Qred q in
      let num := match Qnum r with
                 | Z0 => "0"
                 | Zpos p => string_of_nat (Pos.to_nat p)
                 | Zneg p => "-" +:+ string_of_nat (Pos.to_nat p)
                 end in
      match Qden r with
      | xH => num
      | d => num +:+ "/" +:+ string_of_nat (Pos.to_nat d)
      end
  end.

Definition quote : string := String (Ascii.ascii_of_nat 34) EmptyString.

(** String conversion, as in [String(v)]. *)
Fixpoint show (v : value) : string :=
  match v with
  | VUndefined => "undefined"
  | VNull => "null"
  | VBool true => "true"
  | VBool false => "false"
  | VNum n => show_number n
  | VStr s => s
  | VDate t => "Date(" +:+ show_number t +:+ ")"
  | VArr l => join "," ((fix each (l : list value) : list string :=
                           match l with
                           | [] => []
                           | x :: l' => show x :: each l'
                           end) l)
  | VObj _ => "[object Object]"
  end.

(** Modelled from the spec: [util.smart] renders a value inside a message;
    strings are quoted, everything else is converted to a string. *)
Definition smart (v : value) : string :=
  match v with
  | VStr s => quote +:+ s +:+ quote
  | _ => show v
  end.

(** Modelled from the spec: [util.same] is a deep structural equality that
    treats NaN as equal to NaN, compares objects key by key and arrays
    element by element. *)
Fixpoint same (a b : value) {struct a} : bool :=
  match a, b with
  | VUndefined, VUndefined => true
  | VNull, VNull => true
  | VBool x, VBool y => Bool.eqb x y
  | VNum NaN, VNum NaN => true
  | VNum x, VNum y => num_eq x y
  | VStr x, VStr y => String.eqb x y
  | VDate NaN, VDate NaN => true
  | VDate x, VDate y => num_eq x y
  | VArr xs, VArr ys =>
      (fix each (xs ys : list value) : bool :=
         match xs, ys with
         | [], [] => true
         | x :: xs', y :: ys' => same x y && each xs' ys'
         | _, _ => false
         end) xs ys
  | VObj fa, VObj fb =>
      Nat.eqb (length fa) (length fb)
      && (fix each (fa : list (string * value)) : bool :=
            match fa with
            | [] => true
            | (k, x) :: fa' =>
                match assoc k fb with
                | Some y => same x y
                | None => false
                end && each fa'
            end) fa
  | _, _ => false
  end.

(** Modelled from the spec: [util.schemaType] gives the declared type and
    infers one from the keywords when none is declared. *)
Definition schemaType (s : schema) : option string :=
  match type_ s with
  | Some t => Some t
  | None =>
      if bool_decide (is_Some (items s)) then Some "array"
      else if bool_decide (is_Some (properties s))
              || bool_decide (is_Some (allOf s))
              || match additionalProperties s with
                 | AddlAbsent => false
                 | _ => true
                 end
      then Some "object"
      else None
  end.

Definition to_number (v : value) : number :=
  match v with
  | VNum n => n
  | VDate t => t
  | VNull => Num 0
  | VBool true => Num 1
  | VBool false => Num 0
  | VStr "" => Num 0
  | _ => NaN
  end.

(** Modelled from the spec: the discriminator property names a key of the
    instance, whose value is looked up in the shared definitions map. *)
Definition discriminatorKey (s : schema) (v : value) : value :=
  match discriminator s with
  | Some (VObj d) =>
      match assoc "propertyName" d with
      | Some (VStr p) => get v p
      | _ => VUndefined
      end
  | _ => VUndefined
  end.

Definition discriminatorSchema (definitions : list (string * sid))
    (s : schema) (v : value) : option sid :=
  match discriminatorKey s v with
  | VStr name => assoc name definitions
  | _ => None
  end.

Definition make (definitions : list (string * sid)) : host :=
  {| Validate.schemaType := schemaType;
     Validate.smart := smart;
     Validate.same := same;
     is_binary := fun _ => false;
     is_byte := fun _ => false;
     is_date := fun _ => false;
     is_dateTime := fun _ => false;
     rx_dateTime_exec := fun _ => None;
     getDiscriminatorSchema := discriminatorSchema definitions;
     getDiscriminatorKey := discriminatorKey;
     to_string := show;
     Validate.to_number := to_number;
     error_text := fun e => path e +:+ ": " +:+ message e;
     RegExp_test := fun _ _ => None;
     Date_new := fun _ => NaN;
     getUTCFullYear := fun _ => NaN;
     getUTCMonth := fun _ => NaN;
     getUTCDate := fun _ => NaN |}.

End Host.

(** The defaults of [validate.*] in bin-2/v2/swagger.js, with the
    combinator rules switched on and a depth limit. *)
Definition all_rules (depth : nat) : options :=
  {| o_anyOf := true; o_oneOf := true; o_allOf := true; o_not := true;
     o_array := true; o_maxItems := true; o_minItems := true;
     o_uniqueItems := true; o_items := true; o_depth := depth;
     o_binary := true; o_boolean := true; o_byte := true; o_date := true;
     o_dateTime := true; o_integer := true; o_number := true;
     o_object := true; o_required := true; o_properties := true;
     o_additionalProperties := true; o_string := true; o_maxLength := true;
     o_minLength := true; o_pattern := true; o_timeExists := true;
     o_dateExists := true; o_enum := true; o_discriminator := true;
     o_maximum := true; o_minimum := true; o_maxProperties := true;
     o_minProperties := true |}.

(** Schema literals. *)
Definition typed (t : string) : schema :=
  {| type_ := Some t; format := None; anyOf := None; oneOf := None;
     allOf := None; not_ := None; items := None; properties := None;
     additionalProperties := AddlAbsent; required := None; enum := None;
     discriminator := None; maxItems := None; minItems := None;
     uniqueItems := None; maximum := None; minimum := None;
     exclusiveMaximum := None; exclusiveMinimum := None; multipleOf := None;
     maxLength := None; minLength := None; pattern := None;
     maxProperties := None; minProperties := None |}.

Definition with_oneOf (l : list sid) : schema :=
  {| type_ := None; format := None; anyOf := None; oneOf := Some l;
     allOf := None; not_ := None; items := None; properties := None;
     additionalProperties := AddlAbsent; required := None; enum := None;
     discriminator := None; maxItems := None; minItems := None;
     uniqueItems := None; maximum := None; minimum := None;
     exclusiveMaximum := None; exclusiveMinimum := None; multipleOf := None;
     maxLength := None; minLength := None; pattern := None;
     maxProperties := None; minProperties := None |}.

Definition with_anyOf (l : list sid) : schema :=
  {| type_ := None; format := None; anyOf := Some l; oneOf := None;
     allOf := None; not_ := None; items := None; properties := None;
     additionalProperties := AddlAbsent; required := None; enum := None;
     discriminator := None; maxItems := None; minItems := None;
     uniqueItems := None; maximum := None; minimum := None;
     exclusiveMaximum := None; exclusiveMinimum := None; multipleOf := None;
     maxLength := None; minLength := None; pattern := None;
     maxProperties := None; minProperties := None |}.

Definition with_allOf (l : list sid) : schema :=
  {| type_ := None; format := None; anyOf := None; oneOf := None;
     allOf := Some l; not_ := None; items := None; properties := None;
     additionalProperties := AddlAbsent; required := None; enum := None;
     discriminator := None; maxItems := None; minItems := None;
     uniqueItems := None; maximum := None; minimum := None;
     exclusiveMaximum := None; exclusiveMinimum := None; multipleOf := None;
     maxLength := None; minLength := None; pattern := None;
     maxProperties := None; minProperties := None |}.

End Validate.

(* ===================================================================== *)
(** ** bin/apply-template.js *)
(* ===================================================================== *)

Module ApplyTemplate.
Import Js.

(** *** Data *)

(** A schema of the first generation of the library: [discriminator] is the
    name of a property, and [x-variable], [x-template] and [default] drive
    the materializer. [ident] is the identity of the object, which the code
    compares with [!==]; an object built during a call has none. *)
Inductive schema := Schema {
  ident : option nat;
  type_ : option string;
  format : option string;
  allOf : option (list schema);
  discriminator : option string;
  x_variable : option string;
  x_template : option string;
  default_ : option value;
  items : option schema;
  properties : option (list (string * schema));
  additionalProperties : option schema;
  required : option (list string)
}.

(** [{}] *)
Definition empty_schema : schema :=
  {| ident := None; type_ := None; format := None; allOf := None;
     discriminator := None; x_variable := None; x_template := None;
     default_ := None; items := None; properties := None;
     additionalProperties := None; required := None |}.

(** [options], after the defaults were merged in; [injector] is the
    function selected by [options.replacement]. *)
Record options := {
  autoFormat : bool;
  defaultsUseParams : bool;
  ignoreMissingRequired : bool;
  useDefaults : bool;
  useTemplates : bool;
  useVariables : bool;
  injector : string -> value -> value
}.

(** What apply-template.js requires from [./convert-to], [./copy] and
    [./schema-type], whose sources are not at hand. *)
Record host := {
  convertTo : string -> value -> value;
  copy : value -> value;
  getSchemaType : schema -> option string;
  to_string : value -> string
}.

(** [{ applied: Boolean, value: * }] *)
Record data := { applied : bool; val : value }.

Definition bind {A B} (m : res A) (k : A -> res B) : res B :=
  match m with
  | Ret a => k a
  | Throw e => Throw e
  | StackOverflow => StackOverflow
  end.

Notation "x <- m ;; k" := (bind m (fun x => k))
  (at level 100, m at next level, right associativity).

(** [a !== b] between schema objects. *)
Definition same_object (a b : schema) : bool :=
  match ident a, ident b with
  | Some i, Some j => Nat.eqb i j
  | _, _ => false
  end.

(** The value of the parameter [value]: [undefined] when the call has
    fewer than five arguments. *)
Definition argument (o : option value) : value := default VUndefined o.

Section Materializer.

Variable h : host.
Variable definitions : list (string * schema).
Variable params : value.
Variable options : options.

(** The recursive occurrence of [applyTemplate]; the second argument is
    [None] for a call with four arguments. *)
Variable applyTemplate : schema -> option value -> res data.

Definition property_key (v : value) : string :=
  match v with
  | VStr s => s
  | _ => to_string h v
  end.

Definition truthy_name (o : option string) : bool :=
  match o with
  | Some n => negb (String.eqb n "")
  | None => false
  end.

(** Lines 94 to 109: a schema with a discriminator, met with a value that
    owns the discriminator property, is replaced by the [allOf] of the
    schema that the value names and of a copy of itself without the
    discriminator. *)
Definition discriminated (schema : schema) (value : value) : res ApplyTemplate.schema :=
  if negb (bool_decide (is_Some (allOf schema))) && truthy_name (discriminator schema) then
    owns <- hasOwnProperty value (default "" (discriminator schema)) ;;
    if owns then
      match assoc (property_key (get value (default "" (discriminator schema))))
              definitions with
      | None => Throw (TypeError "Cannot read property 'allOf' of undefined")
      | Some second =>
          let allOf_ :=
            List.filter (fun s => negb (same_object s schema))
              (match allOf second with
               | Some l => l
               | None => [second]
               end) in
          let schemaCopy :=
            {| ident := None; type_ := type_ schema; format := format schema;
               allOf := allOf schema; discriminator := None;
               x_variable := x_variable schema; x_template := x_template schema;
               default_ := default_ schema; items := items schema;
               properties := properties schema;
               additionalProperties := additionalProperties schema;
               required := required schema |} in
          Ret {| ident := None; type_ := Some "object"; format := None;
                 allOf := Some (allOf_ ++ [schemaCopy]); discriminator := None;
                 x_variable := None; x_template := None; default_ := None;
                 items := None; properties := None;
                 additionalProperties := None; required := None |}
      end
    else Ret schema
  else Ret schema.

(** Lines 114 to 125: the loop over the members of [allOf]. *)
Fixpoint eachAllOf (members : list schema) (valueNotProvided : bool) (value : value)
    (applications : list Js.value) : res (list Js.value) :=
  match members with
  | [] => Ret applications
  | schema :: rest =>
      data <- applyTemplate schema
                (Some (if valueNotProvided then VObj [] else value)) ;;
      eachAllOf rest valueNotProvided value
        (if applied data then applications ++ [val data] else applications)
  end.

Definition fromAllOf (members : list schema) (valueNotProvided : bool) (value : value)
    : res data :=
  applications <- eachAllOf members valueNotProvided value [VObj []] ;;
  Ret {| applied := bool_decide (2 < length applications);
         val := match applications with
                | target :: sources =>
                    VObj (Object_assign (own_properties target) sources)
                | [] => VUndefined
                end |}.

(** Lines 127 to 155: a bound variable. [None] when the branch is not
    taken. *)
Definition fromVariable (schema : schema) (type : option string)
    (valueNotProvided : bool) : res (option data) :=
  match (if valueNotProvided && useVariables options then x_variable schema else None) with
  | Some name =>
      owns <- hasOwnProperty params name ;;
      if owns && negb (String.eqb (typeof (get params name)) "undefined") then
        let value := copy h (get params name) in
        let value :=
          if autoFormat options then
            match type with
            | Some "boolean" => convertTo h "boolean" value
            | Some "integer" => convertTo h "integer" value
            | Some "number" => convertTo h "number" value
            | Some "string" =>
                match format schema with
                | Some "binary" => convertTo h "binary" value
                | Some "byte" => convertTo h "byte" value
                | Some "date" => convertTo h "date" value
                | Some "date-time" => convertTo h "dateTime" value
                | _ => convertTo h "string" value
                end
            | _ => value
            end
          else value in
        Ret (Some {| applied := true; val := value |})
      else Ret None
  | None => Ret None
  end.

(** Lines 157 to 166: a template. *)
Definition fromTemplate (schema : schema) (valueNotProvided : bool) : option data :=
  match (if valueNotProvided && useTemplates options then x_template schema else None) with
  | Some template =>
      let value := injector options template params in
      match value with
      | VStr text =>
          if String.eqb text template then None
          else Some {| applied := true; val := value |}
      | _ => Some {| applied := true; val := value |}
      end
  | None => None
  end.

(** Lines 168 to 193: a default. *)
Definition fromDefault (schema : schema) (valueNotProvided : bool) (value : value)
    : res (option data) :=
  match (if valueNotProvided && useDefaults options then default_ schema else None) with
  | Some dflt =>
      if defaultsUseParams options then
        let type := typeof dflt in
        if truthy value && String.eqb type "object" then
          data <- applyTemplate schema (Some dflt) ;;
          Ret (Some data)
        else
          match dflt with
          | VStr text =>
              Ret (Some {| applied := true; val := injector options text params |})
          | _ => Ret (Some {| applied := true; val := copy h dflt |})
          end
      else Ret (Some {| applied := true; val := copy h dflt |})
  | None => Ret None
  end.

(** Lines 195 to 212: an array. *)
Fixpoint eachItem (items : schema) (l : list value) : res (list Js.value * bool) :=
  match l with
  | [] => Ret ([], false)
  | item :: rest =>
      data <- applyTemplate items (Some item) ;;
      tail <- eachItem items rest ;;
      Ret (val data :: tail.1, applied data || tail.2)
  end.

Definition asArray (schema : schema) (value : value) : res data :=
  match value, items schema with
  | VArr l, Some it =>
      mapped <- eachItem it l ;;
      let setDefault := mapped.2 in
      Ret {| applied := setDefault;
             val := if setDefault then VArr mapped.1 else value |}
  | _, _ => Ret {| applied := false; val := value |}
  end.

(** Lines 214 to 278: an object. *)
Definition triggers (subSchema : schema) : bool :=
  (useTemplates options && bool_decide (is_Some (x_template subSchema)))
  || (useVariables options && bool_decide (is_Some (x_variable subSchema)))
  || (useDefaults options && bool_decide (is_Some (default_ subSchema)))
  || match getSchemaType h subSchema with
     | Some t => String.eqb t "object"
     | None => false
     end.

Fixpoint eachProperty (props : list (string * schema))
    (result : list (string * value)) (setDefault : bool)
    : res (list (string * value) * bool) :=
  match props with
  | [] => Ret (result, setDefault)
  | (property, subSchema) :: rest =>
      if triggers subSchema then
        data <- (if has_key property result
                 then applyTemplate subSchema (Some (get (VObj result) property))
                 else applyTemplate subSchema None) ;;
        if applied data
        then eachProperty rest (set_prop property (val data) result) true
        else eachProperty rest result setDefault
      else eachProperty rest result setDefault
  end.

Fixpoint eachAdditional (additional : schema) (props : list (string * schema))
    (keys : list string) (result : list (string * value)) (setDefault : bool)
    : res (list (string * value) * bool) :=
  match keys with
  | [] => Ret (result, setDefault)
  | property :: rest =>
      if negb (has_key property props) then
        data <- applyTemplate additional (Some (get (VObj result) property)) ;;
        if applied data
        then eachAdditional additional props rest
               (set_prop property (val data) result) true
        else eachAdditional additional props rest result setDefault
      else eachAdditional additional props rest result setDefault
  end.

Definition asObject (schema : schema) (valueNotProvided : bool) (value : value)
    : res data :=
  if negb valueNotProvided
     && (negb (truthy value) || negb (String.eqb (typeof value) "object"))
  then Ret {| applied := false; val := value |}
  else
    let result := if valueNotProvided then [] else Object_assign [] [value] in
    let props := default [] (properties schema) in
    let requires := default [] (required schema) in
    st <- eachProperty props result false ;;
    st <- match additionalProperties schema with
          | Some additional =>
              eachAdditional additional props (st.1).*1 st.1 st.2
          | None => Ret st
          end ;;
    let setDefault :=
      if negb (ignoreMissingRequired options)
         && existsb (fun r => negb (has_key r st.1)) requires
      then false else st.2 in
    Ret {| applied := setDefault;
           val := if setDefault then VObj st.1 else value |}.

(** [type === name] *)
Definition is_type (type : option string) (name : string) : bool :=
  match type with
  | Some t => String.eqb t name
  | None => false
  end.

(** [function applyTemplate(schema, definitions, params, options, value)] *)
Definition applyTemplate_body (schema : schema) (given : option value) : res data :=
  let valueNotProvided := negb (bool_decide (is_Some given)) in
  let value := argument given in
  schema <- discriminated schema value ;;
  let type := getSchemaType h schema in
  match allOf schema with
  | Some members => fromAllOf members valueNotProvided value
  | None =>
      variable <- fromVariable schema type valueNotProvided ;;
      match variable with
      | Some data => Ret data
      | None =>
      match fromTemplate schema valueNotProvided with
      | Some data => Ret data
      | None =>
      dflt <- fromDefault schema valueNotProvided value ;;
      match dflt with
      | Some data => Ret data
      | None =>
      if is_type type "array" then asArray schema value
      else if is_type type "object" then asObject schema valueNotProvided value
      else Ret {| applied := false; val := value |}
      end end end
  end.

End Materializer.

(** [applyTemplate], with a bound on the depth of the call stack. *)
Fixpoint applyTemplate (h : host) (definitions : list (string * schema))
    (params : value) (options : options) (stack : nat)
    (schema : schema) (given : option value) : res data :=
  match stack with
  | 0 => StackOverflow
  | S stack' =>
      applyTemplate_body h definitions params options
        (applyTemplate h definitions params options stack') schema given
  end.

(** [module.exports]: the materializer as callers see it. The options are
    the caller's merged over the module's defaults. *)
Definition materialize (h : host) (stack : nat) (schema : option schema)
    (definitions : option (list (string * ApplyTemplate.schema))) (params : value)
    (options : options) (initialValue : option value) : res value :=
  let schema := default empty_schema schema in
  let definitions := default [] definitions in
  if useDefaults options || useTemplates options || useVariables options then
    data <- applyTemplate h definitions params options stack schema initialValue ;;
    Ret (val data)
  else Ret (argument initialValue).

(** *** A concrete host *)
Module Host.

Definition digit (c : Ascii.ascii) : option Z :=
  let n := Ascii.nat_of_ascii c in
  if bool_decide (48 <= n) && bool_decide (n <= 57)
  then Some (Z.of_nat (n - 48)) else None.

Fixpoint digits (s : string) (acc : Z) : option Z :=
  match s with
  | EmptyString => Some acc
  | String c s' =>
      match digit c with
      | Some d => digits s' (10 * acc + d)%Z
      | None => None
      end
  end.

(** The number written by a string of decimal digits with an optional
    sign; NaN otherwise. *)
Definition parse_integer (s : string) : number :=
  match s with
  | EmptyString => NaN
  | String c s' =>
      if Ascii.eqb c (Ascii.ascii_of_nat 45) then
        match s', digits s' 0 with
        | String _ _, Some z => Num (inject_Z (- z))
        | _, _ => NaN
        end
      else match digits s 0 with
           | Some z => Num (inject_Z z)
           | None => NaN
           end
  end.

(** The digits after the decimal point, read onto the numerator [num] of
    a fraction with denominator [den]. *)
Fixpoint fraction (s : string) (num : Z) (den : positive) : option Q :=
  match s with
  | EmptyString => Some (num # den)
  | String c s' =>
      match digit c with
      | Some d => fraction s' (10 * num + d)%Z (10 * den)%positive
      | None => None
      end
  end.

(** Decimal digits, then optionally a point and more digits. *)
Fixpoint decimal (s : string) (acc : Z) : option Q :=
  match s with
  | EmptyString => Some (inject_Z acc)
  | String c s' =>
      if Ascii.eqb c (Ascii.ascii_of_nat 46) then
        match s' with
        | EmptyString => None
        | _ => fraction s' acc 1
        end
      else match digit c with
           | Some d => decimal s' (10 * acc + d)%Z
           | None => None
           end
  end.

(** The number written by a decimal numeral with an optional sign, as in
    ['5'], ['-3'] and ['1.2']; NaN otherwise. *)
Definition parse_decimal (s : string) : number :=
  match s with
  | EmptyString => NaN
  | String c s' =>
      if Ascii.eqb c (Ascii.ascii_of_nat 45) then
        match s', decimal s' 0 with
        | String _ _, Some q => Num (- q)
        | _, _ => NaN
        end
      else match decimal s 0 with
           | Some q => Num q
           | None => NaN
           end
  end.

(** Modelled from the spec: the coercion table of auto-formatting takes
    numeric-like strings to numbers (to the nearest integer for the type
    integer) and boolean-like strings to booleans; a string stays a
    string. The suite of the wrapper shows ['1.2'] going to [1] as an
    integer and to [1.2] as a number, and [''] to [false]. *)
Definition convertTo (target : string) (v : value) : value :=
  if String.eqb target "integer" then
    match v with
    | VStr s => VNum (Math_round (parse_decimal s))
    | VNum n => VNum (Math_round n)
    | VBool b => VNum (Num (if b then 1 else 0))
    | _ => VNum NaN
    end
  else if String.eqb target "number" then
    match v with
    | VStr s => VNum (parse_decimal s)
    | VNum n => VNum n
    | VBool b => VNum (Num (if b then 1 else 0))
    | _ => VNum NaN
    end
  else if String.eqb target "boolean" then
    match v with
    | VStr "false" => VBool false
    | _ => VBool (truthy v)
    end
  else if String.eqb target "string" then
    match v with
    | VStr s => VStr s
    | _ => VStr (Validate.Host.show v)
    end
  else v.

(** Modelled from the spec: [schema-type] gives the declared type and
    infers one from the keywords when none is declared. *)
Definition getSchemaType (s : schema) : option string :=
  match type_ s with
  | Some t => Some t
  | None =>
      if bool_decide (is_Some (items s)) then Some "array"
      else if bool_decide (is_Some (properties s))
              || bool_decide (is_Some (allOf s))
              || bool_decide (is_Some (additionalProperties s))
      then Some "object"
      else None
  end.

(** Modelled from the spec: [copy] is a deep copy; values here are
    immutable, so the copy is the value. *)
Definition make : host :=
  {| ApplyTemplate.convertTo := convertTo;
     copy := fun v => v;
     ApplyTemplate.getSchemaType := getSchemaType;
     to_string := Validate.Host.show |}.

(** The text up to the first closing brace, and the text after it. *)
Fixpoint until_close (s : string) : option (string * string) :=
  match s with
  | EmptyString => None
  | String c s' =>
      if Ascii.eqb c (Ascii.ascii_of_nat 125) then Some (EmptyString, s')
      else match until_close s' with
           | Some (name, rest) => Some (String c name, rest)
           | None => None
           end
  end.

(** Modelled from the spec: the handlebar injector receives the raw text
    and [params] and replaces every [{name}] for which [params] holds a
    defined value; text without such a placeholder comes back unchanged. *)
Fixpoint handlebar_text (budget : nat) (s : string) (params : value) : string :=
  match budget, s with
  | S budget', String c s' =>
      if Ascii.eqb c (Ascii.ascii_of_nat 123) then
        match until_close s' with
        | Some (name, rest) =>
            match get params name with
            | VUndefined => String c (handlebar_text budget' s' params)
            | v => Validate.Host.show v +:+ handlebar_text budget' rest params
            end
        | None => String c (handlebar_text budget' s' params)
        end
      else String c (handlebar_text budget' s' params)
  | _, _ => EmptyString
  end.

Definition handlebar (template : string) (params : value) : value :=
  VStr (handlebar_text (String.length template) template params).

End Host.

(** The defaults of the module: everything on, handlebar placeholders. *)
Definition defaults : options :=
  {| autoFormat := true; defaultsUseParams := true;
     ignoreMissingRequired := true; useDefaults := true;
     useTemplates := true; useVariables := true;
     injector := Host.handlebar |}.

(** The same with [defaultsUseParams] off: defaults are copied. *)
Definition copied_defaults : options :=
  {| autoFormat := true; defaultsUseParams := false;
     ignoreMissingRequired := true; useDefaults := true;
     useTemplates := true; useVariables := true;
     injector := Host.handlebar |}.

(** Schema literals. *)

(** [{type: 'integer', default: '5'}] *)
Definition integer_default_5 : schema :=
  {| ident := Some 0; type_ := Some "integer"; format := None; allOf := None;
     discriminator := None; x_variable := None; x_template := None;
     default_ := Some (VStr "5"); items := None; properties := None;
     additionalProperties := None; required := None |}.

(** [{type: 'integer', 'x-variable': 'n'}] *)
Definition integer_variable_n : schema :=
  {| ident := Some 0; type_ := Some "integer"; format := None; allOf := None;
     discriminator := None; x_variable := Some "n"; x_template := None;
     default_ := None; items := None; properties := None;
     additionalProperties := None; required := None |}.

(** [{type: 'object', discriminator: 'kind'}] *)
Definition animal : schema :=
  {| ident := Some 0; type_ := Some "object"; format := None; allOf := None;
     discriminator := Some "kind"; x_variable := None; x_template := None;
     default_ := None; items := None; properties := None;
     additionalProperties := None; required := None |}.

(** [{type: 'string'}] *)
Definition a_string : schema :=
  {| ident := Some 1; type_ := Some "string"; format := None; allOf := None;
     discriminator := None; x_variable := None; x_template := None;
     default_ := None; items := None; properties := None;
     additionalProperties := None; required := None |}.

(** [{type: 'object', properties: {a: {type: 'string'}}}] *)
Definition has_a : schema :=
  {| ident := Some 2; type_ := Some "object"; format := None; allOf := None;
     discriminator := None; x_variable := None; x_template := None;
     default_ := None; items := None; properties := Some [("a", a_string)];
     additionalProperties := None; required := None |}.

(** [{allOf: [{type: 'object', properties: {a: {type: 'string'}}}]}] *)
Definition all_of_has_a : schema :=
  {| ident := Some 3; type_ := None; format := None; allOf := Some [has_a];
     discriminator := None; x_variable := None; x_template := None;
     default_ := None; items := None; properties := None;
     additionalProperties := None; required := None |}.

End ApplyTemplate.

(* ===================================================================== *)
(** ** The parameter parser of the version modules *)
(* ===================================================================== *)

Module Swagger.
Import Js.

(** A parameter definition of the document, or the [items] of one; only
    the keywords that [parse] reads. *)
Inductive parameter := Param {
  type_ : option string;
  collectionFormat : option string;
  format : option string;
  items : option parameter
}.

(** What [parse] hands back: a value, a [Buffer] or a [Date] built from
    its argument, or the array of the parsed elements. *)
Inductive parsed :=
| Plain (v : value)
| Buffer (v : value) (encoding : string)
| DateOf (v : value)
| Many (elems : list parsed).

Definition bind {A B} (m : res A) (k : A -> res B) : res B :=
  match m with
  | Ret a => k a
  | Throw e => Throw e
  | StackOverflow => StackOverflow
  end.

Notation "x <- m ;; k" := (bind m (fun x => k))
  (at level 100, m at next level, right associativity).
Notation "m ;;; k" := (bind m (fun _ => k))
  (at level 100, right associativity).

(** [s.split(sep)] with a separator of one character. *)
Fixpoint split (sep : Ascii.ascii) (s : string) : list string :=
  match s with
  | EmptyString => [""]
  | String c s' =>
      if Ascii.eqb c sep then "" :: split sep s'
      else match split sep s' with
           | piece :: rest => String c piece :: rest
           | [] => [String c ""]
           end
  end.

(** [value.split(sep)]: only a string has the method. *)
Definition value_split (sep : Ascii.ascii) (value : value) : res (list string) :=
  match value with
  | VStr s => Ret (split sep s)
  | VUndefined | VNull =>
      Throw (TypeError "Cannot read property 'split' of null or undefined")
  | _ => Throw (TypeError "value.split is not a function")
  end.

(** [validate.array(errors, prefix, schema.items, result)] and the like.
    The first parameter of the functions of validate.js is the context
    [v], and the first thing each of them does is to read
    [v.options.<rule>] (validate.js, lines 80, 117, 136, 146, 156, 167,
    176 and 228). Here they receive the array [errors], which has no
    [options]: the read is a read of a property of [undefined]. *)
Definition validate_with_errors_as_context (rule : string) : res unit :=
  Throw (TypeError ("Cannot read property '" +:+ rule +:+ "' of undefined")).

Section Parse.

(** [+value] and [value + text] of the host language. *)
Variable to_number : value -> number.
Variable to_string : value -> string.

(** [x === 'text'], where [x] is a keyword of the document (absent:
    [undefined]) or a value. *)
Definition is_text (x : option string) (text : string) : bool :=
  match x with
  | Some s => String.eqb s text
  | None => false
  end.

Definition is_string (value : value) (text : string) : bool :=
  match value with
  | VStr s => String.eqb s text
  | _ => false
  end.

(** The separator chosen by [switch (schema.collectionFormat)]. *)
Definition separator (schema : parameter) : Ascii.ascii :=
  if is_text (collectionFormat schema) "ssv" then Ascii.ascii_of_nat 32      (* ' ' *)
  else if is_text (collectionFormat schema) "tsv" then Ascii.ascii_of_nat 9  (* tab *)
  else if is_text (collectionFormat schema) "pipes" then Ascii.ascii_of_nat 124 (* '|' *)
  else Ascii.ascii_of_nat 44.                                                (* ',' *)

(** [function parse(errors, prefix, schema, value)]. Nothing but the
    validators would write to [errors], so it is not threaded. *)
Fixpoint parse (prefix : string) (schema : parameter) (value : value) : res parsed :=
  if is_text (type_ schema) "array" then
    result <- value_split (separator schema) value ;;
    validate_with_errors_as_context "array" ;;;
    elems <- (fix map (l : list string) (i : nat) : res (list parsed) :=
                match l with
                | [] => Ret []
                | v :: l' =>
                    x <- match items schema with
                         | Some it =>
                             parse (prefix +:+ "/" +:+ string_of_nat i) it (VStr v)
                         | None =>
                             Throw (TypeError "Cannot read property 'type' of undefined")
                         end ;;
                    rest <- map l' (S i) ;;
                    Ret (x :: rest)
                end) result 0 ;;
    Ret (Many elems)
  else if is_text (type_ schema) "boolean" then
    if is_string value "false" then Ret (Plain (VBool false))
    else Ret (Plain (VBool (truthy value)))
  else if is_text (type_ schema) "integer" then
    let result := VNum (to_number value) in
    validate_with_errors_as_context "integer" ;;;
    Ret (Plain result)
  else if is_text (type_ schema) "number" then
    let result := VNum (to_number value) in
    validate_with_errors_as_context "number" ;;;
    Ret (Plain result)
  else if is_text (type_ schema) "string" then
    if is_text (format schema) "binary" then
      validate_with_errors_as_context "binary" ;;;
      Ret (Buffer value "binary")
    else if is_text (format schema) "byte" then
      validate_with_errors_as_context "byte" ;;;
      Ret (Buffer value "base64")
    else if is_text (format schema) "date" then
      validate_with_errors_as_context "date" ;;;
      Ret (DateOf (VStr (to_string value +:+ "T00:00:00.000Z")))
    else if is_text (format schema) "date-time" then
      validate_with_errors_as_context "dateTime" ;;;
      Ret (DateOf value)
    else
      validate_with_errors_as_context "string" ;;;
      Ret (Plain value)
  else Ret (Plain VUndefined).

End Parse.

End Swagger.

(* ===================================================================== *)
(** ** Facts about the validator *)
(* ===================================================================== *)

Module ValidateFacts.
Import Js Validate.

Section Facts.

Variable h : host.
Variable opts : options.
Variable hp : heap.

(** *** The monad *)

Lemma bind_ret {A B} (m : M A) (k : A -> M B) a errs errs' :
  m errs = Ret (a, errs') -> bind m k errs = k a errs'.
Proof. intros E. unfold bind. now rewrite E. Qed.

Lemma when_false (m : M unit) errs : when false m errs = Ret (tt, errs).
Proof. reflexivity. Qed.

(** *** anyOf *)

Lemma length_zero_is_nil {A} (l : list A) :
  bool_decide (length l = 0) = is_nil l.
Proof. destruct l; reflexivity. Qed.

Lemma tally_valid prefix results : forall i acc,
  r_valid (tally h prefix i results acc)
  = r_valid acc + length (List.filter is_nil results).
Proof.
  induction results as [|e rest IH]; intros i acc; simpl.
  - lia.
  - rewrite IH. destruct e; simpl; lia.
Qed.

Lemma tally_errors prefix results : forall i acc,
  r_errors (tally h prefix i results acc)
  = r_errors acc ++ failing_texts h prefix i results.
Proof.
  induction results as [|e rest IH]; intros i acc; simpl.
  - now rewrite app_nil_r.
  - rewrite IH. destruct e; simpl; [reflexivity|]. now rewrite <- app_assoc.
Qed.

Section Loop.

Variable rec : string -> nat -> sid -> value -> M unit.
Variable prefix : string.
Variable depth : nat.
Variable value : value.

(** Every branch is run from an empty collection; given what each one
    yields there, the loop returns the tally, whatever collection was
    installed before. *)
Lemma anyOfLoop_tally branches results :
  Forall2 (fun b e => rec (prefix +:+ "  ") depth b value [] = Ret (tt, e))
    branches results ->
  forall i acc errs0,
    exists last,
      anyOfLoop h rec prefix depth value i branches acc errs0
      = Ret (tally h prefix i results acc, last).
Proof.
  induction 1 as [|b e branches results Hb _ IH]; intros i acc errs0; simpl.
  - eexists. reflexivity.
  - unfold bind at 1. unfold set_errors at 1.
    unfold bind at 1. rewrite Hb.
    unfold bind at 1. unfold get_errors at 1.
    rewrite length_zero_is_nil.
    destruct (IH (S i)
      (if is_nil e then
         {| r_errors := r_errors acc;
            r_messages := r_messages acc
              ++ [prefix +:+ "Schema #" +:+ string_of_nat (i + 1) +:+ ": Valid"];
            r_valid := r_valid acc + 1 |}
       else
         {| r_errors := r_errors acc ++ [logStr h prefix i e];
            r_messages := r_messages acc ++ [logStr h prefix i e];
            r_valid := r_valid acc |}) e) as [last Hlast].
    exists last. rewrite <- Hlast. destruct e; reflexivity.
Qed.

(** [anyOf] puts back the collection it found. *)
Lemma anyOf_restores branches results errs :
  Forall2 (fun b e => rec (prefix +:+ "  ") depth b value [] = Ret (tt, e))
    branches results ->
  anyOf_ h rec prefix depth branches value errs
  = Ret (tally h prefix 0 results
           {| r_errors := []; r_messages := []; r_valid := 0 |}, errs).
Proof.
  intros HF. unfold anyOf_.
  unfold bind at 1. unfold get_errors at 1.
  destruct (anyOfLoop_tally branches results HF 0
              {| r_errors := []; r_messages := []; r_valid := 0 |} errs) as [last E].
  unfold bind at 1. rewrite E. reflexivity.
Qed.

(** A branch that throws ends the loop there: the branches after it are
    not run, and the collection set aside is not put back. *)
Lemma anyOfLoop_throws before passed b after e :
  Forall2 (fun x r => rec (prefix +:+ "  ") depth x value [] = Ret (tt, r))
    before passed ->
  rec (prefix +:+ "  ") depth b value [] = Throw e ->
  forall i acc errs0,
    anyOfLoop h rec prefix depth value i (before ++ b :: after) acc errs0 = Throw e.
Proof.
  intros HF Hb. induction HF as [|x r before passed Hx _ IH]; intros i acc errs0; simpl.
  - unfold bind at 1. unfold set_errors at 1.
    unfold bind at 1. now rewrite Hb.
  - unfold bind at 1. unfold set_errors at 1.
    unfold bind at 1. rewrite Hx.
    unfold bind at 1. unfold get_errors at 1. apply IH.
Qed.

Lemma anyOf_throws before passed b after e errs :
  Forall2 (fun x r => rec (prefix +:+ "  ") depth x value [] = Ret (tt, r))
    before passed ->
  rec (prefix +:+ "  ") depth b value [] = Throw e ->
  anyOf_ h rec prefix depth (before ++ b :: after) value errs = Throw e.
Proof.
  intros HF Hb. unfold anyOf_.
  unfold bind at 1. unfold get_errors at 1.
  unfold bind at 1. now rewrite (anyOfLoop_throws before passed b after e HF Hb).
Qed.

End Loop.

(** *** Computations that only report at one path *)

(** [emits prefix m Q]: from any collection, [m] returns normally, keeps
    what was collected, appends records located at [prefix] only, and its
    result satisfies [Q]. *)
Definition emits {A} (prefix : string) (m : M A) (Q : A -> Prop) : Prop :=
  forall errs, exists a new,
    m errs = Ret (a, errs ++ new)
    /\ Forall (fun e => path e = prefix) new
    /\ Q a.

Lemma emits_ret {A} prefix (a : A) (Q : A -> Prop) :
  Q a -> emits prefix (ret a) Q.
Proof.
  intros HQ errs. exists a, []. rewrite app_nil_r. repeat split; auto.
Qed.

Lemma emits_bind {A B} prefix (m : M A) (k : A -> M B) (Q : A -> Prop) (R : B -> Prop) :
  emits prefix m Q ->
  (forall a, Q a -> emits prefix (k a) R) ->
  emits prefix (bind m k) R.
Proof.
  intros Hm Hk errs.
  destruct (Hm errs) as (a & new1 & E1 & F1 & HQ).
  destruct (Hk a HQ (errs ++ new1)) as (b & new2 & E2 & F2 & HR).
  exists b, (new1 ++ new2). unfold bind. rewrite E1, E2, app_assoc.
  repeat split; auto. apply Forall_app; auto.
Qed.

Lemma emits_weaken {A} prefix (m : M A) (Q R : A -> Prop) :
  emits prefix m Q -> (forall a, Q a -> R a) -> emits prefix m R.
Proof.
  intros Hm HQR errs. destruct (Hm errs) as (a & new & E & F & HQ).
  exists a, new. auto.
Qed.

Lemma emits_v_error prefix msg : emits prefix (v_error prefix msg) (fun _ => True).
Proof.
  intros errs. exists tt, [mkError prefix msg]. repeat split; auto.
Qed.

Lemma emits_when prefix b (m : M unit) :
  emits prefix m (fun _ => True) -> emits prefix (when b m) (fun _ => True).
Proof. destruct b; simpl; auto using emits_ret. Qed.

Lemma emits_seq {A} prefix (m : M A) (k : M unit) :
  emits prefix m (fun _ => True) -> emits prefix k (fun _ => True) ->
  emits prefix (bind m (fun _ => k)) (fun _ => True).
Proof. intros. eapply emits_bind; eauto. Qed.

Create HintDb emits.
#[local] Hint Resolve emits_v_error emits_when emits_seq : emits.

Lemma emits_forEach {A} prefix (f : A -> nat -> M unit) (l : list A) :
  (forall x i, emits prefix (f x i) (fun _ => True)) ->
  emits prefix (forEach f l) (fun _ => True).
Proof.
  intros Hf. unfold forEach. generalize 0.
  induction l as [|x l IH]; intros i; simpl.
  - now apply emits_ret.
  - apply emits_seq; auto.
Qed.

Lemma emits_enum prefix schema value :
  emits prefix (_enum h opts prefix schema value) (fun _ => True).
Proof.
  unfold _enum. destruct (enum schema); auto using emits_ret with emits.
Qed.

Lemma emits_maxMin prefix schema type omax omin smax smin excl value mx mn :
  emits prefix
    (maxMin h prefix schema type omax omin smax smin excl value mx mn)
    (fun _ => True).
Proof.
  unfold maxMin. apply emits_seq; apply emits_when.
  - destruct (_ && _ && _); auto with emits.
  - destruct (_ && _ && _); auto with emits.
Qed.

#[local] Hint Resolve emits_enum emits_maxMin : emits.

(** *** The discriminator resolver terminates *)

Definition visitedb (st : dstate) (i : sid) : bool :=
  truthy_entry (d_map st !! i).

(** Number of nodes of the document that the resolution has not entered. *)
Definition unvisited (st : dstate) : nat :=
  length (List.filter (fun i => negb (visitedb st i)) (seq 0 (length hp))).

Definition grows (st st' : dstate) : Prop :=
  forall i, visitedb st i = true -> visitedb st' i = true.

(** Every schema in the shared array was entered, and none is there twice. *)
Definition tidy (st : dstate) : Prop :=
  NoDup (d_allOf st) /\ forall x, x ∈ d_allOf st -> visitedb st x = true.

Lemma filter_length_le (f g : nat -> bool) (l : list nat) :
  (forall i, f i = true -> g i = true) ->
  length (List.filter f l) <= length (List.filter g l).
Proof.
  intros Hfg. induction l as [|x l IH]; simpl; [lia|].
  destruct (f x) eqn:Ef.
  - rewrite (Hfg _ Ef). simpl. lia.
  - destruct (g x); simpl; lia.
Qed.

Lemma filter_length_lt (f g : nat -> bool) (l : list nat) x :
  (forall i, f i = true -> g i = true) ->
  In x l -> g x = true -> f x = false ->
  length (List.filter f l) < length (List.filter g l).
Proof.
  intros Hfg. induction l as [|y l IH]; simpl; [tauto|].
  intros [->|Hin] Hg Hf.
  - rewrite Hg, Hf. simpl.
    pose proof (filter_length_le f g l Hfg). lia.
  - specialize (IH Hin Hg Hf). destruct (f y) eqn:Ef.
    + rewrite (Hfg _ Ef). simpl. lia.
    + destruct (g y); simpl; lia.
Qed.

Lemma visitedb_enter st s i :
  visitedb (enter st s) i = bool_decide (s = i) || visitedb st i.
Proof.
  unfold visitedb, enter. simpl. rewrite lookup_insert.
  case_decide; subst.
  - now rewrite bool_decide_eq_true_2.
  - now rewrite bool_decide_eq_false_2.
Qed.

Lemma grows_enter st s : grows st (enter st s).
Proof. intros i Hi. rewrite visitedb_enter, Hi. apply orb_true_r. Qed.

Lemma grows_refl st : grows st st.
Proof. intros i Hi. exact Hi. Qed.

Lemma grows_trans st1 st2 st3 : grows st1 st2 -> grows st2 st3 -> grows st1 st3.
Proof. intros H12 H23 i Hi. auto. Qed.

Lemma unvisited_grows st st' : grows st st' -> unvisited st' <= unvisited st.
Proof.
  intros Hg. apply filter_length_le. intros i Hi.
  destruct (visitedb st i) eqn:E; [|reflexivity].
  rewrite (Hg _ E) in Hi. discriminate.
Qed.

Lemma unvisited_enter st s :
  s < length hp -> visitedb st s = false ->
  unvisited (enter st s) < unvisited st.
Proof.
  intros Hlt Hs. apply filter_length_lt with (x := s).
  - intros i Hi. destruct (visitedb st i) eqn:E; [|reflexivity].
    rewrite (grows_enter st s _ E) in Hi. discriminate.
  - apply in_seq. lia.
  - now rewrite Hs.
  - rewrite visitedb_enter, bool_decide_eq_true_2 by reflexivity. reflexivity.
Qed.

Lemma node_outside s : length hp <= s -> node hp s = empty_schema.
Proof.
  intros Hs. unfold node. now rewrite lookup_ge_None_2.
Qed.

(** What a call of [discriminate] guarantees about the shared state. *)
Definition resolved (st : dstate) (s : sid) (out : dret * dstate) : Prop :=
  grows st out.2 /\ tidy out.2 /\ visitedb out.2 s = true
  /\ (visitedb st s = true -> out = (DExists true, st))
  /\ (visitedb st s = false -> out.1 = DAllOf)
  /\ (exists added, d_allOf out.2 = d_allOf st ++ added).

Lemma resolved_fresh st s st' :
  visitedb st s = false ->
  grows st st' -> tidy st' -> visitedb st' s = true ->
  (exists added, d_allOf st' = d_allOf st ++ added) ->
  resolved st s (DAllOf, st').
Proof.
  intros Hv Hg Ht Hs Hadd. unfold resolved; simpl.
  split; [exact Hg|]. split; [exact Ht|]. split; [exact Hs|].
  split; [congruence|]. split; [reflexivity|exact Hadd].
Qed.

Lemma resolved_again st s :
  visitedb st s = true -> tidy st -> resolved st s (DExists true, st).
Proof.
  intros Hv Ht. unfold resolved; simpl.
  split; [intros i Hi; exact Hi|]. split; [exact Ht|]. split; [exact Hv|].
  split; [reflexivity|]. split; [congruence|].
  exists []. now rewrite app_nil_r.
Qed.

Lemma eachMember_resolved prefix value stack members :
  (forall st s, unvisited st < stack -> tidy st ->
     emits prefix (discriminate h opts hp stack st prefix s value) (resolved st s)) ->
  forall st, unvisited st < stack -> tidy st ->
    emits prefix
      (eachMember (fun st x => discriminate h opts hp stack st prefix x value) members st)
      (fun st' => grows st st' /\ tidy st'
                  /\ exists added, d_allOf st' = d_allOf st ++ added).
Proof.
  intros IH. induction members as [|x rest IHl]; intros st Hlt Ht; simpl.
  - apply emits_ret. split; [apply grows_refl|]. split; [exact Ht|].
    exists []. now rewrite app_nil_r.
  - eapply emits_bind; [apply (IH st x Hlt Ht)|].
    intros [r st1] (Hg & Ht1 & _ & _ & _ & (add1 & Hadd1)). simpl in *.
    eapply emits_weaken.
    + apply IHl; [|exact Ht1]. pose proof (unvisited_grows _ _ Hg). lia.
    + intros st2 (Hg2 & Ht2 & (add2 & Hadd2)).
      split; [eauto using grows_trans|]. split; [exact Ht2|].
      exists (add1 ++ add2). now rewrite Hadd2, Hadd1, app_assoc.
Qed.

Lemma tidy_enter st s : tidy st -> tidy (enter st s).
Proof.
  intros [Hnd Hin]. split; [exact Hnd|].
  intros x Hx. apply grows_enter. now apply Hin.
Qed.

Lemma visitedb_enter_self st s : visitedb (enter st s) s = true.
Proof.
  rewrite visitedb_enter, bool_decide_eq_true_2 by reflexivity. reflexivity.
Qed.

Lemma tidy_push st s :
  tidy st -> visitedb st s = false -> tidy (push (enter st s) s).
Proof.
  intros [Hnd Hin] Hs. split; simpl.
  - apply NoDup_app. split; [exact Hnd|]. split; [|apply NoDup_singleton].
    intros x Hx Hx'. apply list_elem_of_singleton in Hx' as ->.
    rewrite (Hin _ Hx) in Hs. discriminate.
  - intros x Hx. apply elem_of_app in Hx as [Hx|Hx].
    + apply (grows_enter st s). now apply Hin.
    + apply list_elem_of_singleton in Hx as ->. apply visitedb_enter_self.
Qed.

Lemma discriminate_resolved prefix value stack :
  forall st s, unvisited st < stack -> tidy st ->
    emits prefix (discriminate h opts hp stack st prefix s value) (resolved st s).
Proof.
  induction stack as [|stack IH]; intros st s Hlt Ht; [lia|].
  simpl.
  change (truthy_entry (d_map st !! s)) with (visitedb st s).
  destruct (visitedb st s) eqn:Hv.
  { (* the node was entered before *)
    apply emits_ret. now apply resolved_again. }
  assert (Hin : node hp s <> empty_schema -> s < length hp).
  { intros Hne. destruct (Nat.lt_ge_cases s (length hp)); [assumption|].
    now rewrite node_outside in Hne. }
  destruct (if o_allOf opts then allOf (node hp s) else None) as [members|] eqn:EallOf.
    - (* allOf: enter the members *)
      assert (Hs : s < length hp).
      { apply Hin. intros Hem. rewrite Hem in EallOf.
        destruct (o_allOf opts); discriminate. }
      eapply emits_bind.
      + apply (eachMember_resolved prefix value stack members IH (enter st s)).
        * pose proof (unvisited_enter st s Hs Hv). lia.
        * now apply tidy_enter.
      + intros st2 (Hg & Ht2 & added & Hadd). apply emits_ret.
        apply resolved_fresh; auto.
        * eauto using grows_trans, grows_enter.
        * apply Hg, visitedb_enter_self.
        * exists added. exact Hadd.
    - (* a plain schema: push it, then follow the discriminator *)
      pose proof (tidy_push st s Ht Hv) as Ht2.
      assert (Hg2 : grows st (push (enter st s) s)).
      { intros i Hi. apply (grows_enter st s i Hi). }
      assert (Hs2 : visitedb (push (enter st s) s) s = true)
        by apply visitedb_enter_self.
      assert (Hdone : emits prefix (ret (DAllOf, push (enter st s) s)) (resolved st s)).
      { apply emits_ret. apply resolved_fresh; auto. exists [s]. reflexivity. }
      destruct (o_discriminator opts && truthy_opt (discriminator (node hp s))) eqn:Ed;
        [|exact Hdone].
      assert (Hs : s < length hp).
      { apply Hin. intros Hem. rewrite Hem in Ed.
        simpl in Ed. now rewrite andb_false_r in Ed. }
      destruct (getDiscriminatorSchema h (node hp s) value) as [d|].
      + eapply emits_bind.
        * apply (IH (push (enter st s) s) d); [|exact Ht2].
          assert (unvisited (push (enter st s) s) = unvisited (enter st s)) as ->
            by reflexivity.
          pose proof (unvisited_enter st s Hs Hv). lia.
        * intros [r st3] (Hg3 & Ht3 & _ & _ & _ & (added & Hadd)). simpl in *.
          apply emits_ret. apply resolved_fresh; auto.
          -- eauto using grows_trans.
          -- exists ([s] ++ added). rewrite Hadd. now rewrite <- app_assoc.
      + eapply emits_bind; [apply emits_v_error|]. intros _ _. exact Hdone.
Qed.

Lemma unvisited_fresh : unvisited fresh_state = length hp.
Proof.
  unfold unvisited.
  transitivity (length (seq 0 (length hp))); [|apply length_seq]. f_equal.
  generalize (seq 0 (length hp)). intros l.
  induction l as [|x l IH]; simpl; [reflexivity|].
  unfold visitedb at 1. simpl. rewrite lookup_empty. simpl. now rewrite IH.
Qed.

Lemma tidy_fresh : tidy fresh_state.
Proof.
  split; simpl; [apply NoDup_nil_2|]. intros x Hx. inversion Hx.
Qed.

Lemma visitedb_fresh s : visitedb fresh_state s = false.
Proof. unfold visitedb. simpl. now rewrite lookup_empty. Qed.

(** The outermost call returns the shared array. *)
Lemma discriminate_top prefix value stack s :
  length hp < stack ->
  emits prefix (discriminate h opts hp stack fresh_state prefix s value)
    (fun out => out.1 = DAllOf /\ NoDup (d_allOf out.2)).
Proof.
  intros Hlt. eapply emits_weaken.
  - apply discriminate_resolved; [rewrite unvisited_fresh; lia | apply tidy_fresh].
  - intros out (_ & Ht & _ & _ & Hr & _). split; [|apply Ht].
    apply Hr, visitedb_fresh.
Qed.

(** *** At the depth limit *)

(** Splicing the keys found out of the required names. *)
Fixpoint spliceKeys (required keys : list string) : list string :=
  match keys with
  | [] => required
  | key :: keys' =>
      spliceKeys (match indexOf key required with
                  | Some index => remove_at index required
                  | None => required
                  end) keys'
  end.

(** *** What a node reports about itself

    The checks that [validate.array] and [validate.object] make on the node
    they are called with, apart from what they hand to [validate] for the
    elements and the property values: the records they add, as lists. *)

(** The enum check. *)
Definition enum_records (prefix : string) (schema : schema) (value : value)
    : list error :=
  match enum schema with
  | Some en =>
      if o_enum opts && negb (existsb (fun e => same h value e) en)
      then [mkError prefix ("Value did not meet enum requirements: " +:+ smart h value)]
      else []
  | None => []
  end.

(** A maximum and a minimum, each exclusive or not. *)
Definition bound_records (prefix : string) (schema : schema) (type : string)
    (omax omin : bool) (smax smin : option value)
    (exclusives : bool) (value : value) (maximum minimum : number) : list error :=
  (if omax && bool_decide (is_Some smax) then
     if exclusives && truthy_opt (exclusiveMaximum schema)
        && num_ge (num_of h value) maximum
     then [mkError prefix ("Expected " +:+ type +:+ " to be less than "
             +:+ show_opt h smax +:+ ". Received: " +:+ smart h value)]
     else if num_gt (num_of h value) maximum
          then [mkError prefix ("Expected " +:+ type +:+ " to be less than or equal to "
                  +:+ show_opt h smax +:+ ". Received: " +:+ smart h value)]
          else []
   else [])
  ++ (if omin && bool_decide (is_Some smin) then
        if exclusives && truthy_opt (exclusiveMinimum schema)
           && num_le (num_of h value) minimum
        then [mkError prefix ("Expected " +:+ type +:+ " to be greater than "
                +:+ show_opt h smin +:+ ". Received: " +:+ smart h value)]
        else if num_lt (num_of h value) minimum
             then [mkError prefix ("Expected " +:+ type +:+ " to be greater than or equal to "
                     +:+ show_opt h smin +:+ ". Received: " +:+ smart h value)]
             else []
      else []).

(** One record for each element that is the same as an element kept
    before it. *)
Fixpoint repeated_records (prefix : string) (singles : list value) (index : nat)
    (l : list value) : list error :=
  match l with
  | [] => []
  | item :: l' =>
      if existsb (fun single => same h item single) singles
      then mkError prefix
             ("Array values must be unique. Value is not unique at index "
              +:+ string_of_nat index +:+ ": " +:+ to_string h item)
           :: repeated_records prefix singles (S index) l'
      else repeated_records prefix (singles ++ [item]) (S index) l'
  end.

(** What [validate.array] reports about the array itself: its being an
    array, its length, the uniqueness of its elements, its enum. *)
Definition array_records (prefix : string) (schema : schema) (value : value)
    : list error :=
  if negb (o_array opts) then [] else
  match value with
  | VArr l =>
      (if o_maxItems opts && bool_decide (is_Some (maxItems schema))
          && num_lt (bound h (maxItems schema)) (num_of_nat (length l))
       then [mkError prefix ("Array length above maximum length of "
               +:+ show_opt h (maxItems schema) +:+ " with "
               +:+ string_of_nat (length l) +:+ " items.")]
       else [])
      ++ (if o_minItems opts && bool_decide (is_Some (minItems schema))
             && num_gt (bound h (minItems schema)) (num_of_nat (length l))
          then [mkError prefix ("Array length below minimum length of "
                  +:+ show_opt h (minItems schema) +:+ " with "
                  +:+ string_of_nat (length l) +:+ " items.")]
          else [])
      ++ (if o_uniqueItems opts && truthy_opt (uniqueItems schema)
          then repeated_records prefix [] 0 l
          else [])
      ++ enum_records prefix schema value
  | _ => [mkError prefix ("Expected an array. Received: " +:+ smart h value)]
  end.

(** What [validate.object] reports about the object itself for one of the
    schemas that apply to it: the required names it lacks, the number of
    its properties, its enum. *)
Definition schema_records (prefix : string) (value : value) (s : sid) : list error :=
  let schema := node hp s in
  let lacking :=
    spliceKeys (match (if o_required opts then required schema else None) with
                | Some r => r
                | None => []
                end) (Object_keys value) in
  (if o_required opts && bool_decide (0 < length lacking)
   then [mkError prefix ("One or more required properties missing: "
           +:+ join ", " lacking)]
   else [])
  ++ bound_records prefix schema "object property count"
       (o_maxProperties opts) (o_minProperties opts)
       (maxProperties schema) (minProperties schema) false
       (of_nat (length (Object_keys value)))
       (bound h (maxProperties schema)) (bound h (minProperties schema))
  ++ enum_records prefix schema value.

(** What [validate.object] reports about the object itself: its being an
    object, what the resolution of the discriminator [reported], and the
    records for every schema of [effective], the schemas that apply. *)
Definition object_records (prefix : string) (value : value)
    (effective : list sid) (reported : list error) : list error :=
  if negb (o_object opts) then [] else
  if negb (truthy value) || negb (String.eqb (typeof value) "object")
  then [mkError prefix ("Expected a non-null object. Received: " +:+ smart h value)]
  else reported ++ concat (map (schema_records prefix value) effective).

Lemma enum_exact prefix schema value errs :
  _enum h opts prefix schema value errs
  = Ret (tt, errs ++ enum_records prefix schema value).
Proof.
  unfold _enum, enum_records. destruct (enum schema) as [en|].
  - destruct (o_enum opts); simpl; [|unfold ret; now rewrite app_nil_r].
    destruct (existsb _ en); simpl; [unfold ret; now rewrite app_nil_r|reflexivity].
  - unfold ret. now rewrite app_nil_r.
Qed.

Lemma maxMin_exact prefix schema type omax omin smax smin excl value mx mn errs :
  maxMin h prefix schema type omax omin smax smin excl value mx mn errs
  = Ret (tt, errs ++ bound_records prefix schema type omax omin smax smin excl value mx mn).
Proof.
  unfold maxMin, bound_records, bind, when, v_error, ret.
  destruct (omax && _); destruct (omin && _);
    repeat match goal with
           | |- context [if ?b then _ else _] => destruct b
           end;
    simpl; rewrite ?app_nil_r, <- ?app_assoc; reflexivity.
Qed.

Lemma uniqueScan_exact prefix l : forall singles index errs,
  uniqueScan h prefix singles index l errs
  = Ret (tt, errs ++ repeated_records prefix singles index l).
Proof.
  induction l as [|x l IH]; intros singles index errs; simpl.
  - unfold ret. now rewrite app_nil_r.
  - destruct (existsb _ singles).
    + unfold bind, v_error. rewrite IH. now rewrite <- app_assoc.
    + apply IH.
Qed.

Lemma enum_records_path prefix schema value :
  Forall (fun e => path e = prefix) (enum_records prefix schema value).
Proof.
  unfold enum_records. destruct (enum schema); [|constructor].
  destruct (_ && _); repeat constructor.
Qed.

Lemma bound_records_path prefix schema type omax omin smax smin excl value mx mn :
  Forall (fun e => path e = prefix)
    (bound_records prefix schema type omax omin smax smin excl value mx mn).
Proof.
  unfold bound_records. apply Forall_app. split.
  - repeat match goal with
           | |- context [if ?b then _ else _] => destruct b
           end; repeat constructor.
  - repeat match goal with
           | |- context [if ?b then _ else _] => destruct b
           end; repeat constructor.
Qed.

Lemma repeated_records_path prefix l : forall singles index,
  Forall (fun e => path e = prefix) (repeated_records prefix singles index l).
Proof.
  induction l as [|x l IH]; intros singles index; simpl; [constructor|].
  destruct (existsb _ singles); [constructor; [reflexivity|]|]; apply IH.
Qed.

Lemma array_records_path prefix schema value :
  Forall (fun e => path e = prefix) (array_records prefix schema value).
Proof.
  unfold array_records. destruct (negb (o_array opts)); [constructor|].
  destruct value; try (repeat constructor).
  apply Forall_app; split; [|apply Forall_app; split; [|apply Forall_app; split]].
  - destruct (_ && _ && _); repeat constructor.
  - destruct (_ && _ && _); repeat constructor.
  - destruct (_ && _); [apply repeated_records_path|constructor].
  - apply enum_records_path.
Qed.

Lemma schema_records_path prefix value s :
  Forall (fun e => path e = prefix) (schema_records prefix value s).
Proof.
  unfold schema_records.
  apply Forall_app; split; [|apply Forall_app; split].
  - destruct (_ && _); repeat constructor.
  - apply bound_records_path.
  - apply enum_records_path.
Qed.

Lemma object_records_path prefix value effective reported :
  Forall (fun e => path e = prefix) reported ->
  Forall (fun e => path e = prefix) (object_records prefix value effective reported).
Proof.
  intros Hr. unfold object_records. destruct (negb (o_object opts)); [constructor|].
  destruct (_ || _); [repeat constructor|].
  apply Forall_app. split; [exact Hr|].
  induction effective as [|s l IH]; simpl; [constructor|].
  apply Forall_app. split; [apply schema_records_path|exact IH].
Qed.

Section Limit.

Variable prefix : string.
Variable depth : nat.
Hypothesis at_limit : o_depth opts <= depth.

Lemma no_descent : bool_decide (depth < o_depth opts) = false.
Proof. apply bool_decide_eq_false_2. lia. Qed.

Lemma eachKey_limit rec schema props value keys : forall required errs,
  eachKey opts rec prefix depth schema props value required keys errs
  = Ret (spliceKeys required keys, errs).
Proof.
  induction keys as [|key keys IH]; intros required errs; simpl; [reflexivity|].
  rewrite no_descent. unfold bind, when, ret. apply IH.
Qed.

Lemma eachSchema_limit rec value s errs :
  eachSchema h opts hp rec prefix depth value s errs
  = eachSchema h opts hp (fun _ _ _ _ => ret tt) prefix depth value s errs.
Proof.
  unfold eachSchema, bind. now rewrite !eachKey_limit.
Qed.

Lemma emits_eachSchema rec value s :
  emits prefix (eachSchema h opts hp rec prefix depth value s) (fun _ => True).
Proof.
  unfold eachSchema. eapply emits_bind with (Q := fun _ => True).
  - intros errs. rewrite eachKey_limit. eexists _, []. rewrite app_nil_r. auto.
  - intros required' _. auto with emits.
Qed.

Lemma forEach_eachSchema_limit rec value l errs :
  forEach (fun schema _ => eachSchema h opts hp rec prefix depth value schema) l errs
  = forEach (fun schema _ =>
               eachSchema h opts hp (fun _ _ _ _ => ret tt) prefix depth value schema)
      l errs.
Proof.
  unfold forEach. generalize 0. revert errs.
  induction l as [|x l IH]; intros errs i; simpl; [reflexivity|].
  unfold bind. rewrite eachSchema_limit.
  destruct (eachSchema _ _ _ _ _ _ _ _ _) as [[[] errs']| |]; auto.
Qed.

Lemma validate_object_limit rec stack s value errs :
  validate_object h opts hp rec stack prefix depth s value errs
  = validate_object h opts hp (fun _ _ _ _ => ret tt) stack prefix depth s value errs.
Proof.
  unfold validate_object.
  destruct (negb (o_object opts)); [reflexivity|].
  destruct (_ || _); [reflexivity|].
  unfold bind.
  destruct (discriminate _ _ _ _ _ _ _ _ _) as [[[r st] errs']| |]; auto.
  simpl. destruct r; [reflexivity|]. apply forEach_eachSchema_limit.
Qed.

Lemma validate_array_limit rec schema value errs :
  validate_array h opts rec prefix depth schema value errs
  = validate_array h opts (fun _ _ _ _ => ret tt) prefix depth schema value errs.
Proof.
  unfold validate_array. rewrite no_descent. reflexivity.
Qed.

Lemma emits_uniqueScan l : forall singles index,
  emits prefix (uniqueScan h prefix singles index l) (fun _ => True).
Proof.
  induction l as [|x l IH]; intros singles index; simpl.
  - now apply emits_ret.
  - destruct (existsb _ singles); auto with emits.
Qed.

Lemma emits_validate_array rec schema value :
  emits prefix (validate_array h opts rec prefix depth schema value) (fun _ => True).
Proof.
  unfold validate_array. rewrite no_descent.
  destruct (negb (o_array opts)); [now apply emits_ret|].
  destruct value; auto with emits.
  repeat apply emits_seq; auto with emits.
  - apply emits_when, emits_uniqueScan.
  - destruct (if o_items opts then items schema else None); simpl; now apply emits_ret.
Qed.

Lemma emits_validate_object rec stack s value :
  length hp < stack ->
  emits prefix (validate_object h opts hp rec stack prefix depth s value) (fun _ => True).
Proof.
  intros Hstack. unfold validate_object.
  destruct (negb (o_object opts)); [now apply emits_ret|].
  destruct (_ || _); [apply emits_v_error|].
  eapply emits_bind; [apply (discriminate_top prefix value stack s Hstack)|].
  intros [r st] [Hr _]. simpl in *. subst r.
  apply emits_forEach. intros x _. apply emits_eachSchema.
Qed.

(** At the limit the two checkers add the records of the node, no more
    and no less. *)
Lemma validate_array_exact rec schema value errs :
  validate_array h opts rec prefix depth schema value errs
  = Ret (tt, errs ++ array_records prefix schema value).
Proof.
  unfold validate_array, array_records. rewrite no_descent.
  destruct (negb (o_array opts)); [unfold ret; now rewrite app_nil_r|].
  destruct value; try reflexivity.
  unfold bind, when.
  destruct (_ && _ && _); destruct (_ && _ && _); destruct (_ && _);
    unfold v_error, ret;
    rewrite ?uniqueScan_exact;
    (destruct (if o_items opts then items schema else None); simpl);
    rewrite enum_exact; simpl; rewrite ?app_nil_r, <- ?app_assoc; reflexivity.
Qed.

Lemma eachSchema_exact rec value s errs :
  eachSchema h opts hp rec prefix depth value s errs
  = Ret (tt, errs ++ schema_records prefix value s).
Proof.
  unfold eachSchema, schema_records. unfold bind at 1. rewrite eachKey_limit.
  unfold bind, when.
  destruct (_ && _); unfold v_error, ret; rewrite maxMin_exact, enum_exact;
    rewrite ?app_nil_r, <- ?app_assoc; reflexivity.
Qed.

Lemma forEach_eachSchema_exact rec value l errs :
  forEach (fun schema _ => eachSchema h opts hp rec prefix depth value schema) l errs
  = Ret (tt, errs ++ concat (map (schema_records prefix value) l)).
Proof.
  unfold forEach. generalize 0. revert errs.
  induction l as [|x l IH]; intros errs i; simpl.
  - unfold ret. now rewrite app_nil_r.
  - unfold bind. rewrite eachSchema_exact, IH. now rewrite <- app_assoc.
Qed.

End Limit.

(** *** What the combinators do with the verdicts of their branches *)

Lemma no_valid_branch (results : list (list error)) :
  bool_decide (length (List.filter is_nil results) = 0)
  = negb (existsb is_nil results).
Proof.
  induction results as [|e rest IH]; simpl; [reflexivity|].
  destruct (is_nil e); simpl; [reflexivity|exact IH].
Qed.

(** C5. A schema with [anyOf] (rule enabled), any value: every branch is
    validated from a fresh, empty collection, so what a branch yields
    ([results]) depends neither on the other branches nor on the errors
    accumulated so far ([errs]); the call keeps [errs] unchanged and appends
    nothing when some branch is error free, and otherwise exactly one record
    at [prefix] whose text holds the text of every failing branch. *)
Theorem anyOf_isolates_branches prefix depth s value branches results errs stack :
  o_anyOf opts = true ->
  anyOf (node hp s) = Some branches ->
  Forall2 (fun b e =>
             validate h opts hp stack (nestedPrefix prefix +:+ "  ") depth b value []
             = Ret (tt, e))
    branches results ->
  validate h opts hp (S stack) prefix depth s value errs
  = Ret (tt, errs ++
        (if existsb is_nil results then []
         else [mkError prefix
                 ("Did not match any of the schemas:" +:+ nl
                  +:+ join nl (failing_texts h (nestedPrefix prefix) 0 results))])).
Proof.
  intros Hon Hany Hres. simpl. unfold validate_body.
  rewrite Hon, Hany. unfold bind at 1.
  rewrite (anyOf_restores _ _ _ _ _ _ errs Hres).
  rewrite tally_valid, tally_errors. simpl.
  rewrite no_valid_branch.
  destruct (existsb is_nil results); simpl.
  - now rewrite app_nil_r.
  - reflexivity.
Qed.

(** C5, where the code departs from it. The branches of [anyOf] are run
    one after the other with nothing to catch what they throw: when a
    branch throws (the branches before it having returned), [validate]
    throws the same error, whatever the branches after it would yield, be
    it no error at all, and whatever was accumulated. No record is added
    and the call does not succeed. *)
Theorem anyOf_branch_throw_escapes prefix depth s value before passed b after e errs stack :
  o_anyOf opts = true ->
  anyOf (node hp s) = Some (before ++ b :: after) ->
  Forall2 (fun x r =>
             validate h opts hp stack (nestedPrefix prefix +:+ "  ") depth x value []
             = Ret (tt, r))
    before passed ->
  validate h opts hp stack (nestedPrefix prefix +:+ "  ") depth b value [] = Throw e ->
  validate h opts hp (S stack) prefix depth s value errs = Throw e.
Proof.
  intros Hon Hany Hbefore Hb. simpl. unfold validate_body.
  rewrite Hon, Hany. unfold bind at 1.
  now rewrite (anyOf_throws _ _ _ _ before passed b after e errs Hbefore Hb).
Qed.

(** C2, as far as the code goes. A schema with [oneOf] (rule enabled, no
    [anyOf] branch taken): when exactly one branch is error free the call
    returns and adds nothing; for any other count it does not add a record,
    it fails with a TypeError, [v.error.push] not being a function. *)
Theorem oneOf_count_decides prefix depth s value branches results errs stack :
  (if o_anyOf opts then anyOf (node hp s) else None) = None ->
  o_oneOf opts = true ->
  oneOf (node hp s) = Some branches ->
  Forall2 (fun b e =>
             validate h opts hp stack (nestedPrefix prefix +:+ "  ") depth b value []
             = Ret (tt, e))
    branches results ->
  validate h opts hp (S stack) prefix depth s value errs
  = if bool_decide (length (List.filter is_nil results) = 1)
    then Ret (tt, errs)
    else Throw (TypeError "v.error.push is not a function").
Proof.
  intros Hany Hon Hone Hres. simpl. unfold validate_body.
  rewrite Hany, Hon, Hone. unfold bind at 1.
  rewrite (anyOf_restores _ _ _ _ _ _ errs Hres).
  rewrite tally_valid. simpl.
  destruct (bool_decide _); reflexivity.
Qed.

(** C8, as the code has it. On any document, cyclic or not, a resolution
    given a call stack deeper than the number of nodes returns the shared
    array, in which no schema occurs twice; a call on a node entered before
    returns at once, with the value found in the visited map ([true]) and
    the shared state untouched. *)
Theorem discriminate_terminates_once prefix s value errs stack :
  length hp < stack ->
  (exists visited effective new,
     discriminate h opts hp stack fresh_state prefix s value errs
     = Ret ((DAllOf, {| d_map := visited; d_allOf := effective |}), errs ++ new)
     /\ NoDup effective)
  /\ (forall st k x errs',
        truthy_entry (d_map st !! x) = true ->
        discriminate h opts hp (S k) st prefix x value errs'
        = Ret ((DExists true, st), errs')).
Proof.
  intros Hlt. split.
  - destruct (discriminate_top prefix value stack s Hlt errs)
      as ([r [visited effective]] & new & E & _ & Hr & Hnd).
    simpl in *. subst r. exists visited, effective, new. auto.
  - intros st k x errs' Hx. simpl. now rewrite Hx.
Qed.

(** C9. At a depth that has reached the configured limit, [validate.array]
    and [validate.object] do not descend: whatever validating an element or
    a property value would do (even fail), they return normally, and what
    they add is exactly what the node itself calls for. For an array that
    is the records about its being an array, its length, the uniqueness of
    its elements and its enum. For an object it is the records about its
    being an object, what the resolution of the discriminator reports, and
    for every schema that the resolution yields the records about the
    required names, the number of properties and the enum. Every record
    is located at the node. *)
Theorem depth_limit_stops_descent prefix depth s value errs stack :
  o_depth opts <= depth ->
  length hp < stack ->
  exists effective reported,
    (exists visited,
       discriminate h opts hp stack fresh_state prefix s value errs
       = Ret ((DAllOf, {| d_map := visited; d_allOf := effective |}), errs ++ reported))
    /\ Forall (fun e => path e = prefix) (array_records prefix (node hp s) value)
    /\ Forall (fun e => path e = prefix)
         (object_records prefix value effective reported)
    /\ forall rec,
         validate_array h opts rec prefix depth (node hp s) value errs
         = Ret (tt, errs ++ array_records prefix (node hp s) value)
         /\ validate_object h opts hp rec stack prefix depth s value errs
            = Ret (tt, errs ++ object_records prefix value effective reported).
Proof.
  intros Hlim Hstack.
  destruct (discriminate_top prefix value stack s Hstack errs)
    as ([r [visited effective]] & reported & E & Fr & Hr & _).
  simpl in Hr. subst r.
  exists effective, reported.
  split; [exists visited; exact E|].
  split; [apply array_records_path|].
  split; [now apply object_records_path|].
  intros rec. split.
  - now apply validate_array_exact.
  - unfold validate_object, object_records.
    destruct (negb (o_object opts)); [unfold ret; now rewrite app_nil_r|].
    destruct (_ || _); [reflexivity|].
    unfold bind. rewrite E. simpl.
    rewrite forEach_eachSchema_exact by exact Hlim. now rewrite app_assoc.
Qed.

(** C10. When [multipleOf] is absent or zero, [numerical] is the bounds
    check followed by the enum check: the remainder is not consulted and no
    record about multiples is added. Had the test been evaluated with such
    a divisor it would have fired on every value, the remainder being NaN. *)
Theorem multipleOf_guarded descriptor prefix schema value :
  (multipleOf schema = None
   \/ exists q, multipleOf schema = Some (VNum (Num q)) /\ Qeq_bool q 0 = true) ->
  (forall errs,
     numerical h opts descriptor prefix schema value errs
     = bind (maxMin h prefix schema descriptor (o_maximum opts) (o_minimum opts)
               (maximum schema) (minimum schema) true value
               (bound h (maximum schema)) (bound h (minimum schema)))
         (fun _ => _enum h opts prefix schema value) errs)
  /\ num_eq (num_rem (num_of h value) (bound h (multipleOf schema))) (Num 0) = false.
Proof.
  intros Hm. assert (Hfalsy : truthy_opt (multipleOf schema) = false).
  { destruct Hm as [->|(q & -> & Hq)]; simpl; [reflexivity|now rewrite Hq]. }
  split.
  - intros errs. unfold numerical. rewrite Hfalsy. simpl.
    unfold bind. destruct (maxMin _ _ _ _ _ _ _ _ _ _ _ _ _) as [[[] e]| |]; reflexivity.
  - destruct Hm as [->|(q & -> & Hq)]; simpl.
    + destruct (num_of h value); reflexivity.
    + destruct (num_of h value); simpl; [reflexivity|now rewrite Hq].
Qed.

End Facts.

(** *** Worked inputs *)

Definition host0 : host := Host.make [].
Definition five : value := VNum (Num 5).

(** [{anyOf: [{type: 'number'}, {type: 'boolean'}]}] *)
Definition number_or_boolean : heap :=
  [with_anyOf [1; 2]; typed "number"; typed "boolean"].

(** [{oneOf: [{type: 'number'}, {type: 'string'}]}] *)
Definition number_xor_string : heap :=
  [with_oneOf [1; 2]; typed "number"; typed "string"].

Definition earlier : error := mkError "/a" "earlier".

Lemma anyOf_isolates_branches_witness :
  validate host0 (all_rules 10) number_or_boolean 3 "" 0 0 (VStr "x") [earlier]
  = Ret (tt, [earlier] ++
        (if existsb is_nil
              [[mkError "    " ("Expected a number. Received: " +:+ Host.smart (VStr "x"))];
               [mkError "    " ("Expected a boolean. Received: " +:+ Host.smart (VStr "x"))]]
         then []
         else [mkError ""
                 ("Did not match any of the schemas:" +:+ nl
                  +:+ join nl (failing_texts host0 (nestedPrefix "") 0
                       [[mkError "    " ("Expected a number. Received: " +:+ Host.smart (VStr "x"))];
                        [mkError "    " ("Expected a boolean. Received: " +:+ Host.smart (VStr "x"))]]))])).
Proof.
  apply (anyOf_isolates_branches host0 (all_rules 10) number_or_boolean
           "" 0 0 (VStr "x") [1; 2]).
  - reflexivity.
  - reflexivity.
  - repeat constructor.
Defined.

(** [{anyOf: [{type: 'string'}, {}]}]: the second branch accepts every
    value. *)
Definition string_or_anything : heap :=
  [with_anyOf [1; 2]; typed "string"; empty_schema].

Lemma anyOf_branch_throw_escapes_witness :
  validate host0 (all_rules 10) string_or_anything 3 "" 0 0 VNull [earlier]
  = Throw (TypeError "Cannot read property 'length' of null or undefined")
  /\ validate host0 (all_rules 10) string_or_anything 2 (nestedPrefix "" +:+ "  ") 0 2
       VNull []
     = Ret (tt, []).
Proof.
  split; [|reflexivity].
  apply (anyOf_branch_throw_escapes host0 (all_rules 10) string_or_anything
           "" 0 0 VNull [] [] 1 [2]).
  - reflexivity.
  - reflexivity.
  - constructor.
  - reflexivity.
Defined.

Lemma oneOf_count_decides_witness :
  validate host0 (all_rules 10) number_xor_string 3 "" 0 0 (VBool true) []
  = Throw (TypeError "v.error.push is not a function").
Proof.
  apply (oneOf_count_decides host0 (all_rules 10) number_xor_string
           "" 0 0 (VBool true) [1; 2]
           [[mkError "    " ("Expected a number. Received: " +:+ Host.smart (VBool true))];
            [mkError "    " ("Expected a string. Received: " +:+ Host.smart (VBool true))]]).
  - reflexivity.
  - reflexivity.
  - reflexivity.
  - repeat constructor.
Defined.

(** [validate.string] reads [value.length] before it tests the type of the
    value: with the rule enabled, [null] and [undefined] make it throw,
    whatever the schema. *)
Lemma string_check_reads_length_first (h : host) (opts : options) prefix depth
    (schema : schema) (value : value) errs :
  o_string opts = true ->
  value = VNull \/ value = VUndefined ->
  validate_string h opts prefix depth schema value errs
  = Throw (TypeError "Cannot read property 'length' of null or undefined").
Proof.
  intros Hon [->| ->]; unfold validate_string; rewrite Hon; reflexivity.
Qed.

(** C3, where the code departs from it. Validating [null] or [undefined]
    against [{type: 'string'}] reads [value.length] before the type test and
    throws; a [oneOf] whose count of matching branches is not one throws as
    well. Neither produces an error record. *)
Theorem validate_throws :
  validate host0 (all_rules 10) [typed "string"] 2 "" 0 0 VNull []
  = Throw (TypeError "Cannot read property 'length' of null or undefined")
  /\ validate host0 (all_rules 10) [typed "string"] 2 "" 0 0 VUndefined []
     = Throw (TypeError "Cannot read property 'length' of null or undefined")
  /\ validate host0 (all_rules 10) number_xor_string 3 "" 0 0 (VBool true) []
     = Throw (TypeError "v.error.push is not a function").
Proof. repeat split; reflexivity. Qed.

(** A base schema with a discriminator, a subtype that extends it through
    [allOf], and an instance that names the subtype. *)
Definition base_schema : schema :=
  {| type_ := Some "object"; format := None; anyOf := None; oneOf := None;
     allOf := None; not_ := None; items := None; properties := None;
     additionalProperties := AddlAbsent; required := None; enum := None;
     discriminator := Some (VObj [("propertyName", VStr "kind")]);
     maxItems := None; minItems := None;
     uniqueItems := None; maximum := None; minimum := None;
     exclusiveMaximum := None; exclusiveMinimum := None; multipleOf := None;
     maxLength := None; minLength := None; pattern := None;
     maxProperties := None; minProperties := None |}.

Definition pets : heap := [base_schema; with_allOf [0; 2]; typed "object"].
Definition pets_host : host := Host.make [("Cat", 1)].
Definition a_cat : value := VObj [("kind", VStr "Cat")].

(** The state in which the resolution of [a_cat] from the base schema comes
    back to the base schema: the base was entered and pushed, the subtype
    was entered. *)
Definition back_at_base : dstate := enter (push (enter fresh_state 0) 0) 1.

(** C8, where the code departs from it: on the revisit the call returns
    [true], the value kept in the visited map, and not the array accumulated
    so far (which holds the base schema at that point). *)
Lemma revisit_returns_marker :
  discriminate pets_host (all_rules 10) pets 3 back_at_base "" 0 a_cat []
  = Ret ((DExists true, back_at_base), [])
  /\ d_allOf back_at_base = [0]
  /\ (exists visited,
        discriminate pets_host (all_rules 10) pets 4 fresh_state "" 0 a_cat []
        = Ret ((DAllOf, {| d_map := visited; d_allOf := [0; 2] |}), [])).
Proof.
  split; [reflexivity|]. split; [reflexivity|].
  eexists. vm_compute. reflexivity.
Qed.

(** A schema whose [allOf] holds the schema itself. *)
Definition self_referential : heap := [with_allOf [0]].

Lemma discriminate_terminates_once_witness :
  (exists visited effective new,
     discriminate host0 (all_rules 10) self_referential 2 fresh_state "" 0 (VObj []) []
     = Ret ((DAllOf, {| d_map := visited; d_allOf := effective |}), [] ++ new)
     /\ NoDup effective)
  /\ (forall st k x errs',
        truthy_entry (d_map st !! x) = true ->
        discriminate host0 (all_rules 10) self_referential (S k) st "" x (VObj []) errs'
        = Ret ((DExists true, st), errs')).
Proof.
  apply (discriminate_terminates_once host0 (all_rules 10) self_referential
           "" 0 (VObj []) [] 2).
  simpl. lia.
Defined.

(** [{type: 'array', items: {type: 'string'}, maxItems: 1,
      properties: {0: {type: 'string'}}, required: ['a']}]: a node with
    checks of its own, for an array and for an object, and with children
    that would not pass. *)
Definition limited : heap :=
  [ {| type_ := Some "array"; format := None; anyOf := None; oneOf := None;
       allOf := None; not_ := None; items := Some 1;
       properties := Some [("0", 1)];
       additionalProperties := AddlAbsent; required := Some ["a"]; enum := None;
       discriminator := None; maxItems := Some (VNum (Num 1)); minItems := None;
       uniqueItems := None; maximum := None; minimum := None;
       exclusiveMaximum := None; exclusiveMinimum := None; multipleOf := None;
       maxLength := None; minLength := None; pattern := None;
       maxProperties := None; minProperties := None |};
    typed "string" ].

Lemma depth_limit_stops_descent_witness :
  (exists effective reported,
     (exists visited,
        discriminate host0 (all_rules 0) limited 3 fresh_state "" 0 (VArr [five; five]) []
        = Ret ((DAllOf, {| d_map := visited; d_allOf := effective |}), [] ++ reported))
     /\ Forall (fun e => path e = "")
          (array_records host0 (all_rules 0) "" (node limited 0) (VArr [five; five]))
     /\ Forall (fun e => path e = "")
          (object_records host0 (all_rules 0) limited "" (VArr [five; five])
             effective reported)
     /\ forall rec,
          validate_array host0 (all_rules 0) rec "" 0 (node limited 0)
            (VArr [five; five]) []
          = Ret (tt, [] ++ array_records host0 (all_rules 0) "" (node limited 0)
                             (VArr [five; five]))
          /\ validate_object host0 (all_rules 0) limited rec 3 "" 0 0
               (VArr [five; five]) []
             = Ret (tt, [] ++ object_records host0 (all_rules 0) limited ""
                                (VArr [five; five]) effective reported))
  /\ array_records host0 (all_rules 0) "" (node limited 0) (VArr [five; five])
     = [mkError "" "Array length above maximum length of 1 with 2 items."]
  /\ object_records host0 (all_rules 0) limited "" (VArr [five; five]) [0] []
     = [mkError "" "One or more required properties missing: a"].
Proof.
  split; [|split; reflexivity].
  apply (depth_limit_stops_descent host0 (all_rules 0) limited "" 0 0
           (VArr [five; five]) [] 3).
  - simpl. lia.
  - simpl. lia.
Defined.

(** [{type: 'number', multipleOf: 0}] *)
Definition multiple_of_zero : schema :=
  {| type_ := Some "number"; format := None; anyOf := None; oneOf := None;
     allOf := None; not_ := None; items := None; properties := None;
     additionalProperties := AddlAbsent; required := None; enum := None;
     discriminator := None; maxItems := None; minItems := None;
     uniqueItems := None; maximum := None; minimum := None;
     exclusiveMaximum := None; exclusiveMinimum := None;
     multipleOf := Some (VNum (Num 0));
     maxLength := None; minLength := None; pattern := None;
     maxProperties := None; minProperties := None |}.

Lemma multipleOf_guarded_witness :
  (forall errs,
     numerical host0 (all_rules 10) "number" "" multiple_of_zero five errs
     = bind (maxMin host0 "" multiple_of_zero "number" true true
               None None true five
               (bound host0 None) (bound host0 None))
         (fun _ => _enum host0 (all_rules 10) "" multiple_of_zero five) errs)
  /\ num_eq (num_rem (num_of host0 five) (bound host0 (Some (VNum (Num 0))))) (Num 0)
     = false.
Proof.
  apply (multipleOf_guarded host0 (all_rules 10) "number" "" multiple_of_zero five).
  right. exists 0%Q. split; reflexivity.
Defined.

End ValidateFacts.

(* ===================================================================== *)
(** ** Facts about the materializer *)
(* ===================================================================== *)

Module ApplyTemplateFacts.
Import Js ApplyTemplate.

(** [{kind: 'Dog'}] *)
Definition a_dog : value := VObj [("kind", VStr "Dog")].

(** [{a: 'y'}] *)
Definition a_is_y : value := VObj [("a", VStr "y")].

(** A schema with a discriminator and no [allOf], materialized without an
    initial value, fails on [value.hasOwnProperty]. *)
Lemma discriminator_without_value h definitions params options stack schema :
  allOf schema = None ->
  truthy_name (discriminator schema) = true ->
  applyTemplate h definitions params options (S stack) schema None
  = Throw (TypeError "Cannot read property 'hasOwnProperty' of null or undefined").
Proof.
  intros Hall Hdisc. simpl. unfold applyTemplate_body, discriminated.
  rewrite Hall, Hdisc. reflexivity.
Qed.

(** A value whose discriminator property names no schema of the
    definitions makes [second] undefined, and reading [second.allOf]
    throws. *)
Lemma discriminator_names_no_schema h definitions params options stack schema
    (value : value) name :
  allOf schema = None ->
  discriminator schema = Some name ->
  String.eqb name "" = false ->
  hasOwnProperty value name = Ret true ->
  assoc (property_key h (get value name)) definitions = None ->
  applyTemplate h definitions params options (S stack) schema (Some value)
  = Throw (TypeError "Cannot read property 'allOf' of undefined").
Proof.
  intros Hall Hdisc Hname Hown Hnone. simpl.
  unfold applyTemplate_body, discriminated, argument, truthy_name.
  rewrite Hall, Hdisc, Hname. simpl. rewrite Hown. simpl. now rewrite Hnone.
Qed.

(** C4, where the code departs from it: with a discriminator and no
    initial value, and with a discriminator whose value names a subtype
    that the definitions do not hold, [applyTemplate] throws a TypeError;
    so does the exported function. Nothing is reported as not applied. *)
Theorem applyTemplate_raises :
  applyTemplate Host.make [] (VObj []) defaults 5 animal None
  = Throw (TypeError "Cannot read property 'hasOwnProperty' of null or undefined")
  /\ applyTemplate Host.make [] (VObj []) defaults 5 animal (Some a_dog)
     = Throw (TypeError "Cannot read property 'allOf' of undefined")
  /\ materialize Host.make 5 (Some animal) None (VObj []) defaults None
     = Throw (TypeError "Cannot read property 'hasOwnProperty' of null or undefined")
  /\ materialize Host.make 5 (Some animal) None (VObj []) defaults (Some a_dog)
     = Throw (TypeError "Cannot read property 'allOf' of undefined").
Proof. repeat split; reflexivity. Qed.

(** When no member of an [allOf] applies, what comes back is the merge of
    nothing: a new empty object, whatever the value was. *)
Lemma eachAllOf_nothing_applied (rec : schema -> option value -> res data)
    (members : list schema) (valueNotProvided : bool) (value : value) :
  Forall (fun m => exists v,
            rec m (Some (if valueNotProvided then VObj [] else value))
            = Ret {| applied := false; val := v |}) members ->
  forall applications,
    eachAllOf rec members valueNotProvided value applications = Ret applications.
Proof.
  induction 1 as [|m members [v Hm] _ IH]; intros applications; simpl.
  - reflexivity.
  - rewrite Hm. simpl. apply IH.
Qed.

Lemma allOf_nothing_applied (rec : schema -> option value -> res data)
    (members : list schema) (valueNotProvided : bool) (value : value) :
  Forall (fun m => exists v,
            rec m (Some (if valueNotProvided then VObj [] else value))
            = Ret {| applied := false; val := v |}) members ->
  fromAllOf rec members valueNotProvided value
  = Ret {| applied := false; val := VObj [] |}.
Proof.
  intros H. unfold fromAllOf.
  now rewrite (eachAllOf_nothing_applied rec members _ _ H).
Qed.

(** C6, where the code departs from it: the value [{a: 'y'}] conforms to
    [{allOf: [{type: 'object', properties: {a: {type: 'string'}}}]}] and
    nothing is applied, yet the value that comes back is [{}]; against the
    member alone the same value comes back unchanged. *)
Theorem allOf_loses_the_value :
  applyTemplate Host.make [] (VObj []) defaults 5 all_of_has_a (Some a_is_y)
  = Ret {| applied := false; val := VObj [] |}
  /\ materialize Host.make 5 (Some all_of_has_a) None (VObj []) defaults (Some a_is_y)
     = Ret (VObj [])
  /\ applyTemplate Host.make [] (VObj []) defaults 5 has_a (Some a_is_y)
     = Ret {| applied := false; val := a_is_y |}.
Proof. repeat split; reflexivity. Qed.

(** The coercions that the suite of the wrapper shows (test/enforcer.js,
    'auto format'): ['1.2'] as an integer is [1], ['1.2'] as a number is
    [1.2], [''] as a boolean is [false]. *)
Example coercions_of_the_suite :
  convertTo Host.make "integer" (VStr "1.2") = VNum (Num 1)
  /\ convertTo Host.make "number" (VStr "1.2") = VNum (Num (12 # 10))
  /\ convertTo Host.make "boolean" (VStr "") = VBool false.
Proof. repeat split; reflexivity. Qed.

(** C7, where the code departs from it: with auto-format enabled the
    default of [{type: 'integer', default: '5'}] comes back as the string,
    although the coercion to the type would give the number and a bound
    variable of the same type is coerced. *)
Lemma default_is_not_coerced :
  applyTemplate Host.make [] (VObj []) defaults 5 integer_default_5 None
  = Ret {| applied := true; val := VStr "5" |}
  /\ materialize Host.make 5 (Some integer_default_5) None (VObj []) defaults None
     = Ret (VStr "5")
  /\ applyTemplate Host.make [] (VObj []) copied_defaults 5 integer_default_5 None
     = Ret {| applied := true; val := VStr "5" |}
  /\ autoFormat defaults = true
  /\ autoFormat copied_defaults = true
  /\ convertTo Host.make "integer" (VStr "5") = VNum (Num 5)
  /\ applyTemplate Host.make [] (VObj [("n", VStr "5")]) defaults 5
       integer_variable_n None
     = Ret {| applied := true; val := VNum (Num 5) |}.
Proof. repeat split; reflexivity. Qed.

(** C7, as the code has it: materializing [{type: 'integer', default: '5'}]
    without an initial value gives, when defaults are in use, the declared
    default as it stands: the text ['5'] passed through the placeholder
    injector, or its copy when defaults do not use the parameters. Neither
    the auto-format toggle nor the coercion table has a say. *)
Theorem default_returned_as_declared h definitions params options stack :
  applyTemplate h definitions params options (S stack) integer_default_5 None
  = Ret (if useDefaults options
         then {| applied := true;
                 val := if defaultsUseParams options
                        then injector options "5" params
                        else copy h (VStr "5") |}
         else {| applied := false; val := VUndefined |}).
Proof.
  simpl. unfold applyTemplate_body. simpl.
  unfold fromVariable, fromTemplate, fromDefault. simpl.
  destruct (useVariables options), (useTemplates options); simpl.
  all: destruct (useDefaults options); simpl.
  all: try (destruct (defaultsUseParams options); reflexivity).
  all: unfold is_type; destruct (getSchemaType h integer_default_5) as [t|]; simpl;
    try reflexivity.
  all: destruct (String.eqb t "array"); simpl; try reflexivity.
  all: destruct (String.eqb t "object"); simpl; try reflexivity.
  all: unfold asObject; simpl; destruct (ignoreMissingRequired options); reflexivity.
Qed.

End ApplyTemplateFacts.

(* ===================================================================== *)
(** ** More facts about bin-2/validate.js *)
(* ===================================================================== *)

Module ValidateMore.
Import Js Validate.

(** *** Computations that only append *)

(** [lift errs r]: the outcome [r] of a run that started from the empty
    collection, seen from a run that started from [errs]. *)
Definition lift {A} (errs : list error) (r : res (A * list error))
    : res (A * list error) :=
  match r with
  | Ret (a, new) => Ret (a, errs ++ new)
  | Throw e => Throw e
  | StackOverflow => StackOverflow
  end.

(** [appends m]: what [m] does from a collection [errs] is what it does
    from the empty one, with [errs] in front. *)
Definition appends {A} (m : M A) : Prop :=
  forall errs, m errs = lift errs (m []).

Lemma lift_lift {A} (a b : list error) (r : res (A * list error)) :
  lift a (lift b r) = lift (a ++ b) r.
Proof. destruct r as [[x e]| |]; simpl; [now rewrite app_assoc|reflexivity..]. Qed.

Lemma appends_ret {A} (a : A) : appends (ret a).
Proof. intros errs. unfold ret. simpl. now rewrite app_nil_r. Qed.

Lemma appends_throw {A} e : appends (@throw A e).
Proof. intros errs. reflexivity. Qed.

Lemma appends_overflow {A} : appends (@overflow A).
Proof. intros errs. reflexivity. Qed.

Lemma appends_v_error prefix msg : appends (v_error prefix msg).
Proof. intros errs. reflexivity. Qed.

Lemma appends_bind {A B} (m : M A) (k : A -> M B) :
  appends m -> (forall a, appends (k a)) -> appends (bind m k).
Proof.
  intros Hm Hk errs. unfold bind. rewrite (Hm errs).
  destruct (m []) as [[a e]| |]; simpl; [|reflexivity..].
  rewrite (Hk a (errs ++ e)), (Hk a e). now rewrite lift_lift.
Qed.

Lemma appends_when b (m : M unit) : appends m -> appends (when b m).
Proof. destruct b; simpl; auto using appends_ret. Qed.

Lemma appends_forEach {A} (f : A -> nat -> M unit) (l : list A) :
  (forall x i, appends (f x i)) -> appends (forEach f l).
Proof.
  intros Hf. unfold forEach. generalize 0.
  induction l as [|x l IH]; intros i; simpl.
  - apply appends_ret.
  - apply appends_bind; auto.
Qed.

Create HintDb appends.
#[local] Hint Resolve appends_ret appends_throw appends_overflow appends_v_error
  appends_when appends_forEach : appends.

(** Splits a computation along its binds, conditionals and matches. *)
Ltac appends_step :=
  match goal with
  | |- appends (bind _ _) => apply appends_bind; [|intros]
  | |- appends (when _ _) => apply appends_when
  | |- appends (if ?b then _ else _) => destruct b
  | |- appends (match ?x with _ => _ end) => destruct x
  | |- appends _ => solve [auto with appends]
  end.
Ltac appends := repeat appends_step.

Section Frame.

Variable h : host.
Variable opts : options.
Variable hp : heap.

Lemma appends_enum prefix schema value : appends (_enum h opts prefix schema value).
Proof. unfold _enum. appends. Qed.

Lemma appends_maxMin prefix schema type omax omin smax smin excl value mx mn :
  appends (maxMin h prefix schema type omax omin smax smin excl value mx mn).
Proof. unfold maxMin. appends. Qed.

#[local] Hint Resolve appends_enum appends_maxMin : appends.

Lemma appends_numerical descriptor prefix schema value :
  appends (numerical h opts descriptor prefix schema value).
Proof. unfold numerical. appends. Qed.

Lemma appends_member_length value : appends (member_length value).
Proof. unfold member_length. appends. Qed.

#[local] Hint Resolve appends_numerical appends_member_length : appends.

Lemma appends_validate_string prefix depth schema value :
  appends (validate_string h opts prefix depth schema value).
Proof. unfold validate_string. appends. Qed.

#[local] Hint Resolve appends_validate_string : appends.

Lemma appends_validate_binary prefix depth schema value :
  appends (validate_binary h opts prefix depth schema value).
Proof. unfold validate_binary. appends. Qed.

Lemma appends_validate_boolean prefix depth schema value :
  appends (validate_boolean h opts prefix depth schema value).
Proof. unfold validate_boolean. appends. Qed.

Lemma appends_validate_byte prefix depth schema value :
  appends (validate_byte h opts prefix depth schema value).
Proof. unfold validate_byte. appends. Qed.

Lemma appends_date descriptor prefix schema value :
  appends (date h opts descriptor prefix schema value).
Proof. unfold date. appends. Qed.

#[local] Hint Resolve appends_date : appends.

Lemma appends_validate_date prefix depth schema value :
  appends (validate_date h opts prefix depth schema value).
Proof. unfold validate_date. appends. Qed.

Lemma appends_validate_dateTime prefix depth schema value :
  appends (validate_dateTime h opts prefix depth schema value).
Proof. unfold validate_dateTime. appends. Qed.

Lemma appends_validate_integer prefix depth schema value :
  appends (validate_integer h opts prefix depth schema value).
Proof. unfold validate_integer. appends. Qed.

Lemma appends_validate_number prefix depth schema value :
  appends (validate_number h opts prefix depth schema value).
Proof. unfold validate_number. appends. Qed.

#[local] Hint Resolve appends_validate_binary appends_validate_boolean
  appends_validate_byte appends_validate_date appends_validate_dateTime
  appends_validate_integer appends_validate_number : appends.

Lemma appends_eachMember (call : dstate -> sid -> M (dret * dstate)) members :
  (forall st x, appends (call st x)) ->
  forall st, appends (eachMember call members st).
Proof.
  intros Hc. induction members as [|x rest IH]; intros st; simpl; appends; auto.
Qed.

Lemma appends_discriminate prefix value stack : forall st s,
  appends (discriminate h opts hp stack st prefix s value).
Proof.
  induction stack as [|stack IH]; intros st s; simpl; [auto with appends|].
  appends; auto using appends_eachMember.
Qed.

#[local] Hint Resolve appends_discriminate : appends.

Section Descent.

Variable rec : string -> nat -> sid -> value -> M unit.
Variable stack : nat.
Hypothesis rec_appends : forall prefix depth s value, appends (rec prefix depth s value).

Lemma appends_uniqueScan prefix l : forall singles index,
  appends (uniqueScan h prefix singles index l).
Proof.
  induction l as [|x l IH]; intros singles index; simpl; appends; auto.
Qed.

#[local] Hint Resolve appends_uniqueScan rec_appends : appends.

Lemma appends_validate_array prefix depth schema value :
  appends (validate_array h opts rec prefix depth schema value).
Proof. unfold validate_array. appends. Qed.

Lemma appends_eachKey prefix depth schema props value keys : forall required,
  appends (eachKey opts rec prefix depth schema props value required keys).
Proof.
  induction keys as [|key keys IH]; intros required; simpl; appends; auto.
Qed.

#[local] Hint Resolve appends_eachKey : appends.

Lemma appends_eachSchema prefix depth value s :
  appends (eachSchema h opts hp rec prefix depth value s).
Proof. unfold eachSchema. appends. Qed.

#[local] Hint Resolve appends_eachSchema : appends.

Lemma appends_validate_object prefix depth s value :
  appends (validate_object h opts hp rec stack prefix depth s value).
Proof. unfold validate_object. appends. Qed.

(** [anyOf] and [not] install an empty collection before they call
    [validate] and put the previous one back afterwards. *)
Lemma anyOfLoop_from_empty prefix depth value schemas : forall i acc errs,
  anyOfLoop h rec prefix depth value i schemas acc errs
  = match schemas with
    | [] => Ret (acc, errs)
    | _ => anyOfLoop h rec prefix depth value i schemas acc []
    end.
Proof. destruct schemas; reflexivity. Qed.

Lemma appends_anyOf prefix depth schemas value :
  appends (anyOf_ h rec prefix depth schemas value).
Proof.
  intros errs. unfold anyOf_, bind, get_errors, set_errors, ret.
  rewrite anyOfLoop_from_empty.
  destruct schemas as [|x rest]; [simpl; now rewrite app_nil_r|].
  destruct (anyOfLoop _ _ _ _ _ _ _ _ _) as [[r e]| |]; simpl;
    [now rewrite app_nil_r|reflexivity..].
Qed.

Lemma appends_not prefix depth schema value :
  appends (not rec prefix depth schema value).
Proof.
  intros errs. unfold not, bind, get_errors, set_errors.
  destruct (rec prefix depth schema value []) as [[[] inner]| |]; simpl;
    [|reflexivity..].
  destruct (bool_decide _); simpl; [reflexivity|now rewrite app_nil_r].
Qed.

#[local] Hint Resolve appends_validate_array appends_validate_object
  appends_anyOf appends_not : appends.

Lemma appends_validate_body prefix depth s value :
  appends (validate_body h opts hp rec stack prefix depth s value).
Proof.
  unfold validate_body.
  destruct (if o_anyOf opts then _ else _); [appends|].
  destruct (if o_oneOf opts then _ else _); [appends|].
  destruct (if o_allOf opts then _ else _); [appends|].
  destruct (if o_not opts then _ else _); [appends|].
  appends.
Qed.

End Descent.

Lemma appends_validate stack : forall prefix depth s value,
  appends (validate h opts hp stack prefix depth s value).
Proof.
  induction stack as [|stack IH]; intros prefix depth s value; simpl.
  - apply appends_overflow.
  - apply appends_validate_body. exact IH.
Qed.

(** X1. [validate] only appends to the collection of errors: run from a
    collection [errs] it does what it does from the empty collection, with
    [errs] kept in front and in order; it throws, or exhausts the call
    stack, in the same cases. What it reports does not depend on what was
    reported before. *)
Theorem validate_only_appends stack prefix depth s value errs :
  validate h opts hp stack prefix depth s value errs
  = lift errs (validate h opts hp stack prefix depth s value []).
Proof. apply appends_validate. Qed.


(** *** Combinators *)

(** No combinator of the schema is consulted: each one is absent or its
    rule is switched off. *)
Definition no_combinator (schema : schema) : Prop :=
  (if o_anyOf opts then anyOf schema else None) = None
  /\ (if o_oneOf opts then oneOf schema else None) = None
  /\ (if o_allOf opts then allOf schema else None) = None
  /\ (if o_not opts then not_ schema else None) = None.

Lemma forEach_members (rec : string -> nat -> sid -> value -> M unit)
    prefix depth value members results :
  (forall p d s v, appends (rec p d s v)) ->
  Forall2 (fun m e => rec prefix depth m value [] = Ret (tt, e)) members results ->
  forall i errs,
    forEach_from i (fun schema (_ : nat) => rec prefix depth schema value) members errs
    = Ret (tt, errs ++ concat results).
Proof.
  intros Hrec. induction 1 as [|m e members results Hm _ IH]; intros i errs; simpl.
  - unfold ret. now rewrite app_nil_r.
  - unfold bind. rewrite (Hrec _ _ _ _ errs), Hm. simpl.
    rewrite IH. now rewrite app_assoc.
Qed.

(** X2. A schema with [allOf] (rule enabled, neither [anyOf] nor [oneOf]
    taken): every member is validated at the path and depth of the schema
    itself, and the records of the members are appended one member after
    the other. *)
Theorem allOf_concatenates prefix depth s value members results errs stack :
  (if o_anyOf opts then anyOf (node hp s) else None) = None ->
  (if o_oneOf opts then oneOf (node hp s) else None) = None ->
  o_allOf opts = true ->
  allOf (node hp s) = Some members ->
  Forall2 (fun m e =>
             validate h opts hp stack prefix depth m value [] = Ret (tt, e))
    members results ->
  validate h opts hp (S stack) prefix depth s value errs
  = Ret (tt, errs ++ concat results).
Proof.
  intros Hany Hone Hon Hall Hres. simpl. unfold validate_body.
  rewrite Hany, Hone, Hon, Hall.
  unfold forEach. apply forEach_members; [|exact Hres].
  intros p d x v. apply appends_validate.
Qed.

(** X3. A schema with [not] (rule enabled, no other combinator taken): the
    records of the negated schema never reach the collection; the one record
    ['Should not pass schema.'] is added when the negated schema reports
    nothing, and nothing is added otherwise. *)
Theorem not_discards_inner_errors prefix depth s value n inner errs stack :
  (if o_anyOf opts then anyOf (node hp s) else None) = None ->
  (if o_oneOf opts then oneOf (node hp s) else None) = None ->
  (if o_allOf opts then allOf (node hp s) else None) = None ->
  o_not opts = true ->
  not_ (node hp s) = Some n ->
  validate h opts hp stack prefix depth n value [] = Ret (tt, inner) ->
  validate h opts hp (S stack) prefix depth s value errs
  = Ret (tt, errs ++ (if is_nil inner
                      then [mkError prefix "Should not pass schema."]
                      else [])).
Proof.
  intros Hany Hone Hall Hon Hnot Hinner. simpl. unfold validate_body.
  rewrite Hany, Hone, Hall, Hon, Hnot.
  unfold not, bind, get_errors, set_errors. rewrite Hinner.
  rewrite ValidateFacts.length_zero_is_nil.
  destruct (is_nil inner); simpl; [reflexivity|].
  unfold ret. now rewrite app_nil_r.
Qed.


(** *** validate.integer *)

(** A number without a fractional part. *)
Definition integral (value : value) : bool :=
  match value with
  | VNum (Num q) => (Qnum q mod Zpos (Qden q) =? 0)%Z
  | _ => false
  end.

Lemma floor_of_half_up (n : Z) (d : positive) :
  Qfloor ((n # d) + (1 # 2)) = ((2 * n + Zpos d) / (2 * Zpos d))%Z.
Proof. unfold Qfloor, Qplus. simpl. f_equal; lia. Qed.

Lemma round_fixes_integers (q : Q) :
  Qeq_bool (inject_Z (Qfloor (q + (1 # 2)))) q
  = (Qnum q mod Zpos (Qden q) =? 0)%Z.
Proof.
  destruct q as [n d]. rewrite floor_of_half_up.
  unfold Qeq_bool, inject_Z. cbn [Qnum Qden].
  destruct (Z.eqb_spec (n mod Zpos d) 0) as [Hm|Hm].
  - apply Z.eqb_eq.
    apply Z.div_exact in Hm; [|lia].
    set (m := (n / Zpos d)%Z) in *.
    replace ((2 * n + Zpos d) / (2 * Zpos d))%Z with m; [lia|].
    apply (Z.div_unique_pos _ _ m (Zpos d)); lia.
  - apply Z.eqb_neq. intros E. apply Hm.
    replace n with (((2 * n + Zpos d) / (2 * Zpos d)) * Zpos d)%Z by lia.
    apply Z.mod_mul. lia.
Qed.

(** X8. [validate.integer] lets through exactly the numbers without a
    fractional part, which it hands to the numeric checks; every other
    value (NaN, a fraction, a numeric string, a date, ...) gets the one
    record ['Expected an integer']. *)
Theorem integer_accepts_exactly_integers prefix depth schema value errs :
  o_integer opts = true ->
  validate_integer h opts prefix depth schema value errs
  = if integral value
    then numerical h opts "integer" prefix schema value errs
    else Ret (tt, errs ++ [mkError prefix
                             ("Expected an integer. Received: " +:+ smart h value)]).
Proof.
  intros Hon. unfold validate_integer. rewrite Hon.
  destruct value as [| |b|[|q]|s|t|l|fs];
    try (simpl; destruct (is_nan _); reflexivity).
  - reflexivity.
  - cbn [negb num_of is_nan Math_round strict_eq_num num_eq typeof integral orb].
    rewrite round_fixes_integers, String.eqb_refl.
    destruct (_ =? _)%Z; reflexivity.
Qed.

(** *** validate.array: uniqueItems *)

(** No element is the same as an element of [singles] or as an earlier
    element. *)
Definition all_new (singles l : list value) : Prop :=
  forall i x, l !! i = Some x ->
    (forall y, In y singles -> same h x y = false)
    /\ (forall j y, j < i -> l !! j = Some y -> same h x y = false).

Lemma all_new_cons singles x l :
  existsb (fun single => same h x single) singles = false ->
  all_new singles (x :: l) <-> all_new (singles ++ [x]) l.
Proof.
  intros Hx. split; intros H i x' Hi.
  - destruct (H (S i) x' Hi) as [H1 H2]. split.
    + intros y Hy. apply in_app_or in Hy as [Hy|[<-|[]]]; [auto|].
      apply (H2 0); [lia|reflexivity].
    + intros j y Hj Hy. apply (H2 (S j)); [lia|exact Hy].
  - destruct i as [|i]; simpl in Hi.
    + injection Hi as <-. split; [|intros j y Hj; lia].
      intros y Hy. destruct (same h x y) eqn:E; [|reflexivity].
      rewrite <- Hx. symmetry. apply existsb_exists. eauto.
    + destruct (H i x' Hi) as [H1 H2]. split.
      * intros y Hy. apply H1, in_or_app. auto.
      * intros [|j] y Hj Hy; simpl in Hy.
        -- injection Hy as <-. apply H1, in_or_app. right. now left.
        -- apply (H2 j); [lia|exact Hy].
Qed.

Lemma uniqueScan_spec prefix l : forall singles index errs,
  exists new,
    uniqueScan h prefix singles index l errs = Ret (tt, errs ++ new)
    /\ Forall (fun e => path e = prefix) new
    /\ (new = [] <-> all_new singles l).
Proof.
  induction l as [|x l IH]; intros singles index errs; simpl.
  - exists []. unfold ret. rewrite app_nil_r. split; [reflexivity|].
    split; [constructor|]. split; [|reflexivity].
    intros _ i x Hi. destruct i; discriminate.
  - destruct (existsb _ singles) eqn:Hx.
    + unfold bind, v_error.
      destruct (IH singles (S index) (errs ++ [mkError prefix
        ("Array values must be unique. Value is not unique at index "
         +:+ string_of_nat index +:+ ": " +:+ to_string h x)]))
        as (new & E & F & _).
      eexists (_ :: new). rewrite E, <- app_assoc.
      split; [reflexivity|]. split; [constructor; [reflexivity|exact F]|].
      split; [discriminate|].
      intros H. exfalso. destruct (H 0 x eq_refl) as [H1 _].
        apply existsb_exists in Hx as (y & Hy & Hs). rewrite (H1 y Hy) in Hs.
        discriminate.
    + destruct (IH (singles ++ [x]) (S index) errs) as (new & E & F & Hnew).
      exists new. split; [exact E|]. split; [exact F|]. split.
      * intros Hn. apply all_new_cons; [exact Hx|]. now apply Hnew.
      * intros Ha. apply Hnew. now apply all_new_cons in Ha.
Qed.

(** X6. With [uniqueItems], and for a schema without [maxItems],
    [minItems], [items] and [enum], [validate.array] returns normally,
    reports at the path of the array only, and reports nothing exactly when
    no element is the same (in the sense of [util.same]) as an element
    before it. *)
Theorem uniqueItems_passes_iff_distinct rec prefix depth schema l errs :
  o_array opts = true ->
  o_uniqueItems opts = true ->
  truthy_opt (uniqueItems schema) = true ->
  maxItems schema = None ->
  minItems schema = None ->
  items schema = None ->
  enum schema = None ->
  exists new,
    validate_array h opts rec prefix depth schema (VArr l) errs
    = Ret (tt, errs ++ new)
    /\ Forall (fun e => path e = prefix) new
    /\ (new = [] <->
        forall i j x y, j < i -> l !! i = Some x -> l !! j = Some y ->
                        same h x y = false).
Proof.
  intros Harr Hon Hu Hmax Hmin Hit Hen.
  destruct (uniqueScan_spec prefix l [] 0 errs) as (new & E & F & Hnew).
  exists new. split; [|split; [exact F|]].
  - unfold validate_array, _enum.
    rewrite Harr, Hon, Hu, Hmax, Hmin, Hit, Hen. simpl.
    rewrite !andb_false_r. simpl.
    destruct (o_items opts); unfold bind, when, ret; simpl; now rewrite E.
  - rewrite Hnew. split.
    + intros H i j x y Hj Hx Hy. destruct (H i x Hx) as [_ H2]. now apply (H2 j).
    + intros H i x Hx. split; [intros y []|].
      intros j y Hj Hy. now apply (H i j x y).
Qed.

(** *** validate.object: required *)

Lemma indexOf_None key (rs : list string) :
  indexOf key rs = None ->
  List.filter (fun r => negb (String.eqb key r)) rs = rs.
Proof.
  induction rs as [|r rs IH]; simpl; [reflexivity|].
  destruct (String.eqb key r); [discriminate|].
  destruct (indexOf key rs); [discriminate|].
  intros _. simpl. now rewrite IH.
Qed.

Lemma indexOf_Some key (rs : list string) index :
  NoDup rs ->
  indexOf key rs = Some index ->
  remove_at index rs = List.filter (fun r => negb (String.eqb key r)) rs.
Proof.
  intros Hnd. revert index. induction Hnd as [|r rs Hr Hnd IH]; intros index; simpl;
    [discriminate|].
  destruct (String.eqb_spec key r) as [->|Hne]; simpl.
  - intros [= <-]. unfold remove_at. simpl. rewrite drop_0.
    symmetry. apply indexOf_None.
    clear -Hr. induction rs as [|x rs IH]; simpl; [reflexivity|].
    destruct (String.eqb_spec r x) as [->|_]; [exfalso; apply Hr; left|].
    rewrite IH; [reflexivity|]. intros H. apply Hr. now right.
  - destruct (indexOf key rs) as [i|]; [|discriminate].
    intros [= <-]. unfold remove_at in *. simpl. f_equal. now apply IH.
Qed.

Lemma NoDup_filter_bool (f : string -> bool) (rs : list string) :
  NoDup rs -> NoDup (List.filter f rs).
Proof.
  induction 1 as [|r rs Hr Hnd IH]; simpl; [constructor|].
  destruct (f r); [|exact IH]. constructor; [|exact IH].
  intros H. apply Hr. apply list_elem_of_In. apply list_elem_of_In in H.
  now apply filter_In in H.
Qed.

Lemma spliceKeys_missing keys : forall rs,
  NoDup rs ->
  ValidateFacts.spliceKeys rs keys
  = List.filter (fun r => negb (existsb (String.eqb r) keys)) rs.
Proof.
  induction keys as [|key keys IH]; intros rs Hnd; simpl.
  - clear. induction rs as [|r rs IHr]; simpl; [reflexivity|]. now rewrite <- IHr.
  - assert (E : match indexOf key rs with
                | Some index => remove_at index rs
                | None => rs
                end = List.filter (fun r => negb (String.eqb key r)) rs).
    { destruct (indexOf key rs) eqn:Hi;
        [now apply indexOf_Some|symmetry; now apply indexOf_None]. }
    rewrite E, IH; [|now apply NoDup_filter_bool].
    clear. induction rs as [|r rs IHr]; simpl; [reflexivity|].
    rewrite (String.eqb_sym key r).
    destruct (String.eqb r key); simpl; [exact IHr|].
    destruct (existsb _ keys); simpl; [exact IHr|now rewrite IHr].
Qed.

Lemma has_key_existsb {A} r (fs : list (string * A)) :
  has_key r fs = existsb (String.eqb r) fs.*1.
Proof.
  unfold has_key. induction fs as [|[k x] fs IH]; simpl; [reflexivity|].
  destruct (String.eqb r k); [reflexivity|exact IH].
Qed.

Lemma eachKey_undeclared rec prefix depth schema value keys :
  additionalProperties schema = AddlAbsent ->
  forall required errs,
    eachKey opts rec prefix depth schema [] value required keys errs
    = Ret (ValidateFacts.spliceKeys required keys, errs).
Proof.
  intros Hadd. induction keys as [|key keys IH]; intros required errs; simpl;
    [reflexivity|].
  rewrite Hadd. unfold bind.
  destruct (bool_decide _), (o_additionalProperties opts); simpl; apply IH.
Qed.

(** The names of [rs] that [fs] does not own. *)
Definition missing (rs : list string) (fs : list (string * value)) : list string :=
  List.filter (fun r => negb (has_key r fs)) rs.

(** X7. [validate.object] on an object, for a schema that declares
    [required] without repeating a name (and no properties, bounds or enum):
    one record is added when a required name is not an own key of the
    value, and its text lists exactly the missing names, in the order of
    [required]; nothing is added when none is missing. *)
Theorem required_names_reported rec prefix depth s fs rs errs stack :
  o_object opts = true ->
  o_required opts = true ->
  (if o_allOf opts then allOf (node hp s) else None) = None ->
  o_discriminator opts && truthy_opt (discriminator (node hp s)) = false ->
  properties (node hp s) = None ->
  additionalProperties (node hp s) = AddlAbsent ->
  maxProperties (node hp s) = None ->
  minProperties (node hp s) = None ->
  enum (node hp s) = None ->
  required (node hp s) = Some rs ->
  NoDup rs ->
  validate_object h opts hp rec (S stack) prefix depth s (VObj fs) errs
  = Ret (tt, errs ++
         if is_nil (missing rs fs) then []
         else [mkError prefix ("One or more required properties missing: "
                               +:+ join ", " (missing rs fs))]).
Proof.
  intros Hobj Hreq Hall Hdis Hprops Hadd Hmax Hmin Hen Hrs Hnd.
  unfold validate_object. rewrite Hobj. simpl.
  rewrite Hall, Hdis. unfold bind at 1. rewrite lookup_empty. simpl.
  unfold forEach. simpl. unfold eachSchema.
  rewrite Hprops, Hreq, Hrs, Hmax, Hmin. simpl.
  unfold bind at 1 2. rewrite eachKey_undeclared by exact Hadd.
  rewrite spliceKeys_missing by exact Hnd.
  unfold Object_keys. simpl.
  replace (List.filter _ rs) with (missing rs fs).
  2:{ unfold missing. clear. induction rs as [|r rs IH]; simpl; [reflexivity|].
      rewrite has_key_existsb, IH. reflexivity. }
  unfold maxMin, _enum. rewrite Hen, !andb_false_r. simpl.
  destruct (missing rs fs) as [|m ms]; simpl.
  - unfold bind, ret. simpl. now rewrite app_nil_r.
  - reflexivity.
Qed.

(** *** nestedPrefix *)

Lemma leading_spaces_spaces n : leading_spaces (spaces n) = n.
Proof.
  induction n as [|n IH]; [reflexivity|].
  change (spaces (S n)) with (String (Ascii.ascii_of_nat 32) (spaces n)).
  cbn [leading_spaces]. rewrite Ascii.eqb_refl. now rewrite IH.
Qed.

Lemma length_spaces n : String.length (spaces n) = n.
Proof.
  induction n as [|n IH]; [reflexivity|].
  change (spaces (S n)) with (String (Ascii.ascii_of_nat 32) (spaces n)).
  cbn [String.length]. now rewrite IH.
Qed.

(** X11. [nestedPrefix] keeps the indentation of the prefix and nothing
    else: the result is made of blanks, two more than the prefix starts
    with, so nesting twice indents by four. *)
Theorem nestedPrefix_is_indentation prefix :
  String.length (nestedPrefix prefix) = leading_spaces prefix + 2
  /\ leading_spaces (nestedPrefix prefix) = leading_spaces prefix + 2
  /\ nestedPrefix (nestedPrefix prefix) = spaces (leading_spaces prefix + 4).
Proof.
  unfold nestedPrefix. rewrite length_spaces, !leading_spaces_spaces.
  repeat split. f_equal. lia.
Qed.


(** *** validate: what is left unchecked *)

(** X10. A schema of type string for which no combinator is consulted
    ([anyOf], [oneOf], [allOf] and [not] absent or switched off) and whose
    [format] is none of binary, byte, date, date-time and the empty string
    is not checked at all: whatever the value, a string or not, and
    whatever string keyword the schema declares ([maxLength], [minLength],
    [pattern], [enum]), nothing is added. *)
Theorem unknown_format_is_unchecked prefix depth s value errs stack f :
  no_combinator (node hp s) ->
  schemaType h (node hp s) = Some "string" ->
  format (node hp s) = Some f ->
  ~ In f ["binary"; "byte"; "date"; "date-time"; ""] ->
  validate h opts hp (S stack) prefix depth s value errs = Ret (tt, errs).
Proof.
  intros (Hany & Hone & Hall & Hnot) Htype Hformat Hf. simpl. unfold validate_body.
  rewrite Hany, Hone, Hall, Hnot, Htype, Hformat.
  assert (H1 : f <> "binary") by (intros ->; apply Hf; simpl; auto).
  assert (H2 : f <> "byte") by (intros ->; apply Hf; simpl; auto).
  assert (H3 : f <> "date") by (intros ->; apply Hf; simpl; auto).
  assert (H4 : f <> "date-time") by (intros ->; apply Hf; simpl; auto).
  assert (H5 : f <> "") by (intros ->; apply Hf; simpl; auto 6).
  clear Hf Hformat.
  repeat match goal with
         | |- context [match ?x with _ => _ end] => destruct x
         end;
    solve [reflexivity | congruence].
Qed.

(** *** validate.string *)

(** X9. [validate.string] (rule enabled) throws in two cases only: the
    value is [null] or [undefined], or the value is a string and the
    pattern of the schema is checked and is not a regular expression. *)
Theorem validate_string_throws_iff prefix depth schema value errs :
  o_string opts = true ->
  (exists e, validate_string h opts prefix depth schema value errs = Throw e)
  <-> (value = VNull \/ value = VUndefined
       \/ exists text pat,
            value = VStr text /\ o_pattern opts = true
            /\ pattern schema = Some pat /\ RegExp_test h pat text = None).
Proof.
  intros Hon. unfold validate_string. rewrite Hon. simpl.
  destruct value as [| |b|n|text|t|l|fs]; simpl;
    try (split; [intros [e E]; discriminate E
                |intros [E|[E|(x & pat & E & _)]]; discriminate E]).
  - split; [auto|]. intros _. eexists. reflexivity.
  - split; [auto|]. intros _. eexists. reflexivity.
  - unfold bind at 1, ret at 1. simpl.
    match goal with
    | |- context [bind ?m1 (fun _ => bind ?m2 (fun _ => bind ?p (fun _ => ?q))) errs] =>
        assert (H1 : ValidateFacts.emits prefix m1 (fun _ => True))
          by apply ValidateFacts.emits_when, ValidateFacts.emits_v_error;
        assert (H2 : ValidateFacts.emits prefix m2 (fun _ => True))
          by apply ValidateFacts.emits_when, ValidateFacts.emits_v_error;
        assert (H3 : ValidateFacts.emits prefix q (fun _ => True))
          by apply ValidateFacts.emits_enum;
        generalize dependent m1; generalize dependent m2;
        generalize dependent q
    end.
    intros q H3 m2 H2 m1 H1.
    destruct (H1 errs) as ([] & n1 & E1 & _).
    destruct (H2 (errs ++ n1)) as ([] & n2 & E2 & _).
    unfold bind at 1. rewrite E1. unfold bind at 1. rewrite E2.
    unfold bind at 1.
    destruct (o_pattern opts); [destruct (pattern schema) as [pat|]|].
    + destruct (RegExp_test h pat text) as [[|]|] eqn:Ht.
      * unfold ret. destruct (H3 ((errs ++ n1) ++ n2)) as ([] & n3 & E3 & _).
        rewrite E3.
        split; [intros [e E]; discriminate E|].
        intros [E|[E|(x & p & [= <-] & _ & [= <-] & Hx)]]; congruence.
      * unfold v_error.
        match goal with
        | |- context [q ?e] => destruct (H3 e) as ([] & n3 & E3 & _)
        end.
        rewrite E3.
        split; [intros [e E]; discriminate E|].
        intros [E|[E|(x & p & [= <-] & _ & [= <-] & Hx)]]; congruence.
      * split; [|intros _; eexists; reflexivity].
        intros _. right. right. exists text, pat. auto.
    + unfold ret. destruct (H3 ((errs ++ n1) ++ n2)) as ([] & n3 & E3 & _).
      rewrite E3.
      split; [intros [e E]; discriminate E|].
      intros [E|[E|(x & p & _ & _ & E & _)]]; discriminate E.
    + unfold ret. destruct (H3 ((errs ++ n1) ++ n2)) as ([] & n3 & E3 & _).
      rewrite E3.
      split; [intros [e E]; discriminate E|].
      intros [E|[E|(x & p & _ & E & _)]]; discriminate E.
Qed.

(** *** validate.array: items *)

Lemma forEach_items (rec : string -> nat -> sid -> value -> M unit)
    prefix depth it (f : nat -> value -> list error) l :
  (forall p d s v, appends (rec p d s v)) ->
  forall k errs,
    (forall i x, l !! i = Some x ->
       rec (prefix +:+ "/" +:+ string_of_nat (k + i)) depth it x [] = Ret (tt, f (k + i) x)) ->
    forEach_from k
      (fun val index => rec (prefix +:+ "/" +:+ string_of_nat index) depth it val) l errs
    = Ret (tt, errs ++ concat (imap (fun i => f (k + i)) l)).
Proof.
  intros Hrec. induction l as [|x l IH]; intros k errs Hl; simpl.
  - unfold ret. now rewrite app_nil_r.
  - unfold bind. rewrite (Hrec _ _ _ _ errs).
    specialize (Hl 0 x eq_refl) as H0. rewrite Nat.add_0_r in H0. rewrite H0. simpl.
    rewrite (IH (S k)).
    + rewrite Nat.add_0_r, <- app_assoc.
      assert (E : imap (fun i => f (S k + i)) l = imap ((fun i => f (k + i)) ∘ S) l).
      { apply imap_ext. intros i y _. simpl. f_equal. lia. }
      now rewrite E.
    + intros i y Hi. replace (S k + i) with (k + S i) by lia. now apply Hl.
Qed.

(** X5. Below the depth limit, [validate.array] validates the elements in
    order, element [i] at the path [prefix/i] and one level deeper, and
    appends what each of them yields; a schema that holds nothing but
    [items] adds nothing of its own. *)
Theorem array_items_in_order prefix depth schema it l f errs stack :
  o_array opts = true ->
  o_items opts = true ->
  items schema = Some it ->
  depth < o_depth opts ->
  maxItems schema = None ->
  minItems schema = None ->
  o_uniqueItems opts && truthy_opt (uniqueItems schema) = false ->
  enum schema = None ->
  (forall i x, l !! i = Some x ->
     validate h opts hp stack (prefix +:+ "/" +:+ string_of_nat i) (depth + 1) it x []
     = Ret (tt, f i x)) ->
  validate_array h opts (validate h opts hp stack) prefix depth schema (VArr l) errs
  = Ret (tt, errs ++ concat (imap f l)).
Proof.
  intros Harr Hitems Hit Hdepth Hmax Hmin Hu Hen Hl.
  unfold validate_array, _enum.
  rewrite Harr, Hitems, Hit, Hmax, Hmin, Hu, Hen. simpl.
  rewrite !andb_false_r. simpl.
  rewrite bool_decide_eq_true_2 by exact Hdepth.
  unfold bind, when, ret. simpl. unfold forEach.
  rewrite (forEach_items (validate h opts hp stack) prefix (depth + 1) it f l).
  - reflexivity.
  - intros p d x v. apply appends_validate.
  - exact Hl.
Qed.


(** *** anyOf: the tally *)

Lemma tally_messages prefix results : forall i acc,
  length (r_messages (tally h prefix i results acc))
  = length (r_messages acc) + length results.
Proof.
  induction results as [|e rest IH]; intros i acc; simpl; [lia|].
  rewrite IH. destruct (is_nil e); simpl; rewrite length_app; simpl; lia.
Qed.

Lemma failing_texts_length prefix results : forall i,
  length (failing_texts h prefix i results) + length (List.filter is_nil results)
  = length results.
Proof.
  induction results as [|e rest IH]; intros i; simpl; [reflexivity|].
  specialize (IH (S i)). destruct (is_nil e); simpl; lia.
Qed.

(** X4. [anyOf] hands back the collection it found and a tally of its
    branches: [valid] counts the branches that reported nothing, [errors]
    holds one text for each of the others, [messages] one line for every
    branch. *)
Theorem anyOf_tallies_every_branch prefix depth value branches results errs stack :
  Forall2 (fun b e =>
             validate h opts hp stack (prefix +:+ "  ") depth b value [] = Ret (tt, e))
    branches results ->
  exists result,
    anyOf_ h (validate h opts hp stack) prefix depth branches value errs
    = Ret (result, errs)
    /\ r_valid result = length (List.filter is_nil results)
    /\ r_valid result + length (r_errors result) = length branches
    /\ length (r_messages result) = length branches.
Proof.
  intros Hres. eexists. split.
  - apply ValidateFacts.anyOf_restores. exact Hres.
  - rewrite ValidateFacts.tally_valid, ValidateFacts.tally_errors, tally_messages.
    simpl. pose proof (failing_texts_length prefix results 0) as Hlen.
    apply Forall2_length in Hres. repeat split; lia.
Qed.

(** *** validate.object: the keys of the value *)

(** What the loop over the keys adds for one key, given what validating
    the declared properties yields. *)
Definition key_verdict (prefix : string) (props : list (string * sid))
    (f : string -> list error) (key : string) : list error :=
  match assoc key props with
  | Some _ => f key
  | None => [mkError (prefix +:+ "/" +:+ key) "Property not allowed"]
  end.

Lemma eachKey_closed (rec : string -> nat -> sid -> value -> M unit)
    prefix depth schema props value f keys :
  (forall p d s v, appends (rec p d s v)) ->
  depth < o_depth opts ->
  o_properties opts = true ->
  o_additionalProperties opts = true ->
  additionalProperties schema = AddlBool false ->
  (forall key sub, In key keys -> assoc key props = Some sub ->
     rec (prefix +:+ "/" +:+ key) (depth + 1) sub (get value key) [] = Ret (tt, f key)) ->
  forall errs,
    eachKey opts rec prefix depth schema props value [] keys errs
    = Ret ([], errs ++ concat (map (key_verdict prefix props f) keys)).
Proof.
  intros Hrec Hdepth Hprops Hadd Hfalse.
  induction keys as [|key keys IH]; intros Hkeys errs; simpl.
  - unfold ret. now rewrite app_nil_r.
  - rewrite bool_decide_eq_true_2 by exact Hdepth.
    rewrite Hprops, Hadd, Hfalse. unfold bind, when. unfold key_verdict at 1.
    destruct (assoc key props) as [sub|] eqn:Hk.
    + rewrite (Hrec _ _ _ _ errs), (Hkeys key sub) by (simpl; auto). simpl.
      rewrite IH by (intros k sub' Hin; apply Hkeys; now right).
      now rewrite <- app_assoc.
    + unfold v_error.
      rewrite IH by (intros k sub' Hin; apply Hkeys; now right).
      now rewrite <- app_assoc.
Qed.

(** X22. Below the depth limit, [validate.object] goes through the own
    keys of the value in order: a declared property is validated at the
    path [prefix/key] and one level deeper, and with
    [additionalProperties: false] every other key gets the one record
    ['Property not allowed'] at [prefix/key]; the records come in the order
    of the keys. *)
Theorem object_keys_in_order prefix depth s fs props f errs stack :
  o_object opts = true ->
  depth < o_depth opts ->
  o_properties opts = true ->
  o_additionalProperties opts = true ->
  (if o_allOf opts then allOf (node hp s) else None) = None ->
  o_discriminator opts && truthy_opt (discriminator (node hp s)) = false ->
  properties (node hp s) = Some props ->
  additionalProperties (node hp s) = AddlBool false ->
  (if o_required opts then required (node hp s) else None) = None ->
  maxProperties (node hp s) = None ->
  minProperties (node hp s) = None ->
  enum (node hp s) = None ->
  (forall key sub, In key fs.*1 -> assoc key props = Some sub ->
     validate h opts hp (S stack) (prefix +:+ "/" +:+ key) (depth + 1) sub
       (get (VObj fs) key) []
     = Ret (tt, f key)) ->
  validate_object h opts hp (validate h opts hp (S stack)) (S stack) prefix depth s
    (VObj fs) errs
  = Ret (tt, errs ++ concat (map (key_verdict prefix props f) fs.*1)).
Proof.
  intros Hobj Hdepth Hprops Hadd Hall Hdis Hp Hfalse Hreq Hmax Hmin Hen Hkeys.
  assert (Hrec : forall p d x v, appends (validate h opts hp (S stack) p d x v))
    by (intros p d x v; apply appends_validate).
  set (rec := validate h opts hp (S stack)) in *.
  unfold validate_object. rewrite Hobj. simpl.
  rewrite Hall, Hdis. unfold bind at 1. rewrite lookup_empty. simpl.
  unfold forEach. simpl. unfold eachSchema.
  rewrite Hp, Hreq, Hmax, Hmin. simpl.
  unfold bind at 1 2.
  rewrite (eachKey_closed rec prefix depth (node hp s) props
             (VObj fs) f (Object_keys (VObj fs))); auto.
  unfold maxMin, _enum. rewrite Hen, !andb_false_r. simpl.
  unfold bind, when, ret. reflexivity.
Qed.

(** *** validate.number: bounds *)

Lemma num_gt_spec x y : num_gt (Num x) (Num y) = true <-> (y < x)%Q.
Proof.
  unfold num_gt, num_lt. rewrite andb_true_iff, negb_true_iff, Qle_bool_iff.
  rewrite <- not_true_iff_false, Qeq_bool_iff. split.
  - intros [Hle Hne]. apply Qle_lteq in Hle as [Hlt|Heq]; [exact Hlt|now contradiction Hne].
  - intros Hlt. split; [now apply Qlt_le_weak|]. intros Heq. rewrite Heq in Hlt.
    now apply Qlt_irrefl in Hlt.
Qed.

Lemma num_ge_spec x y : num_ge (Num x) (Num y) = true <-> (y <= x)%Q.
Proof. unfold num_ge, num_le. apply Qle_bool_iff. Qed.

(** X23. [validate.number] on a number, for a schema with [maximum] and
    [minimum] (no [multipleOf], no [enum]): it returns normally, and adds
    nothing exactly when the number lies between the bounds, a bound being
    excluded when its [exclusiveMaximum] or [exclusiveMinimum] is set. *)
Theorem number_passes_iff_within_bounds prefix depth schema x lo hi errs :
  o_number opts = true ->
  o_maximum opts = true ->
  o_minimum opts = true ->
  maximum schema = Some (VNum (Num hi)) ->
  minimum schema = Some (VNum (Num lo)) ->
  multipleOf schema = None ->
  enum schema = None ->
  exists new,
    validate_number h opts prefix depth schema (VNum (Num x)) errs
    = Ret (tt, errs ++ new)
    /\ (new = [] <->
        (if truthy_opt (exclusiveMaximum schema) then (x < hi)%Q else (x <= hi)%Q)
        /\ (if truthy_opt (exclusiveMinimum schema) then (lo < x)%Q else (lo <= x)%Q)).
Proof.
  intros Hnum Hmax Hmin Hhi Hlo Hmul Hen.
  unfold validate_number. rewrite Hnum. cbn [negb num_of is_nan typeof orb].
  rewrite String.eqb_refl. cbn [negb].
  unfold numerical, maxMin, _enum. rewrite Hmax, Hmin, Hhi, Hlo, Hmul, Hen.
  cbn [truthy_opt andb bound num_of negb when].
  rewrite !bool_decide_eq_true_2 by eauto. cbn [andb].
  change (num_le (Num x) (Num lo)) with (num_ge (Num lo) (Num x)).
  change (num_lt (Num x) (Num lo)) with (num_gt (Num lo) (Num x)).
  destruct (truthy_opt (exclusiveMaximum schema)), (truthy_opt (exclusiveMinimum schema));
    cbn [andb].
  all: repeat match goal with
       | |- context [num_ge (Num ?a) (Num ?b)] =>
           let E := fresh "E" in
           destruct (num_ge (Num a) (Num b)) eqn:E;
           [apply num_ge_spec in E
           |apply not_true_iff_false in E; rewrite num_ge_spec in E]
       | |- context [num_gt (Num ?a) (Num ?b)] =>
           let E := fresh "E" in
           destruct (num_gt (Num a) (Num b)) eqn:E;
           [apply num_gt_spec in E
           |apply not_true_iff_false in E; rewrite num_gt_spec in E]
       end.
  all: unfold bind, v_error, when, ret; simpl.
  all: eexists; split;
    [first [rewrite app_nil_r; reflexivity
           | rewrite <- app_assoc; reflexivity | reflexivity]|].
  all: split; [try discriminate|].
  all: try (intros _; split; lra).
  all: intros [H1 H2]; exfalso; lra.
Qed.

(** *** validate.object: an unknown discriminator *)

(** X26. [validate.object] reports a discriminator that names no schema,
    it does not throw: for a schema with a discriminator (and nothing else
    to check) whose value resolves to no schema, the one record
    ['Undefined discriminator schema: ...'] is added at the path of the
    object. *)
Theorem unknown_discriminator_is_reported rec prefix depth s fs errs stack :
  o_object opts = true ->
  (if o_allOf opts then allOf (node hp s) else None) = None ->
  o_discriminator opts = true ->
  truthy_opt (discriminator (node hp s)) = true ->
  getDiscriminatorSchema h (node hp s) (VObj fs) = None ->
  properties (node hp s) = None ->
  additionalProperties (node hp s) = AddlAbsent ->
  (if o_required opts then required (node hp s) else None) = None ->
  maxProperties (node hp s) = None ->
  minProperties (node hp s) = None ->
  enum (node hp s) = None ->
  validate_object h opts hp rec (S stack) prefix depth s (VObj fs) errs
  = Ret (tt, errs ++
         [mkError prefix
            ("Undefined discriminator schema: "
             +:+ to_string h (getDiscriminatorKey h (node hp s) (VObj fs)))]).
Proof.
  intros Hobj Hall Hon Hdis Hnone Hprops Hadd Hreq Hmax Hmin Hen.
  unfold validate_object. rewrite Hobj. simpl.
  rewrite Hall, Hon, Hdis, Hnone. unfold bind at 1. rewrite lookup_empty. simpl.
  unfold forEach. simpl. unfold eachSchema.
  rewrite Hprops, Hreq, Hmax, Hmin. simpl.
  unfold bind at 1 2. rewrite eachKey_undeclared by exact Hadd.
  unfold maxMin, _enum. rewrite Hen, !andb_false_r. simpl.
  unfold bind, when, ret. simpl.
  assert (E : ValidateFacts.spliceKeys [] (Object_keys (VObj fs)) = []).
  { generalize (Object_keys (VObj fs)). intros l. induction l; simpl; auto. }
  rewrite E. simpl. rewrite andb_false_r. reflexivity.
Qed.

End Frame.

(** *** Worked inputs *)

(** [{allOf: [{type: 'number'}, {type: 'boolean'}]}] *)
Definition number_and_boolean : heap :=
  [with_allOf [1; 2]; typed "number"; typed "boolean"].

Lemma allOf_concatenates_witness :
  validate ValidateFacts.host0 (all_rules 10) number_and_boolean 3 "/a" 0 0 (VStr "x") []
  = Ret (tt, [] ++ concat
          [[mkError "/a" ("Expected a number. Received: " +:+ Host.smart (VStr "x"))];
           [mkError "/a" ("Expected a boolean. Received: " +:+ Host.smart (VStr "x"))]]).
Proof.
  apply (allOf_concatenates ValidateFacts.host0 (all_rules 10) number_and_boolean
           "/a" 0 0 (VStr "x") [1; 2]).
  - reflexivity.
  - reflexivity.
  - reflexivity.
  - reflexivity.
  - repeat constructor.
Defined.

(** [{not: {type: 'number'}}] *)
Definition not_a_number : heap :=
  [ {| type_ := None; format := None; anyOf := None; oneOf := None;
       allOf := None; not_ := Some 1; items := None; properties := None;
       additionalProperties := AddlAbsent; required := None; enum := None;
       discriminator := None; maxItems := None; minItems := None;
       uniqueItems := None; maximum := None; minimum := None;
       exclusiveMaximum := None; exclusiveMinimum := None; multipleOf := None;
       maxLength := None; minLength := None; pattern := None;
       maxProperties := None; minProperties := None |};
    typed "number" ].

Lemma not_discards_inner_errors_witness :
  validate ValidateFacts.host0 (all_rules 10) not_a_number 2 "/a" 0 0 (VNum (Num 5)) []
  = Ret (tt, [] ++ (if is_nil (@nil error)
                    then [mkError "/a" "Should not pass schema."]
                    else [])).
Proof.
  apply (not_discards_inner_errors ValidateFacts.host0 (all_rules 10) not_a_number
           "/a" 0 0 (VNum (Num 5)) 1 []); reflexivity.
Defined.

Lemma integer_accepts_exactly_integers_witness :
  validate_integer ValidateFacts.host0 (all_rules 10) "/a" 0 (typed "integer") (VNum (Num (5 # 2))) []
  = if integral (VNum (Num (5 # 2)))
    then numerical ValidateFacts.host0 (all_rules 10) "integer" "/a" (typed "integer")
           (VNum (Num (5 # 2))) []
    else Ret (tt, [] ++ [mkError "/a"
                           ("Expected an integer. Received: "
                            +:+ smart ValidateFacts.host0 (VNum (Num (5 # 2))))]).
Proof.
  apply (integer_accepts_exactly_integers ValidateFacts.host0 (all_rules 10) "/a" 0
           (typed "integer") (VNum (Num (5 # 2))) []).
  reflexivity.
Defined.

(** [{type: 'array', uniqueItems: true}] *)
Definition unique_array : schema :=
  {| type_ := Some "array"; format := None; anyOf := None; oneOf := None;
     allOf := None; not_ := None; items := None; properties := None;
     additionalProperties := AddlAbsent; required := None; enum := None;
     discriminator := None; maxItems := None; minItems := None;
     uniqueItems := Some (VBool true); maximum := None; minimum := None;
     exclusiveMaximum := None; exclusiveMinimum := None; multipleOf := None;
     maxLength := None; minLength := None; pattern := None;
     maxProperties := None; minProperties := None |}.

Lemma uniqueItems_passes_iff_distinct_witness :
  exists new,
    validate_array ValidateFacts.host0 (all_rules 10) (fun _ _ _ _ => ret tt) "/a" 0 unique_array
      (VArr [VNum (Num 1); VNum (Num 2); VNum (Num 1)]) []
    = Ret (tt, [] ++ new)
    /\ Forall (fun e => path e = "/a") new
    /\ (new = [] <->
        forall i j x y, j < i ->
          [VNum (Num 1); VNum (Num 2); VNum (Num 1)] !! i = Some x ->
          [VNum (Num 1); VNum (Num 2); VNum (Num 1)] !! j = Some y ->
          same ValidateFacts.host0 x y = false).
Proof.
  apply (uniqueItems_passes_iff_distinct ValidateFacts.host0 (all_rules 10)
           (fun _ _ _ _ => ret tt) "/a" 0 unique_array
           [VNum (Num 1); VNum (Num 2); VNum (Num 1)] []); reflexivity.
Defined.

(** [{type: 'object', required: ['a', 'b', 'c']}] *)
Definition needs_a_b_c : heap :=
  [ {| type_ := Some "object"; format := None; anyOf := None; oneOf := None;
       allOf := None; not_ := None; items := None; properties := None;
       additionalProperties := AddlAbsent; required := Some ["a"; "b"; "c"];
       enum := None;
       discriminator := None; maxItems := None; minItems := None;
       uniqueItems := None; maximum := None; minimum := None;
       exclusiveMaximum := None; exclusiveMinimum := None; multipleOf := None;
       maxLength := None; minLength := None; pattern := None;
       maxProperties := None; minProperties := None |} ].

Lemma required_names_reported_witness :
  validate_object ValidateFacts.host0 (all_rules 10) needs_a_b_c (fun _ _ _ _ => ret tt) 1 "/o" 0 0
    (VObj [("b", VNum (Num 1))]) []
  = Ret (tt, [] ++
         if is_nil (missing ["a"; "b"; "c"] [("b", VNum (Num 1))]) then []
         else [mkError "/o" ("One or more required properties missing: "
                             +:+ join ", " (missing ["a"; "b"; "c"] [("b", VNum (Num 1))]))]).
Proof.
  apply (required_names_reported ValidateFacts.host0 (all_rules 10) needs_a_b_c
           (fun _ _ _ _ => ret tt) "/o" 0 0 [("b", VNum (Num 1))] ["a"; "b"; "c"] [] 0);
    try reflexivity.
  apply (bool_decide_unpack (NoDup ["a"; "b"; "c"])). vm_compute. exact I.
Defined.

(** [{type: 'string', format: 'email'}] *)
Definition email : heap :=
  [ {| type_ := Some "string"; format := Some "email"; anyOf := None; oneOf := None;
       allOf := None; not_ := None; items := None; properties := None;
       additionalProperties := AddlAbsent; required := None; enum := None;
       discriminator := None; maxItems := None; minItems := None;
       uniqueItems := None; maximum := None; minimum := None;
       exclusiveMaximum := None; exclusiveMinimum := None; multipleOf := None;
       maxLength := Some (VNum (Num 3)); minLength := None; pattern := None;
       maxProperties := None; minProperties := None |} ].

Lemma unknown_format_is_unchecked_witness :
  validate ValidateFacts.host0 (all_rules 10) email 1 "/a" 0 0 (VNum (Num 5)) [] = Ret (tt, []).
Proof.
  apply (unknown_format_is_unchecked ValidateFacts.host0 (all_rules 10) email
           "/a" 0 0 (VNum (Num 5)) [] 0 "email").
  - repeat split; reflexivity.
  - reflexivity.
  - reflexivity.
  - intros [H|[H|[H|[H|[H|[]]]]]]; discriminate H.
Defined.

Lemma validate_string_throws_iff_witness :
  (exists e, validate_string ValidateFacts.host0 (all_rules 10) "/a" 0 (typed "string") VNull []
             = Throw e)
  <-> (VNull = VNull \/ VNull = VUndefined
       \/ exists text pat,
            VNull = VStr text /\ o_pattern (all_rules 10) = true
            /\ pattern (typed "string") = Some pat
            /\ RegExp_test ValidateFacts.host0 pat text = None).
Proof.
  apply (validate_string_throws_iff ValidateFacts.host0 (all_rules 10) "/a" 0 (typed "string") VNull []).
  reflexivity.
Defined.

(** [{type: 'array', items: {type: 'string'}}] *)
Definition array_of_strings : heap :=
  [ {| type_ := Some "array"; format := None; anyOf := None; oneOf := None;
       allOf := None; not_ := None; items := Some 1; properties := None;
       additionalProperties := AddlAbsent; required := None; enum := None;
       discriminator := None; maxItems := None; minItems := None;
       uniqueItems := None; maximum := None; minimum := None;
       exclusiveMaximum := None; exclusiveMinimum := None; multipleOf := None;
       maxLength := None; minLength := None; pattern := None;
       maxProperties := None; minProperties := None |};
    typed "string" ].

(** What validating an element against [{type: 'string'}] yields. *)
Definition string_verdict (i : nat) (x : value) : list error :=
  match x with
  | VStr _ => []
  | _ => [mkError ("/a/" +:+ string_of_nat i)
            ("Expected a string. Received: " +:+ Host.smart x)]
  end.

Lemma array_items_in_order_witness :
  validate_array ValidateFacts.host0 (all_rules 10) (validate ValidateFacts.host0 (all_rules 10) array_of_strings 1)
    "/a" 0 (node array_of_strings 0) (VArr [VNum (Num 1); VStr "x"; VBool true]) []
  = Ret (tt, [] ++ concat (imap string_verdict [VNum (Num 1); VStr "x"; VBool true])).
Proof.
  apply (array_items_in_order ValidateFacts.host0 (all_rules 10) array_of_strings "/a" 0
           (node array_of_strings 0) 1 [VNum (Num 1); VStr "x"; VBool true]
           string_verdict [] 1); try reflexivity.
  - simpl. lia.
  - intros [|[|[|i]]] x [= <-]; reflexivity.
Defined.

Lemma anyOf_tallies_every_branch_witness :
  exists result,
    anyOf_ ValidateFacts.host0 (validate ValidateFacts.host0 (all_rules 10) number_and_boolean 1) "" 0 [1; 2]
      (VNum (Num 5)) []
    = Ret (result, [])
    /\ r_valid result
       = length (List.filter is_nil
                   [[]; [mkError "  " ("Expected a boolean. Received: "
                                       +:+ Host.smart (VNum (Num 5)))]])
    /\ r_valid result + length (r_errors result) = length [1; 2]
    /\ length (r_messages result) = length [1; 2].
Proof.
  apply (anyOf_tallies_every_branch ValidateFacts.host0 (all_rules 10) number_and_boolean
           "" 0 (VNum (Num 5)) [1; 2]).
  repeat constructor.
Defined.

(** [{type: 'object', properties: {a: {type: 'string'}},
      additionalProperties: false}] *)
Definition only_a : heap :=
  [ {| type_ := Some "object"; format := None; anyOf := None; oneOf := None;
       allOf := None; not_ := None; items := None;
       properties := Some [("a", 1)];
       additionalProperties := AddlBool false; required := None; enum := None;
       discriminator := None; maxItems := None; minItems := None;
       uniqueItems := None; maximum := None; minimum := None;
       exclusiveMaximum := None; exclusiveMinimum := None; multipleOf := None;
       maxLength := None; minLength := None; pattern := None;
       maxProperties := None; minProperties := None |};
    typed "string" ].

(** What validating [5] as the property [a] yields. *)
Definition a_verdict (key : string) : list error :=
  [mkError ("/o/" +:+ key)
     ("Expected a string. Received: " +:+ Host.smart (VNum (Num 5)))].

Lemma object_keys_in_order_witness :
  validate_object ValidateFacts.host0 (all_rules 10) only_a
    (validate ValidateFacts.host0 (all_rules 10) only_a 1) 1 "/o" 0 0
    (VObj [("b", VBool true); ("a", VNum (Num 5))]) []
  = Ret (tt, [] ++ concat (map (key_verdict "/o" [("a", 1)] a_verdict)
                             [("b", VBool true); ("a", VNum (Num 5))].*1)).
Proof.
  apply (object_keys_in_order ValidateFacts.host0 (all_rules 10) only_a "/o" 0 0
           [("b", VBool true); ("a", VNum (Num 5))] [("a", 1)] a_verdict [] 0);
    try reflexivity.
  - simpl. lia.
  - intros key sub [<-|[<-|[]]] [= <-]; reflexivity.
Defined.

(** [{type: 'number', minimum: 0, maximum: 10, exclusiveMaximum: true}] *)
Definition from_0_below_10 : schema :=
  {| type_ := Some "number"; format := None; anyOf := None; oneOf := None;
     allOf := None; not_ := None; items := None; properties := None;
     additionalProperties := AddlAbsent; required := None; enum := None;
     discriminator := None; maxItems := None; minItems := None;
     uniqueItems := None;
     maximum := Some (VNum (Num 10)); minimum := Some (VNum (Num 0));
     exclusiveMaximum := Some (VBool true); exclusiveMinimum := None;
     multipleOf := None;
     maxLength := None; minLength := None; pattern := None;
     maxProperties := None; minProperties := None |}.

Lemma number_passes_iff_within_bounds_witness :
  exists new,
    validate_number ValidateFacts.host0 (all_rules 10) "/n" 0 from_0_below_10
      (VNum (Num 10)) []
    = Ret (tt, [] ++ new)
    /\ (new = [] <->
        (if truthy_opt (exclusiveMaximum from_0_below_10)
         then (10 < 10)%Q else (10 <= 10)%Q)
        /\ (if truthy_opt (exclusiveMinimum from_0_below_10)
            then (0 < 10)%Q else (0 <= 10)%Q)).
Proof.
  apply (number_passes_iff_within_bounds ValidateFacts.host0 (all_rules 10) "/n" 0
           from_0_below_10 10%Q 0%Q 10%Q []); reflexivity.
Defined.

(** A base schema with a discriminator; no definition is known. *)
Lemma unknown_discriminator_is_reported_witness :
  validate_object ValidateFacts.host0 (all_rules 10) [ValidateFacts.base_schema]
    (fun _ _ _ _ => ret tt) 1 "/pet" 0 0 (VObj [("kind", VStr "Cat")]) []
  = Ret (tt, [] ++
         [mkError "/pet"
            ("Undefined discriminator schema: "
             +:+ to_string ValidateFacts.host0
                   (getDiscriminatorKey ValidateFacts.host0 (node [ValidateFacts.base_schema] 0)
                      (VObj [("kind", VStr "Cat")])))]).
Proof.
  apply (unknown_discriminator_is_reported ValidateFacts.host0 (all_rules 10)
           [ValidateFacts.base_schema] (fun _ _ _ _ => ret tt) "/pet" 0 0
           [("kind", VStr "Cat")] [] 0); reflexivity.
Defined.

End ValidateMore.

(* ===================================================================== *)
(** ** More facts about bin/apply-template.js *)
(* ===================================================================== *)

Module ApplyTemplateMore.
Import Js ApplyTemplate.

Section Materializer.

Variable h : host.
Variable definitions : list (string * schema).
Variable params : value.
Variable options : options.

(** A schema without [allOf] and without discriminator is taken as it is. *)
Lemma discriminated_plain schema value :
  allOf schema = None ->
  discriminator schema = None ->
  discriminated h definitions schema value = Ret schema.
Proof. intros Hall Hdisc. unfold discriminated. now rewrite Hall, Hdisc. Qed.

(** With a value at hand, neither a variable, nor a template, nor a
    default is looked at. *)
Lemma provided_skips_sources rec schema (v : value) :
  allOf schema = None ->
  discriminator schema = None ->
  applyTemplate_body h definitions params options rec schema (Some v)
  = if is_type (getSchemaType h schema) "array" then asArray rec schema v
    else if is_type (getSchemaType h schema) "object"
         then asObject h options rec schema false v
         else Ret {| applied := false; val := v |}.
Proof.
  intros Hall Hdisc. unfold applyTemplate_body.
  rewrite discriminated_plain by assumption. simpl. rewrite Hall.
  reflexivity.
Qed.

(** X12. A value that is handed in and is neither an array nor an object
    comes back as it is, reported as not applied, whatever default,
    variable or template the schema declares. *)
Theorem provided_scalar_is_returned stack schema (v : value) :
  allOf schema = None ->
  discriminator schema = None ->
  typeof v <> "object" \/ v = VNull ->
  applyTemplate h definitions params options (S stack) schema (Some v)
  = Ret {| applied := false; val := v |}.
Proof.
  intros Hall Hdisc Hv. simpl. rewrite provided_skips_sources by assumption.
  destruct (is_type _ "array").
  - unfold asArray. destruct v; try reflexivity.
    destruct Hv as [Hv|Hv]; [exfalso; apply Hv; reflexivity|discriminate Hv].
  - destruct (is_type _ "object"); [|reflexivity].
    unfold asObject.
    destruct v; simpl; rewrite ?orb_true_r; try reflexivity;
      destruct Hv as [Hv|Hv];
      solve [exfalso; apply Hv; reflexivity | discriminate Hv].
Qed.

(** *** Arrays *)

Lemma eachItem_spec (rec : schema -> option value -> res data) it l : forall mapped,
  eachItem rec it l = Ret mapped ->
  Forall2 (fun x y => exists dd, rec it (Some x) = Ret dd /\ y = val dd) l mapped.1.
Proof.
  induction l as [|x l IH]; intros mapped; simpl.
  - intros [= <-]. constructor.
  - destruct (rec it (Some x)) as [d| |] eqn:Ex; simpl; try discriminate.
    destruct (eachItem rec it l) as [tail| |]; simpl; try discriminate.
    intros [= <-]. simpl. constructor; [|now apply IH]. eauto.
Qed.

(** X14. For a schema of type array without [allOf] and discriminator: an
    array handed in comes back as an array of the same length, itself when
    nothing was applied, and otherwise the array of what [applyTemplate]
    returns for each element against [items]. *)
Theorem array_is_mapped_in_place stack schema l d :
  allOf schema = None ->
  discriminator schema = None ->
  getSchemaType h schema = Some "array" ->
  applyTemplate h definitions params options (S stack) schema (Some (VArr l)) = Ret d ->
  exists l',
    val d = VArr l'
    /\ length l' = length l
    /\ (applied d = false -> l' = l)
    /\ (applied d = true ->
        exists it,
          items schema = Some it
          /\ Forall2 (fun x y =>
                        exists dd,
                          applyTemplate h definitions params options stack it (Some x)
                          = Ret dd
                          /\ y = val dd) l l').
Proof.
  intros Hall Hdisc Htype. simpl.
  rewrite provided_skips_sources by assumption. rewrite Htype. simpl.
  unfold asArray. destruct (items schema) as [it|].
  - destruct (eachItem _ it l) as [mapped| |] eqn:E; simpl; try discriminate.
    apply eachItem_spec in E.
    intros [= <-]. simpl. destruct mapped.2.
    + exists mapped.1. split; [reflexivity|].
      split; [symmetry; eapply Forall2_length; exact E|].
      split; [discriminate|]. intros _. exists it. auto.
    + exists l. repeat split; auto. discriminate.
  - intros [= <-]. exists l. repeat split; auto. discriminate.
Qed.

(** *** Nothing applied *)

(** X13. For a schema without [allOf] and discriminator: whenever
    [applyTemplate] reports that nothing was applied, the value it returns
    is the very argument it received. *)
Theorem unapplied_returns_the_argument stack schema given d :
  allOf schema = None ->
  discriminator schema = None ->
  applyTemplate h definitions params options stack schema given = Ret d ->
  applied d = false ->
  val d = argument given.
Proof.
  intros Hall Hdisc. destruct stack as [|stack]; simpl; [discriminate|].
  unfold applyTemplate_body. rewrite discriminated_plain by assumption.
  simpl. rewrite Hall.
  destruct (fromVariable _ _ _ _ _) as [[dv|]| |] eqn:Ev; simpl; try discriminate.
  { intros [= <-]. unfold fromVariable in Ev.
    destruct (if _ && _ then _ else _) as [name|]; [|discriminate].
    destruct (hasOwnProperty params name) as [owns| |]; simpl in Ev; try discriminate.
    destruct (_ && _); [|discriminate].
    injection Ev as <-. discriminate. }
  destruct (fromTemplate _ _ _ _) as [dt|] eqn:Et.
  { intros [= <-]. unfold fromTemplate in Et.
    destruct (if _ && _ then _ else _) as [template|]; [|discriminate].
    destruct (injector _ _ _); try (injection Et as <-; discriminate).
    destruct (String.eqb _ _); [discriminate|]. injection Et as <-. discriminate. }
  destruct (fromDefault _ _ _ _ _ _ _) as [[dd|]| |] eqn:Ed; simpl; try discriminate.
  { intros [= <-]. unfold fromDefault in Ed.
    destruct given as [v|]; simpl in Ed; [discriminate|].
    destruct (useDefaults options); simpl in Ed; [|discriminate].
    destruct (default_ schema) as [dflt|]; [|discriminate].
    destruct (defaultsUseParams options).
    - destruct dflt; injection Ed as <-; discriminate.
    - injection Ed as <-. discriminate. }
  destruct (is_type _ "array").
  { unfold asArray. destruct (argument given); try (intros [= <-]; reflexivity).
    destruct (items schema) as [it|]; [|intros [= <-]; reflexivity].
    destruct (eachItem _ _ _) as [mapped| |]; simpl; try discriminate.
    intros [= <-]. simpl. now intros ->. }
  destruct (is_type _ "object"); [|intros [= <-]; reflexivity].
  unfold asObject.
  destruct (_ && _); [intros [= <-]; reflexivity|].
  destruct (eachProperty _ _ _ _ _ _) as [st| |]; simpl; try discriminate.
  destruct (additionalProperties schema) as [additional|]; simpl.
  - destruct (eachAdditional _ _ _ _ _ _) as [st'| |]; simpl; try discriminate.
    intros [= <-]. simpl. now intros ->.
  - intros [= <-]. simpl. now intros ->.
Qed.

(** *** Objects *)

Lemma assoc_set_prop k p (v : value) (fs : list (string * value)) :
  assoc k (set_prop p v fs) = if String.eqb k p then Some v else assoc k fs.
Proof.
  induction fs as [|[k' y] fs IH]; simpl; [reflexivity|].
  destruct (String.eqb_spec p k') as [<-|Hne]; simpl.
  - destruct (String.eqb k p); reflexivity.
  - rewrite IH. destruct (String.eqb_spec k k') as [->|_]; [|reflexivity].
    destruct (String.eqb_spec k' p) as [->|_]; [now contradiction Hne|reflexivity].
Qed.

Lemma has_key_assoc {A} k (fs : list (string * A)) :
  has_key k fs = bool_decide (is_Some (assoc k fs)).
Proof.
  unfold has_key. destruct (assoc k fs); [symmetry; apply bool_decide_eq_true_2; eauto|].
  symmetry. apply bool_decide_eq_false_2. now intros [x Hx].
Qed.

Lemma set_prop_fresh k (v : value) (fs : list (string * value)) :
  has_key k fs = false -> set_prop k v fs = fs ++ [(k, v)].
Proof.
  unfold has_key. induction fs as [|[k' y] fs IH]; simpl; [reflexivity|].
  destruct (String.eqb k k'); [discriminate|]. intros H. now rewrite IH.
Qed.

Lemma has_key_app {A} k (a b : list (string * A)) :
  has_key k (a ++ b) = has_key k a || has_key k b.
Proof.
  unfold has_key. induction a as [|[k' y] a IH]; simpl; [now destruct (assoc k b)|].
  destruct (String.eqb k k'); [reflexivity|exact IH].
Qed.

Lemma has_key_In {A} k (fs : list (string * A)) :
  has_key k fs = true <-> In k fs.*1.
Proof.
  unfold has_key. induction fs as [|[k' y] fs IH]; simpl; [split; [discriminate|tauto]|].
  destruct (String.eqb_spec k k') as [->|Hne]; [split; auto|].
  rewrite IH. split; [auto|]. intros [E|H]; [now contradiction Hne|exact H].
Qed.

(** [Object.assign({}, value)] on an object: a copy with the same keys in
    the same order. *)
Lemma assign_copies (fs : list (string * value)) :
  NoDup fs.*1 -> Object_assign [] [VObj fs] = fs.
Proof.
  unfold Object_assign. simpl.
  enough (G : forall acc,
             NoDup fs.*1 -> (forall k, In k fs.*1 -> has_key k acc = false) ->
             fold_left (fun t kv => set_prop kv.1 kv.2 t) fs acc = acc ++ fs).
  { intros Hnd. now apply (G []). }
  induction fs as [|[k v] fs IH]; intros acc Hnd Hacc; simpl.
  - now rewrite app_nil_r.
  - apply NoDup_cons in Hnd as [Hk Hnd].
    rewrite set_prop_fresh by (apply Hacc; now left).
    rewrite IH; [now rewrite <- app_assoc|exact Hnd|].
    intros k' Hk'. rewrite has_key_app, Hacc by now right. simpl.
    unfold has_key. simpl. destruct (String.eqb_spec k' k) as [->|_]; [|reflexivity].
    exfalso. apply Hk. now apply list_elem_of_In.
Qed.

Section Loops.

Variable rec : schema -> option value -> res data.

(** The loop over the declared properties only adds and overwrites
    declared properties. *)
Lemma eachProperty_spec props : forall result setDefault st,
  eachProperty h options rec props result setDefault = Ret st ->
  (forall k, has_key k result = true -> has_key k st.1 = true)
  /\ (forall k, has_key k st.1 = true ->
        has_key k result = true \/ has_key k props = true)
  /\ (forall k, has_key k props = false -> assoc k st.1 = assoc k result).
Proof.
  induction props as [|[property subSchema] props IH]; intros result setDefault st; simpl.
  - intros [= <-]. simpl. auto.
  - assert (Hskip : eachProperty h options rec props result setDefault = Ret st ->
             (forall k, has_key k result = true -> has_key k st.1 = true)
             /\ (forall k, has_key k st.1 = true ->
                   has_key k result = true
                   \/ has_key k ((property, subSchema) :: props) = true)
             /\ (forall k, has_key k ((property, subSchema) :: props) = false ->
                   assoc k st.1 = assoc k result)).
    { intros E. destruct (IH _ _ _ E) as (H1 & H2 & H3). split; [exact H1|]. split.
      - intros k Hk. destruct (H2 k Hk) as [H|H]; [now left|right].
        unfold has_key in *. simpl. destruct (String.eqb k property); auto.
      - intros k Hk. apply H3. unfold has_key in *. simpl in Hk.
        destruct (String.eqb k property); [discriminate|exact Hk]. }
    destruct (triggers h options subSchema); [|exact Hskip].
    destruct (if has_key property result then _ else _) as [d| |]; simpl;
      try discriminate.
    destruct (applied d); [|exact Hskip].
    intros E. destruct (IH _ _ _ E) as (H1 & H2 & H3). split; [|split].
    + intros k Hk. apply H1. rewrite has_key_assoc, assoc_set_prop.
      rewrite has_key_assoc in Hk. destruct (String.eqb k property); [|exact Hk].
      apply bool_decide_eq_true_2. eauto.
    + intros k Hk. destruct (H2 k Hk) as [H|H].
      * rewrite has_key_assoc, assoc_set_prop in H.
        unfold has_key at 2. simpl.
        destruct (String.eqb k property); [now right|left].
        now rewrite has_key_assoc.
      * right. unfold has_key in *. simpl. destruct (String.eqb k property); auto.
    + intros k Hk. unfold has_key in Hk. simpl in Hk.
      destruct (String.eqb k property) eqn:Ek; [discriminate|].
      rewrite H3 by exact Hk. now rewrite assoc_set_prop, Ek.
Qed.

(** The loop over the other properties keeps the set of keys and leaves
    the declared properties alone. *)
Lemma eachAdditional_spec additional props keys : forall result setDefault st,
  eachAdditional rec additional props keys result setDefault = Ret st ->
  (forall k, In k keys -> has_key k result = true) ->
  (forall k, has_key k st.1 = has_key k result)
  /\ (forall k, has_key k props = true -> assoc k st.1 = assoc k result).
Proof.
  induction keys as [|property keys IH]; intros result setDefault st; simpl.
  - intros [= <-]. simpl. auto.
  - intros E Hkeys.
    assert (Hrest : forall k, In k keys -> has_key k result = true) by auto.
    destruct (has_key property props) eqn:Hp; simpl in E; [now apply (IH _ _ _ E)|].
    destruct (rec additional _) as [d| |]; simpl in E; try discriminate.
    destruct (applied d); [|now apply (IH _ _ _ E)].
    assert (Hsame : forall k, has_key k (set_prop property (val d) result) = has_key k result).
    { intros k. rewrite !has_key_assoc, assoc_set_prop.
      destruct (String.eqb_spec k property) as [->|_]; [|reflexivity].
      rewrite <- has_key_assoc, (Hkeys property) by now left.
      apply bool_decide_eq_true_2. eauto. }
    destruct (IH _ _ _ E) as (H1 & H2).
    { intros k Hk. rewrite Hsame. auto. }
    split.
    + intros k. now rewrite H1, Hsame.
    + intros k Hk. rewrite H2 by exact Hk. rewrite assoc_set_prop.
      destruct (String.eqb_spec k property) as [->|_]; [congruence|reflexivity].
Qed.

End Loops.

(** X15. For a schema without [allOf] and discriminator: an object handed
    to [applyTemplate] comes back as an object that owns every property it
    owned; a property it did not own is one that the schema declares; and,
    without [additionalProperties], a property that the schema does not
    declare keeps its value. *)
Theorem object_keeps_its_properties stack schema fs d :
  allOf schema = None ->
  discriminator schema = None ->
  NoDup fs.*1 ->
  applyTemplate h definitions params options stack schema (Some (VObj fs)) = Ret d ->
  exists fs',
    val d = VObj fs'
    /\ (forall k, has_key k fs = true -> has_key k fs' = true)
    /\ (forall k, has_key k fs' = true ->
          has_key k fs = true \/ has_key k (default [] (properties schema)) = true)
    /\ (additionalProperties schema = None ->
        forall k, has_key k (default [] (properties schema)) = false ->
                  assoc k fs' = assoc k fs).
Proof.
  intros Hall Hdisc Hnd. destruct stack as [|stack]; simpl; [discriminate|].
  rewrite provided_skips_sources by assumption.
  assert (Hsame : exists fs', VObj fs = VObj fs'
            /\ (forall k, has_key k fs = true -> has_key k fs' = true)
            /\ (forall k, has_key k fs' = true ->
                  has_key k fs = true \/ has_key k (default [] (properties schema)) = true)
            /\ (additionalProperties schema = None ->
                forall k, has_key k (default [] (properties schema)) = false ->
                          assoc k fs' = assoc k fs)).
  { exists fs. repeat split; auto. }
  destruct (is_type _ "array"); [intros [= <-]; exact Hsame|].
  destruct (is_type _ "object"); [|intros [= <-]; exact Hsame].
  unfold asObject. rewrite assign_copies by exact Hnd. simpl.
  destruct (eachProperty _ _ _ _ _ _) as [st| |] eqn:Ep; simpl; try discriminate.
  apply eachProperty_spec in Ep as (P1 & P2 & P3).
  destruct (additionalProperties schema) as [additional|] eqn:Hadd; simpl.
  - destruct (eachAdditional _ _ _ _ _ _) as [st'| |] eqn:Ea; simpl; try discriminate.
    apply eachAdditional_spec in Ea as (A1 & A2);
      [|intros k Hk; now apply has_key_In].
    intros [= <-]. simpl.
    destruct (if _ && _ then false else st'.2); [|exact Hsame].
    exists st'.1. split; [reflexivity|]. split; [|split; [|discriminate]].
    + intros k Hk. rewrite A1. auto.
    + intros k Hk. rewrite A1 in Hk. auto.
  - intros [= <-]. simpl.
    destruct (if _ && _ then false else st.2); [|exact Hsame].
    exists st.1. auto.
Qed.

(** X17. For an object schema without [allOf], discriminator, variable,
    template and default of its own: with [ignoreMissingRequired] off, an
    object that is reported as applied owns every name listed in
    [required]. *)
Theorem applied_object_owns_required stack schema given d :
  allOf schema = None ->
  discriminator schema = None ->
  x_variable schema = None ->
  x_template schema = None ->
  default_ schema = None ->
  getSchemaType h schema = Some "object" ->
  ignoreMissingRequired options = false ->
  applyTemplate h definitions params options stack schema given = Ret d ->
  applied d = true ->
  exists fs',
    val d = VObj fs'
    /\ forall r, In r (default [] (required schema)) -> has_key r fs' = true.
Proof.
  intros Hall Hdisc Hvar Htem Hdef Htype Hign.
  destruct stack as [|stack]; simpl; [discriminate|].
  unfold applyTemplate_body. rewrite discriminated_plain by assumption.
  simpl. rewrite Hall.
  unfold fromVariable, fromTemplate, fromDefault. rewrite Hvar, Htem, Hdef.
  rewrite !Tauto.if_same. simpl. rewrite Htype. simpl.
  unfold asObject. rewrite Hign. simpl.
  destruct (_ && _); [intros [= <-]; discriminate|].
  destruct (eachProperty _ _ _ _ _ _) as [st| |]; simpl; try discriminate.
  destruct (match additionalProperties schema with Some _ => _ | None => _ end)
    as [st'| |]; simpl; try discriminate.
  intros [= <-]. simpl.
  destruct (existsb _ _) eqn:Hex; simpl; [discriminate|].
  intros Happ. rewrite Happ. exists st'.1. split; [reflexivity|].
  intros r Hr. destruct (has_key r st'.1) eqn:E; [reflexivity|].
  rewrite <- Hex. apply existsb_exists. exists r. rewrite E. auto.
Qed.

(** *** Parameters *)

(** X19. The exported function replaces a missing schema, definitions and
    options, but not missing parameters: with [params] undefined or null, a
    schema with [x-variable] (and neither [allOf] nor discriminator) and no
    value makes it throw. *)
Theorem variable_needs_params stack schema name :
  allOf schema = None ->
  discriminator schema = None ->
  x_variable schema = Some name ->
  useVariables options = true ->
  params = VUndefined \/ params = VNull ->
  materialize h (S stack) (Some schema) (Some definitions) params options None
  = Throw (TypeError "Cannot read property 'hasOwnProperty' of null or undefined").
Proof.
  intros Hall Hdisc Hvar Huse Hparams. unfold materialize. rewrite Huse.
  rewrite !orb_true_r. simpl.
  unfold applyTemplate_body. rewrite discriminated_plain by assumption.
  simpl. rewrite Hall. unfold fromVariable. rewrite Huse, Hvar. simpl.
  destruct Hparams as [-> | ->]; reflexivity.
Qed.

(** *** Defaults *)

(** The default of a schema, when neither a variable nor a template takes
    precedence. *)
Lemma declared_default stack schema dflt :
  allOf schema = None ->
  discriminator schema = None ->
  (forall name, useVariables options = true -> x_variable schema = Some name ->
     hasOwnProperty params name = Ret false) ->
  (forall template, useTemplates options = true -> x_template schema = Some template ->
     injector options template params = VStr template) ->
  useDefaults options = true ->
  default_ schema = Some dflt ->
  applyTemplate h definitions params options (S stack) schema None
  = Ret {| applied := true;
           val := match dflt with
                  | VStr text =>
                      if defaultsUseParams options
                      then injector options text params
                      else copy h dflt
                  | _ => copy h dflt
                  end |}.
Proof.
  intros Hall Hdisc Hvar Htem Huse Hdef. simpl.
  unfold applyTemplate_body. rewrite discriminated_plain by assumption.
  simpl. rewrite Hall.
  assert (Ev : fromVariable h params options schema (getSchemaType h schema) true
               = Ret None).
  { unfold fromVariable. simpl. destruct (useVariables options); [|reflexivity].
    destruct (x_variable schema) as [name|]; [|reflexivity].
    now rewrite (Hvar name). }
  assert (Et : fromTemplate params options schema true = None).
  { unfold fromTemplate. simpl. destruct (useTemplates options); [|reflexivity].
    destruct (x_template schema) as [template|]; [|reflexivity].
    rewrite (Htem template) by reflexivity. now rewrite String.eqb_refl. }
  rewrite Ev. simpl. rewrite Et.
  unfold fromDefault. rewrite Hdef, Huse. simpl.
  destruct (defaultsUseParams options); destruct dflt; reflexivity.
Qed.

(** X18. For a schema without [allOf] and discriminator: without a value,
    when no variable is bound and no template resolves, a declared default
    is returned at once. A string goes through the placeholder injector
    (when defaults use the parameters), anything else is copied. An object
    or array default is never materialized further: the branch that would
    do so tests the missing value. *)
Theorem default_is_copied_not_expanded stack schema dflt :
  allOf schema = None ->
  discriminator schema = None ->
  (forall name, useVariables options = true -> x_variable schema = Some name ->
     hasOwnProperty params name = Ret false) ->
  (forall template, useTemplates options = true -> x_template schema = Some template ->
     injector options template params = VStr template) ->
  useDefaults options = true ->
  default_ schema = Some dflt ->
  applyTemplate h definitions params options (S stack) schema None
  = Ret {| applied := true;
           val := match dflt with
                  | VStr text =>
                      if defaultsUseParams options
                      then injector options text params
                      else copy h dflt
                  | _ => copy h dflt
                  end |}.
Proof. apply declared_default. Qed.

(** *** allOf *)

Lemma eachAllOf_spec (rec : schema -> option value -> res data) members results
    (valueNotProvided : bool) (value : value) :
  Forall2 (fun m r =>
             rec m (Some (if valueNotProvided then VObj [] else value)) = Ret r)
    members results ->
  forall applications,
    eachAllOf rec members valueNotProvided value applications
    = Ret (applications ++ (val <$> List.filter applied results)).
Proof.
  induction 1 as [|m r members results Hm _ IH]; intros applications; simpl.
  - now rewrite app_nil_r.
  - rewrite Hm. simpl. rewrite IH. destruct (applied r); simpl; [|reflexivity].
    now rewrite <- app_assoc.
Qed.

(** X20. For a schema with [allOf], [applyTemplate] reports applied when
    at least two members applied, and returns a new object into which the
    values of the members that applied were merged, in order; the value
    handed in is not part of the merge. *)
Theorem allOf_applies_from_two stack schema members given results :
  allOf schema = Some members ->
  Forall2 (fun m r =>
             applyTemplate h definitions params options stack m
               (Some (match given with Some v => v | None => VObj [] end))
             = Ret r)
    members results ->
  applyTemplate h definitions params options (S stack) schema given
  = Ret {| applied := bool_decide (2 <= length (List.filter applied results));
           val := VObj (Object_assign [] (val <$> List.filter applied results)) |}.
Proof.
  intros Hall Hres. simpl. unfold applyTemplate_body, discriminated.
  rewrite Hall. simpl. rewrite Hall. unfold fromAllOf.
  rewrite (eachAllOf_spec _ members results).
  - simpl. rewrite length_fmap. f_equal. f_equal.
    apply bool_decide_ext. lia.
  - destruct given; exact Hres.
Qed.

(** *** Filling in a missing property *)

Section Filling.

Variable rec : schema -> option value -> res data.

Lemma eachProperty_keeps_flag props : forall result st,
  eachProperty h options rec props result true = Ret st -> st.2 = true.
Proof.
  induction props as [|[q s'] props IH]; intros result st; simpl.
  - now intros [= <-].
  - destruct (triggers h options s'); [|apply IH].
    destruct (if has_key q result then _ else _) as [d| |]; simpl; try discriminate.
    destruct (applied d); apply IH.
Qed.

Lemma eachAdditional_keeps_flag additional props keys : forall result st,
  eachAdditional rec additional props keys result true = Ret st -> st.2 = true.
Proof.
  induction keys as [|q keys IH]; intros result st; simpl.
  - now intros [= <-].
  - destruct (negb (has_key q props)); [|apply IH].
    destruct (rec additional _) as [d| |]; simpl; try discriminate.
    destruct (applied d); apply IH.
Qed.

Lemma eachProperty_fills props p sub v : forall result setDefault st,
  NoDup props.*1 ->
  assoc p props = Some sub ->
  triggers h options sub = true ->
  rec sub None = Ret {| applied := true; val := v |} ->
  has_key p result = false ->
  eachProperty h options rec props result setDefault = Ret st ->
  st.2 = true /\ assoc p st.1 = Some v.
Proof.
  induction props as [|[q s'] props IH]; intros result setDefault st Hnd Hp Htr Hrec Hfree;
    simpl in *; [discriminate|].
  apply NoDup_cons in Hnd as [Hq Hnd].
  destruct (String.eqb_spec p q) as [<-|Hne].
  - injection Hp as ->. rewrite Htr, Hfree, Hrec. simpl. intros E.
    split; [now apply eachProperty_keeps_flag in E|].
    destruct (eachProperty_spec rec _ _ _ _ E) as (_ & _ & H3).
    rewrite H3.
    + now rewrite assoc_set_prop, String.eqb_refl.
    + destruct (has_key p props) eqn:Hk; [|reflexivity].
      exfalso. apply Hq. apply list_elem_of_In. now apply has_key_In.
  - assert (Hskip : forall sd, eachProperty h options rec props result sd = Ret st ->
              st.2 = true /\ assoc p st.1 = Some v) by (intros sd; now apply IH).
    destruct (triggers h options s'); [|apply Hskip].
    destruct (if has_key q result then _ else _) as [d| |]; simpl; try discriminate.
    destruct (applied d); [|apply Hskip].
    apply IH; auto.
    rewrite has_key_assoc, assoc_set_prop.
    destruct (String.eqb_spec p q) as [->|_]; [now contradiction Hne|].
    now rewrite <- has_key_assoc.
Qed.

End Filling.

(** X16. For an object schema and a property schema without [allOf] and
    discriminator, the property schema having neither variable nor
    template: a property that the object lacks and whose schema declares a
    default is filled in. The call reports applied and the object returned
    owns the property, with the default as [applyTemplate] gives it for the
    property's schema. *)
Theorem missing_property_gets_its_default stack schema props p sub dflt fs :
  allOf schema = None ->
  discriminator schema = None ->
  getSchemaType h schema = Some "object" ->
  properties schema = Some props ->
  NoDup props.*1 ->
  assoc p props = Some sub ->
  allOf sub = None ->
  discriminator sub = None ->
  x_variable sub = None ->
  x_template sub = None ->
  default_ sub = Some dflt ->
  useDefaults options = true ->
  ignoreMissingRequired options = true ->
  NoDup fs.*1 ->
  has_key p fs = false ->
  forall d,
    applyTemplate h definitions params options (S (S stack)) schema (Some (VObj fs)) = Ret d ->
    applied d = true
    /\ exists fs',
         val d = VObj fs'
         /\ assoc p fs'
            = Some (match dflt with
                    | VStr text =>
                        if defaultsUseParams options
                        then injector options text params
                        else copy h dflt
                    | _ => copy h dflt
                    end).
Proof.
  intros Hall Hdisc Htype Hprops Hnd Hp Hsall Hsdisc Hsvar Hstem Hsdef Huse Hign Hfs Hfree d.
  assert (Hsub : applyTemplate h definitions params options (S stack) sub None
                 = Ret {| applied := true;
                          val := match dflt with
                                 | VStr text =>
                                     if defaultsUseParams options
                                     then injector options text params
                                     else copy h dflt
                                 | _ => copy h dflt
                                 end |}).
  { apply declared_default; auto.
    - intros name _ E. rewrite Hsvar in E. discriminate E.
    - intros template _ E. rewrite Hstem in E. discriminate E. }
  assert (Htr : triggers h options sub = true).
  { unfold triggers. rewrite Huse, Hsdef.
    destruct (useTemplates options && _), (useVariables options && _); reflexivity. }
  cbn [applyTemplate].
  set (rec := applyTemplate h definitions params options (S stack)) in *.
  rewrite provided_skips_sources by assumption.
  rewrite Htype.
  change (is_type (Some "object") "array") with false.
  change (is_type (Some "object") "object") with true. cbv iota.
  unfold asObject. rewrite assign_copies by exact Hfs. rewrite Hprops, Hign.
  simpl.
  destruct (eachProperty _ _ _ _ _ _) as [st| |] eqn:Ep; simpl; try discriminate.
  destruct (eachProperty_fills rec props p sub _ _ _ _ Hnd Hp Htr Hsub Hfree Ep)
    as [Hflag Hval].
  destruct (additionalProperties schema) as [additional|]; simpl.
  - destruct st as [result flag]. simpl in *. subst flag.
    destruct (eachAdditional _ _ _ _ _ _) as [st'| |] eqn:Ea; simpl; try discriminate.
    pose proof (eachAdditional_keeps_flag _ _ _ _ _ _ Ea) as Hflag'.
    apply eachAdditional_spec in Ea as (_ & A2); [|intros k Hk; now apply has_key_In].
    intros [= <-]. simpl. rewrite Hflag'. split; [reflexivity|].
    exists st'.1. split; [reflexivity|]. rewrite A2; [exact Hval|].
    unfold has_key. now rewrite Hp.
  - intros [= <-]. simpl. rewrite Hflag. split; [reflexivity|].
    exists st.1. auto.
Qed.

(** *** Precedence *)

(** X24. For a schema without [allOf] and discriminator, and with
    auto-format off, a bound variable takes precedence over a template and
    a default: without a value, when the parameters own the variable of
    the schema with a defined value, a copy of that value is returned,
    whatever template and default the schema has. *)
Theorem bound_variable_wins stack schema name :
  allOf schema = None ->
  discriminator schema = None ->
  useVariables options = true ->
  autoFormat options = false ->
  x_variable schema = Some name ->
  hasOwnProperty params name = Ret true ->
  typeof (get params name) <> "undefined" ->
  applyTemplate h definitions params options (S stack) schema None
  = Ret {| applied := true; val := copy h (get params name) |}.
Proof.
  intros Hall Hdisc Huse Hauto Hvar Hown Hdef. simpl.
  unfold applyTemplate_body. rewrite discriminated_plain by assumption.
  simpl. rewrite Hall. unfold fromVariable. rewrite Huse, Hvar, Hauto. simpl.
  rewrite Hown. simpl.
  destruct (String.eqb_spec (typeof (get params name)) "undefined") as [E|_];
    [now contradiction Hdef|reflexivity].
Qed.

(** X25. For a schema without [allOf] and discriminator, a template that
    resolves takes precedence over a default: without a value and without
    a bound variable, when the injector turns the template into something
    else than the template itself, that is what is returned, whatever
    default the schema has. *)
Theorem resolved_template_wins stack schema template :
  allOf schema = None ->
  discriminator schema = None ->
  (forall name, useVariables options = true -> x_variable schema = Some name ->
     hasOwnProperty params name = Ret false) ->
  useTemplates options = true ->
  x_template schema = Some template ->
  injector options template params <> VStr template ->
  applyTemplate h definitions params options (S stack) schema None
  = Ret {| applied := true; val := injector options template params |}.
Proof.
  intros Hall Hdisc Hvar Huse Htem Hres. simpl.
  unfold applyTemplate_body. rewrite discriminated_plain by assumption.
  simpl. rewrite Hall.
  assert (Ev : fromVariable h params options schema (getSchemaType h schema) true
               = Ret None).
  { unfold fromVariable. simpl. destruct (useVariables options); [|reflexivity].
    destruct (x_variable schema) as [name|]; [|reflexivity].
    now rewrite (Hvar name). }
  rewrite Ev. simpl. unfold fromTemplate. rewrite Huse, Htem. simpl.
  destruct (injector options template params) as [| |b|n|text|t|l|fs]; try reflexivity.
  destruct (String.eqb_spec text template) as [->|_]; [now contradiction Hres|reflexivity].
Qed.

End Materializer.

(** *** Worked inputs *)

(** [{type: 'string', default: 'x'}] *)
Definition a_defaults_to_x : schema :=
  {| ident := Some 10; type_ := Some "string"; format := None; allOf := None;
     discriminator := None; x_variable := None; x_template := None;
     default_ := Some (VStr "x"); items := None; properties := None;
     additionalProperties := None; required := None |}.

(** [{type: 'object', properties: {a: {type: 'string', default: 'x'}},
      required: ['a']}] *)
Definition with_a : schema :=
  {| ident := Some 11; type_ := Some "object"; format := None; allOf := None;
     discriminator := None; x_variable := None; x_template := None;
     default_ := None; items := None;
     properties := Some [("a", a_defaults_to_x)];
     additionalProperties := None; required := Some ["a"] |}.

(** [{type: 'array', items: with_a}] *)
Definition list_of_with_a : schema :=
  {| ident := Some 12; type_ := Some "array"; format := None; allOf := None;
     discriminator := None; x_variable := None; x_template := None;
     default_ := None; items := Some with_a; properties := None;
     additionalProperties := None; required := None |}.

(** [{type: 'object', default: {t: '{x}'}}] *)
Definition object_default : schema :=
  {| ident := Some 13; type_ := Some "object"; format := None; allOf := None;
     discriminator := None; x_variable := None; x_template := None;
     default_ := Some (VObj [("t", VStr "{x}")]); items := None; properties := None;
     additionalProperties := None; required := None |}.

(** The defaults of the module with [ignoreMissingRequired] off. *)
Definition heeding_required : options :=
  {| autoFormat := true; defaultsUseParams := true;
     ignoreMissingRequired := false; useDefaults := true;
     useTemplates := true; useVariables := true;
     injector := Host.handlebar |}.

Lemma provided_scalar_is_returned_witness :
  applyTemplate Host.make [] (VObj []) defaults 1 integer_default_5 (Some (VNum (Num 7)))
  = Ret {| applied := false; val := VNum (Num 7) |}.
Proof.
  apply (provided_scalar_is_returned Host.make [] (VObj []) defaults 0
           integer_default_5 (VNum (Num 7))).
  - reflexivity.
  - reflexivity.
  - left. discriminate.
Defined.

Lemma array_is_mapped_in_place_witness :
  exists l',
    val {| applied := true; val := VArr [VObj [("a", VStr "x")]] |} = VArr l'
    /\ length l' = length [VObj []]
    /\ (applied {| applied := true; val := VArr [VObj [("a", VStr "x")]] |} = false ->
        l' = [VObj []])
    /\ (applied {| applied := true; val := VArr [VObj [("a", VStr "x")]] |} = true ->
        exists it,
          items list_of_with_a = Some it
          /\ Forall2 (fun x y =>
                        exists dd,
                          applyTemplate Host.make [] (VObj []) defaults 2 it (Some x)
                          = Ret dd
                          /\ y = val dd) [VObj []] l').
Proof.
  apply (array_is_mapped_in_place Host.make [] (VObj []) defaults 2
           list_of_with_a [VObj []]
           {| applied := true; val := VArr [VObj [("a", VStr "x")]] |});
    reflexivity.
Defined.

Lemma unapplied_returns_the_argument_witness :
  val {| applied := false; val := VStr "y" |} = argument (Some (VStr "y")).
Proof.
  apply (unapplied_returns_the_argument Host.make [] (VObj []) defaults 1
           a_defaults_to_x (Some (VStr "y")) {| applied := false; val := VStr "y" |});
    reflexivity.
Defined.

Lemma object_keeps_its_properties_witness :
  exists fs',
    val {| applied := true; val := VObj [("b", VNum (Num 1)); ("a", VStr "x")] |}
    = VObj fs'
    /\ (forall k, has_key k [("b", VNum (Num 1))] = true -> has_key k fs' = true)
    /\ (forall k, has_key k fs' = true ->
          has_key k [("b", VNum (Num 1))] = true
          \/ has_key k (default [] (properties with_a)) = true)
    /\ (additionalProperties with_a = None ->
        forall k, has_key k (default [] (properties with_a)) = false ->
                  assoc k fs' = assoc k [("b", VNum (Num 1))]).
Proof.
  apply (object_keeps_its_properties Host.make [] (VObj []) defaults 2
           with_a [("b", VNum (Num 1))]
           {| applied := true; val := VObj [("b", VNum (Num 1)); ("a", VStr "x")] |});
    try reflexivity.
  apply (bool_decide_unpack (NoDup ["b"])). vm_compute. exact I.
Defined.

Lemma applied_object_owns_required_witness :
  exists fs',
    val {| applied := true; val := VObj [("a", VStr "x")] |} = VObj fs'
    /\ forall r, In r (default [] (required with_a)) -> has_key r fs' = true.
Proof.
  apply (applied_object_owns_required Host.make [] (VObj []) heeding_required 2
           with_a None {| applied := true; val := VObj [("a", VStr "x")] |});
    reflexivity.
Defined.

Lemma variable_needs_params_witness :
  materialize Host.make 1 (Some integer_variable_n) (Some []) VUndefined defaults None
  = Throw (TypeError "Cannot read property 'hasOwnProperty' of null or undefined").
Proof.
  apply (variable_needs_params Host.make [] VUndefined defaults 0 integer_variable_n "n");
    try reflexivity.
  now left.
Defined.

Lemma default_is_copied_not_expanded_witness :
  applyTemplate Host.make [] (VObj [("x", VStr "1")]) defaults 1 object_default None
  = Ret {| applied := true;
           val := match VObj [("t", VStr "{x}")] with
                  | VStr text =>
                      if defaultsUseParams defaults
                      then injector defaults text (VObj [("x", VStr "1")])
                      else copy Host.make (VObj [("t", VStr "{x}")])
                  | _ => copy Host.make (VObj [("t", VStr "{x}")])
                  end |}.
Proof.
  apply (default_is_copied_not_expanded Host.make [] (VObj [("x", VStr "1")]) defaults 0
           object_default (VObj [("t", VStr "{x}")])); try reflexivity.
  - intros name _ E. discriminate E.
  - intros template _ E. discriminate E.
Defined.

Lemma allOf_applies_from_two_witness :
  applyTemplate Host.make [] (VObj []) defaults 2 all_of_has_a (Some (VObj [("a", VStr "y")]))
  = Ret {| applied := bool_decide
             (2 <= length (List.filter applied
                             [{| applied := false; val := VObj [("a", VStr "y")] |}]));
           val := VObj (Object_assign []
                          (val <$> List.filter applied
                             [{| applied := false; val := VObj [("a", VStr "y")] |}])) |}.
Proof.
  apply (allOf_applies_from_two Host.make [] (VObj []) defaults 1 all_of_has_a
           [has_a] (Some (VObj [("a", VStr "y")]))).
  - reflexivity.
  - repeat constructor.
Defined.

Lemma missing_property_gets_its_default_witness :
  applied {| applied := true; val := VObj [("b", VNum (Num 1)); ("a", VStr "x")] |} = true
  /\ exists fs',
       val {| applied := true; val := VObj [("b", VNum (Num 1)); ("a", VStr "x")] |}
       = VObj fs'
       /\ assoc "a" fs'
          = Some (match VStr "x" with
                  | VStr text =>
                      if defaultsUseParams defaults
                      then injector defaults text (VObj [])
                      else copy Host.make (VStr "x")
                  | dflt => copy Host.make dflt
                  end).
Proof.
  apply (missing_property_gets_its_default Host.make [] (VObj []) defaults 0
           with_a [("a", a_defaults_to_x)] "a" a_defaults_to_x (VStr "x")
           [("b", VNum (Num 1))]); try reflexivity.
  - apply (bool_decide_unpack (NoDup ["a"])). vm_compute. exact I.
  - apply (bool_decide_unpack (NoDup ["b"])). vm_compute. exact I.
Defined.

(** [{type: 'string', 'x-variable': 'n', 'x-template': '{n}!', default: 'd'}] *)
Definition all_three : schema :=
  {| ident := Some 14; type_ := Some "string"; format := None; allOf := None;
     discriminator := None; x_variable := Some "n"; x_template := Some "{n}!";
     default_ := Some (VStr "d"); items := None; properties := None;
     additionalProperties := None; required := None |}.

(** The defaults of the module with [autoFormat] off. *)
Definition unformatted : options :=
  {| autoFormat := false; defaultsUseParams := true;
     ignoreMissingRequired := true; useDefaults := true;
     useTemplates := true; useVariables := true;
     injector := Host.handlebar |}.

(** The defaults of the module with [useVariables] off. *)
Definition without_variables : options :=
  {| autoFormat := true; defaultsUseParams := true;
     ignoreMissingRequired := true; useDefaults := true;
     useTemplates := true; useVariables := false;
     injector := Host.handlebar |}.

Lemma bound_variable_wins_witness :
  applyTemplate Host.make [] (VObj [("n", VNum (Num 5))]) unformatted 1 all_three None
  = Ret {| applied := true;
           val := copy Host.make (get (VObj [("n", VNum (Num 5))]) "n") |}.
Proof.
  apply (bound_variable_wins Host.make [] (VObj [("n", VNum (Num 5))]) unformatted 0
           all_three "n"); try reflexivity.
  discriminate.
Defined.

Lemma resolved_template_wins_witness :
  applyTemplate Host.make [] (VObj [("n", VNum (Num 5))]) without_variables 1 all_three None
  = Ret {| applied := true;
           val := injector without_variables "{n}!" (VObj [("n", VNum (Num 5))]) |}.
Proof.
  apply (resolved_template_wins Host.make [] (VObj [("n", VNum (Num 5))])
           without_variables 0 all_three "{n}!"); try reflexivity.
  - intros name E. discriminate E.
  - discriminate.
Defined.

End ApplyTemplateMore.

(* ===================================================================== *)
(** ** Facts about the parameter parser *)
(* ===================================================================== *)

Module SwaggerFacts.
Import Js Swagger.

Section Facts.

Variable to_number : value -> number.
Variable to_string : value -> string.

(** X21. [parse] returns normally for a boolean parameter (false for the
    text ['false'] and the empty text, true for every other text) and for a
    type it does not know (undefined); for the types array, integer, number
    and string it throws, whatever the value: the validators receive the
    array [errors] where they expect their context. *)
Theorem parse_returns_only_booleans prefix schema value :
  (forall t, type_ schema = Some t ->
     In t ["array"; "integer"; "number"; "string"] ->
     exists msg, parse to_number to_string prefix schema value = Throw (TypeError msg))
  /\ (type_ schema = Some "boolean" ->
      parse to_number to_string prefix schema value
      = Ret (Plain (VBool (match value with
                           | VStr text =>
                               negb (String.eqb text "false") && negb (String.eqb text "")
                           | _ => truthy value
                           end))))
  /\ ((forall t, type_ schema = Some t ->
         ~ In t ["array"; "boolean"; "integer"; "number"; "string"]) ->
      parse to_number to_string prefix schema value = Ret (Plain VUndefined)).
Proof.
  destruct schema as [type cf fmt it]. split; [|split].
  - intros t Ht Hin. simpl in Ht. subst type.
    destruct Hin as [<-|[<-|[<-|[<-|[]]]]]; cbn.
    + destruct value; cbn; eauto.
    + eauto.
    + eauto.
    + repeat match goal with
             | |- context [if ?b then _ else _] => destruct b
             end; cbn; eauto.
  - simpl. intros ->. cbn.
    destruct value as [| |b|n|text|t|l|fs]; try reflexivity.
    cbn [is_string]. destruct (String.eqb text "false"); reflexivity.
  - simpl. intros Hno. destruct type as [t|]; [|reflexivity].
    specialize (Hno t eq_refl). cbn [parse type_ is_text].
    destruct (String.eqb_spec t "array") as [->|_]; [exfalso; apply Hno; simpl; auto|].
    destruct (String.eqb_spec t "boolean") as [->|_]; [exfalso; apply Hno; simpl; auto|].
    destruct (String.eqb_spec t "integer") as [->|_]; [exfalso; apply Hno; simpl; auto|].
    destruct (String.eqb_spec t "number") as [->|_]; [exfalso; apply Hno; simpl; auto|].
    destruct (String.eqb_spec t "string") as [->|_]; [exfalso; apply Hno; simpl; auto 6|].
    reflexivity.
Qed.

End Facts.
End SwaggerFacts.
